(** * Build-FS: layered filesystem builds, size ledger and capacity planner

    A shallow embedding of the size-accounting and planning core of
    [build_fs.py] (build-fs 17.3), [utils.py] and [copytarget.py]
    (copytarget 1.4), with the properties of its specification stated
    and settled against the embedded code.

    Python integers are [Z]; Python floats are IEEE-754 binary64 values,
    represented by the rational they denote ([Q]) together with an explicit
    rounding function; dictionaries whose iteration order is irrelevant are
    [gmap]s, insertion-ordered dictionaries whose order is observable are
    association lists; exceptions and [sys.exit] are explicit outcomes. *)

From Stdlib Require Import ZArith QArith Qround Qpower Qabs Lia Lra Psatz.
From Stdlib Require Import Ascii.
From stdpp Require Import base gmap strings list pretty.

Local Open Scope Z_scope.

(** ** Outcomes of Python code *)

(** The exceptions the embedded code can raise, and [sys.exit] as called by
    [raise_error_and_exit] (utils.py), which logs the message first. *)
Inductive pyexn : Type :=
  | AttributeError (name : string)
  | TypeError (what : string)
  | KeyError (key : string)
  | IndexError
  | OverflowError
  | ZeroDivisionError
  | FileNotFoundError (path : string)
  | SystemExit (message : string).

Inductive outcome (A : Type) : Type :=
  | Ok (a : A)
  | Raise (e : pyexn).
Arguments Ok {A} a.
Arguments Raise {A} e.

Definition obind {A B} (m : outcome A) (k : A -> outcome B) : outcome B :=
  match m with
  | Ok a => k a
  | Raise e => Raise e
  end.

Definition is_ok {A} (o : outcome A) : bool :=
  match o with
  | Ok _ => true
  | Raise _ => false
  end.

(** The value of an outcome known to be [Ok]. *)
Definition got {A} (default : A) (o : outcome A) : A :=
  match o with
  | Ok a => a
  | Raise _ => default
  end.

(** [raise_error_and_exit(error)]: logs, then [sys.exit(1)]. *)
Definition raise_error_and_exit {A} (error : string) : outcome A :=
  Raise (SystemExit error).

(** ** Python floats *)

Module PyFloat.

(** [ilog2 x] is the integer [l] with [2^l <= x < 2^(l+1)], for [0 < x]. *)
Definition ilog2 (x : Q) : Z :=
  let k := Z.log2 (Qnum x) - Z.log2 (Zpos (Qden x)) in
  if Qle_bool (2 ^ k) x then k else k - 1.

(** Round to the nearest integer, ties to the even one. *)
Definition round_half_even (y : Q) : Z :=
  let q := Qfloor y in
  match (y - inject_Z q ?= 1 # 2)%Q with
  | Lt => q
  | Gt => q + 1
  | Eq => if Z.even q then q else q + 1
  end.

(** The exponent of the unit in the last place of the binade of [x]:
    53 bits of precision, smallest exponent -1074 (subnormals). *)
Definition ulp_exp (x : Q) : Z := Z.max (ilog2 x - 52) (-1074).

Definition round_pos (x : Q) : Q :=
  let e := ulp_exp x in
  (inject_Z (round_half_even (x / 2 ^ e)) * 2 ^ e)%Q.

(** The binary64 value nearest to the rational [x] (round to nearest,
    ties to even), before the overflow check. *)
Definition round_double (x : Q) : Q :=
  match (x ?= 0)%Q with
  | Eq => 0%Q
  | Gt => round_pos x
  | Lt => (- round_pos (- x))%Q
  end.

(** A rounded result of magnitude [2^1024] or more is not a finite float. *)
Definition finite (x : Q) : bool := negb (Qle_bool (2 ^ 1024) (Qabs x)).

(** Operations that raise [OverflowError] themselves ([float(n)] for an
    [int], and [int / int]), and operations that return [inf], for which the
    embedded code always applies [math.ceil] next, raising [OverflowError]
    there; both are the same outcome. *)
Definition checked (x : Q) : outcome Q :=
  let r := round_double x in
  if finite r then Ok r else Raise OverflowError.

Definition of_int (n : Z) : outcome Q := checked (inject_Z n).
Definition add (a b : Q) : outcome Q := checked (a + b).
Definition mul (a b : Q) : outcome Q := checked (a * b).

(** [n / d] on two [int]s: the correctly rounded quotient. *)
Definition truediv (n d : Z) : outcome Q :=
  if d =? 0 then Raise ZeroDivisionError
  else checked (inject_Z n / inject_Z d).

(** [math.ceil] of a finite float. *)
Definition ceil (x : Q) : Z := Qceiling x.

(** The float literal [0.1]. *)
Definition lit_0_1 : Q := round_double (1 # 10).

End PyFloat.

(** ** Python objects: instance attributes *)

Inductive pyval : Type :=
  | VNone
  | VInt (n : Z)
  | VFloat (x : Q)
  | VStr (s : string).

(** The instance dictionary of an object. *)
Abbreviation attrs := (gmap string pyval).

(** Code that reads and writes the attributes of [self] and may raise. *)
Definition Py (A : Type) : Type := attrs -> outcome (A * attrs).

Definition ret {A} (a : A) : Py A := fun s => Ok (a, s).

Definition bind {A B} (m : Py A) (k : A -> Py B) : Py B :=
  fun s => match m s with
           | Ok (a, s') => k a s'
           | Raise e => Raise e
           end.

Definition lift {A} (o : outcome A) : Py A :=
  fun s => match o with Ok a => Ok (a, s) | Raise e => Raise e end.

Declare Scope py_scope.
Delimit Scope py_scope with py.
Notation "x <- m ;; k" := (bind m (fun x => k))
  (at level 100, m at next level, right associativity) : py_scope.
Notation "m ;; k" := (bind m (fun _ => k))
  (at level 100, right associativity) : py_scope.

(** [self.name]: [AttributeError] when the attribute was never set. *)
Definition getattr (name : string) : Py pyval :=
  fun s => match s !! name with
           | Some v => Ok (v, s)
           | None => Raise (AttributeError name)
           end.

(** [self.name = v]. *)
Definition setattr (name : string) (v : pyval) : Py unit :=
  fun s => Ok (tt, <[name := v]> s).

Definition as_int (v : pyval) : outcome Z :=
  match v with
  | VInt n => Ok n
  | _ => Raise (TypeError "int expected")
  end.

Definition as_float (v : pyval) : outcome Q :=
  match v with
  | VFloat x => Ok x
  | _ => Raise (TypeError "float expected")
  end.

Definition get_int (name : string) : Py Z :=
  bind (getattr name) (fun v => lift (as_int v)).

Definition get_float (name : string) : Py Q :=
  bind (getattr name) (fun v => lift (as_float v)).

(** ** Python string operations on ASCII text *)

Module PyStr.

Definition code (c : Ascii.ascii) : nat := Ascii.nat_of_ascii c.

(** What [\s] matches among the ASCII characters. *)
Definition is_space (c : Ascii.ascii) : bool :=
  let n := code c in
  ((9 <=? n) && (n <=? 13) || (28 <=? n) && (n <=? 32))%nat.

(** What [[0-9]] matches. *)
Definition is_digit (c : Ascii.ascii) : bool :=
  let n := code c in ((48 <=? n) && (n <=? 57))%nat.

(** [s.startswith(p)]. *)
Fixpoint startswith (p s : string) : bool :=
  match p, s with
  | EmptyString, _ => true
  | String a p', String b s' => Ascii.eqb a b && startswith p' s'
  | String _ _, EmptyString => false
  end.

Fixpoint rev_string (s acc : string) : string :=
  match s with
  | EmptyString => acc
  | String c s' => rev_string s' (String c acc)
  end.

(** [s.endswith(p)]. *)
Definition endswith (p s : string) : bool :=
  startswith (rev_string p EmptyString) (rev_string s EmptyString).

(** [re.sub(r"\s+", "", s)]. *)
Fixpoint remove_spaces (s : string) : string :=
  match s with
  | EmptyString => EmptyString
  | String c s' =>
      if is_space c then remove_spaces s' else String c (remove_spaces s')
  end.

(** [re.sub(r"\|", ",", s)]. *)
Fixpoint bars_to_commas (s : string) : string :=
  match s with
  | EmptyString => EmptyString
  | String c s' =>
      String (if Ascii.eqb c "|"%char then ","%char else c) (bars_to_commas s')
  end.

(** [re.sub(r"\([^()]*\)", "", s)], scanning left to right. [pending] is
    [Some buf] after an opening parenthesis that is not yet closed, [buf]
    holding the characters since then in reverse: a closing parenthesis drops
    the group, another opening one shows that the first opens no group. *)
Fixpoint drop_groups (pending : option string) (s : string) : string :=
  match s with
  | EmptyString =>
      match pending with
      | None => EmptyString
      | Some buf => String "("%char (rev_string buf EmptyString)
      end
  | String c s' =>
      match pending with
      | None =>
          if Ascii.eqb c "("%char then drop_groups (Some EmptyString) s'
          else String c (drop_groups None s')
      | Some buf =>
          if Ascii.eqb c ")"%char then drop_groups None s'
          else if Ascii.eqb c "("%char then
            String "("%char (rev_string buf EmptyString
                        +:+ drop_groups (Some EmptyString) s')
          else drop_groups (Some (String c buf)) s'
      end
  end.

Definition remove_bracketed (s : string) : string := drop_groups None s.

(** [s.split(",")]: [cur] is the field being read, in reverse. *)
Fixpoint split_on (sep : Ascii.ascii) (cur : string) (s : string)
  : list string :=
  match s with
  | EmptyString => [rev_string cur EmptyString]
  | String c s' =>
      if Ascii.eqb c sep then
        rev_string cur EmptyString :: split_on sep EmptyString s'
      else split_on sep (String c cur) s'
  end.

Definition split_commas (s : string) : list string :=
  split_on ","%char EmptyString s.

(** The first match of [[0-9]+], as [re.findall('[0-9]+', s)[0]]. *)
Fixpoint take_digits (s : string) : string :=
  match s with
  | EmptyString => EmptyString
  | String c s' =>
      if is_digit c then String c (take_digits s') else EmptyString
  end.

Fixpoint first_digits (s : string) : option string :=
  match s with
  | EmptyString => None
  | String c s' =>
      if is_digit c then Some (String c (take_digits s'))
      else first_digits s'
  end.

(** [int(s)] for a string of decimal digits. *)
Fixpoint int_of_digits (acc : Z) (s : string) : Z :=
  match s with
  | EmptyString => acc
  | String c s' => int_of_digits (10 * acc + Z.of_nat (code c - 48)) s'
  end.

(** [p in s] on two strings. *)
Fixpoint contains (p s : string) : bool :=
  startswith p s
  || match s with
     | EmptyString => false
     | String _ s' => contains p s'
     end.

(** Every character of [s] satisfies [p]. *)
Fixpoint all_chars (p : Ascii.ascii -> bool) (s : string) : bool :=
  match s with
  | EmptyString => true
  | String c s' => p c && all_chars p s'
  end.


End PyStr.


(** ** Normalisation of paths: [os.path.normpath] and [CopyTarget.normpath] *)

Module PosixPath.

(** [sep.join(comps)]. *)
Fixpoint join (comps : list string) : string :=
  match comps with
  | [] => EmptyString
  | [c] => c
  | c :: rest => c +:+ "/" +:+ join rest
  end.

(** The loop of [posixpath.normpath] over the components; [new_comps] is
    kept in reverse. *)
Fixpoint collapse (initial_slashes : bool) (comps new_comps : list string)
  : list string :=
  match comps with
  | [] => rev new_comps
  | comp :: rest =>
      if String.eqb comp "" || String.eqb comp "." then
        collapse initial_slashes rest new_comps
      else if negb (String.eqb comp "..")
              || (negb initial_slashes
                  && match new_comps with [] => true | _ => false end)
              || match new_comps with
                 | last :: _ => String.eqb last ".."
                 | [] => false
                 end
      then collapse initial_slashes rest (comp :: new_comps)
      else
        match new_comps with
        | _ :: popped => collapse initial_slashes rest popped
        | [] => collapse initial_slashes rest new_comps
        end
  end.

(** [os.path.normpath(path)] on POSIX. *)
Definition normpath (path : string) : string :=
  if String.eqb path "" then "."
  else
    let initial_slashes : string :=
      if PyStr.startswith "/" path then
        if PyStr.startswith "//" path && negb (PyStr.startswith "///" path)
        then "//" else "/"
      else "" in
    let comps :=
      collapse (negb (String.eqb initial_slashes ""))
        (PyStr.split_on "/"%char EmptyString path) [] in
    let path := initial_slashes +:+ join comps in
    if String.eqb path "" then "." else path.

End PosixPath.

Module CopyTarget.

(** [[a-zA-Z_]]. *)
Definition is_name_start (c : Ascii.ascii) : bool :=
  let n := PyStr.code c in
  ((65 <=? n) && (n <=? 90) || (97 <=? n) && (n <=? 122) || (n =? 95))%nat.

(** A closing brace comes before the end of the line. *)
Fixpoint closes (s : string) : bool :=
  match s with
  | EmptyString => false
  | String c s' =>
      if Ascii.eqb c "}"%char then true
      else if Ascii.eqb c "010"%char then false
      else closes s'
  end.

(** The pattern that [normpath] gives to [re.findall] has a match: the
    path has a dollar sign and an opening brace, then one character or more
    of the line, then a closing brace; or a dollar sign before a letter or
    an underscore. *)
Fixpoint has_variable (path : string) : bool :=
  match path with
  | EmptyString => false
  | String c rest =>
      (Ascii.eqb c "$"%char
       && match rest with
          | String d rest' =>
              is_name_start d
              || (Ascii.eqb d "{"%char
                  && match rest' with
                     | String e rest'' =>
                         negb (Ascii.eqb e "010"%char) && closes rest''
                     | EmptyString => false
                     end)
          | EmptyString => false
          end)
      || has_variable rest
  end.

(** [s.replace('//', '/')]. *)
Fixpoint single_slashes (s : string) : string :=
  match s with
  | EmptyString => EmptyString
  | String c rest =>
      match rest with
      | String d rest' =>
          if Ascii.eqb c "/"%char && Ascii.eqb d "/"%char then
            String "/"%char (single_slashes rest')
          else String c (single_slashes rest)
      | EmptyString => String c EmptyString
      end
  end.

(** [CopyTarget.normpath(path)] (copytarget.py). A path with a variable
    and a [../] is not given to [os.path.normpath]. *)
Definition normpath (path : string) : string :=
  let normpath :=
    if negb (has_variable path) || negb (PyStr.contains "../" path)
    then PosixPath.normpath path
    else path in
  if PyStr.endswith "/" path then
    if String.eqb (single_slashes normpath) "/" then "/"
    else single_slashes normpath +:+ "/"
  else single_slashes normpath.

End CopyTarget.
(** ** The Capacity Planner: [ExtImage] *)

Module ExtImage.
Import PyFloat.
Local Open Scope py_scope.

(** [sys.maxsize] on the 64-bit CPython the tool runs on. *)
Definition sys_maxsize : Z := 2 ^ 63 - 1.

Definition IMG_EXT : string := ".img".

(** A row of [EXT_DATA]: category, min_size, max_size, usage_type,
    block_size, byte_inode_ratio, inode_size and, when the row has an eighth
    entry, journal_blocks. *)
Record ext_row : Type := Row {
  row_category : Z;
  row_min_size : Z;
  row_max_size : Z;
  row_usage_type : string;
  row_block_size : Z;
  row_byte_inode_ratio : Z;
  row_inode_size : Z;
  row_journal_blocks : option Z
}.

Definition EXT_DATA : list ext_row := [
  Row 1 65536 2097151 "floppy" 4096 8192 128 (Some 0);
  Row 2 2097152 3145727 "floppy" 4096 8192 128 (Some 1024);
  Row 3 3145728 33554431 "small" 4096 4096 128 (Some 1024);
  Row 4 33554432 268435455 "small" 4096 4096 128 (Some 4096);
  Row 5 268435456 536870911 "small" 4096 4096 128 (Some 8192);
  Row 6 536870912 1073741823 "default" 4096 16384 256 (Some 4096);
  Row 7 1073741824 2147483647 "default" 4096 16384 256 (Some 8192);
  Row 8 2147483648 4294967295 "default" 4096 16384 256 (Some 16384);
  Row 9 4294967296 4398046511103 "default" 4096 16384 256 (Some 32768);
  Row 10 4398046511104 17592186044415 "big" 4096 32768 256 (Some 32768);
  Row 11 17592186044416 (-1) "huge" 4096 65536 256 (Some 32768)
].

(** The dictionary [get_category_dict] builds for one row. *)
Record category_data : Type := Category {
  min_size : Z;
  max_size : Z;
  usage_type : string;
  block_size : Z;
  byte_inode_ratio : Z;
  inode_size : Z;
  journal_blocks : Z
}.

(** [d[k] = v] on an insertion-ordered dictionary: an existing key keeps its
    position, a new key goes last. *)
Fixpoint dict_set {V} (k : Z) (v : V) (d : list (Z * V)) : list (Z * V) :=
  match d with
  | [] => [(k, v)]
  | (k', v') :: d' =>
      if k' =? k then (k, v) :: d' else (k', v') :: dict_set k v d'
  end.

(** [get_category_dict(ext_data)]: a missing eighth entry ([IndexError]) gives
    [journal_blocks = 0]. *)
Definition get_category_dict (ext_data : list ext_row)
  : list (Z * category_data) :=
  fold_left
    (fun categories_data row =>
       dict_set (row_category row)
         (Category (row_min_size row) (row_max_size row)
            (row_usage_type row) (row_block_size row)
            (row_byte_inode_ratio row) (row_inode_size row)
            (match row_journal_blocks row with
             | Some j => j
             | None => 0
             end))
         categories_data)
    ext_data [].

(** The test of [get_ext_category_data] on one category: a [max_size] that
    is not positive stands for [sys.maxsize]. *)
Definition in_range (size : Z) (c : category_data) : bool :=
  let max := if max_size c >? 0 then max_size c else sys_maxsize in
  (size >=? min_size c) && (size <=? max).

(** The loop of [get_ext_category_data] over the categories, in order. *)
Fixpoint find_category (size : Z) (categories : list (Z * category_data))
  : option category_data :=
  match categories with
  | [] => None
  | (_, c) :: rest =>
      if in_range size c then Some c else find_category size rest
  end.

(** [ExtImage.get_ext_category_data(size)]; [None] when no category is
    found. *)
Definition get_ext_category_data (size : Z) : option category_data :=
  find_category size (get_category_dict EXT_DATA).

Definition capacity_message (tree_size metadata_size final_size : Z)
  : string :=
  "Target filesystem tree size '" +:+ pretty tree_size
  +:+ "'B + metadata size '" +:+ pretty metadata_size
  +:+ "'B is larger than specified ImageSize '" +:+ pretty final_size
  +:+ "'B. ".

(** The setter of the property [tree_blocks]. Inside the class the name
    [self.__tree_blocks] is the attribute [_ExtImage__tree_blocks];
    [total_blocks] is a local variable. *)
Definition tree_blocks_setter (value : Z) : Py unit :=
  setattr "_ExtImage__tree_blocks" (VInt value) ;;
  (* total_blocks = self.__tree_blocks *)
  total_blocks <- get_int "_ExtImage__tree_blocks" ;;
  (* total_blocks = math.ceil((1 + self.reserve)*total_blocks) *)
  reserve <- get_float "reserve" ;;
  one <- lift (of_int 1) ;;
  factor <- lift (add one reserve) ;;
  blocks_f <- lift (of_int total_blocks) ;;
  product <- lift (mul factor blocks_f) ;;
  let total_blocks := ceil product in
  (* total_blocks += 2*self.journal_blocks *)
  journal <- get_int "journal_blocks" ;;
  let total_blocks := total_blocks + 2 * journal in
  (* total_inodes = math.ceil(
         total_blocks * self.block_size * self.inode_byte_ratio) *)
  bs <- get_int "block_size" ;;
  ratio <- get_float "inode_byte_ratio" ;;
  bytes_f <- lift (of_int (total_blocks * bs)) ;;
  inodes_f <- lift (mul bytes_f ratio) ;;
  let total_inodes := ceil inodes_f in
  (* total_inode_blocks = math.ceil(
         (total_inodes * self.inode_size)/self.block_size) *)
  isz <- get_int "inode_size" ;;
  bs <- get_int "block_size" ;;
  inode_blocks_f <- lift (truediv (total_inodes * isz) bs) ;;
  let total_inode_blocks := ceil inode_blocks_f in
  let total_blocks := total_blocks + total_inode_blocks in
  (* total_size = total_blocks * self.block_size *)
  bs <- get_int "block_size" ;;
  let total_size := total_blocks * bs in
  final_size <- get_int "final_size" ;;
  (if final_size <? total_size then
     (* the arguments of format(), left to right *)
     tb <- get_int "_ExtImage__tree_blocks" ;;
     bs <- get_int "block_size" ;;
     let tree_size := tb * bs in
     self_total_blocks <- get_int "total_blocks" ;;
     tb <- get_int "_ExtImage__tree_blocks" ;;
     bs <- get_int "block_size" ;;
     let metadata_size := (self_total_blocks - tb) * bs in
     final_size <- get_int "final_size" ;;
     lift (raise_error_and_exit
             (capacity_message tree_size metadata_size final_size))
   else ret tt) ;;
  setattr "noblks" (VInt total_blocks).

(** [Image.__init__(image_path, noblks, input_stream, bs)]. *)
Definition Image_init (image_path : string) (noblks : Z)
    (input_stream : string) (bs : Z) : Py unit :=
  setattr "image_path" (VStr (image_path +:+ IMG_EXT)) ;;
  setattr "noblks" (VInt noblks) ;;
  setattr "input_stream" (VStr input_stream) ;;
  setattr "bs" (VInt bs).

(** [ExtImage.__init__]. Subscripting the [None] that
    [get_ext_category_data] returns raises [TypeError]. *)
Definition init (image_path : string) (tree_blocks final_size : Z)
    (input_stream fs_type : string) (reserve : Q) : Py unit :=
  setattr "fs_type" (VStr fs_type) ;;
  setattr "final_size" (VInt final_size) ;;
  setattr "reserve" (VFloat reserve) ;;
  final_size' <- get_int "final_size" ;;
  category_data <-
    lift (match get_ext_category_data final_size' with
          | Some c => Ok c
          | None => Raise (TypeError "'NoneType' object is not subscriptable")
          end) ;;
  setattr "usage_type" (VStr (usage_type category_data)) ;;
  setattr "block_size" (VInt (block_size category_data)) ;;
  setattr "byte_inode_ratio" (VInt (byte_inode_ratio category_data)) ;;
  setattr "inode_size" (VInt (inode_size category_data)) ;;
  setattr "journal_blocks" (VInt (journal_blocks category_data)) ;;
  jb <- get_int "journal_blocks" ;;
  bs <- get_int "block_size" ;;
  journal_size_f <- lift (truediv (jb * bs) (1024 * 1024)) ;;
  setattr "journal_size" (VInt (ceil journal_size_f)) ;;
  bir <- get_int "byte_inode_ratio" ;;
  ratio <- lift (truediv 1 bir) ;;
  setattr "inode_byte_ratio" (VFloat ratio) ;;
  tree_blocks_setter tree_blocks ;;
  bs <- get_int "block_size" ;;
  Image_init image_path tree_blocks input_stream bs.

(** [ExtImage(image_path, tree_blocks, final_size)] with the defaults of the
    other parameters, on a fresh object. *)
Definition new (image_path : string) (tree_blocks final_size : Z)
  : outcome attrs :=
  match init image_path tree_blocks final_size "/dev/zero" "ext4" lit_0_1 ∅
  with
  | Ok (_, self) => Ok self
  | Raise e => Raise e
  end.

(** The value of the local [total_blocks] when the setter reaches the
    comparison with the final size, as a function of the attributes it
    reads. *)
Definition required_blocks (bs : Z) (reserve : Q) (journal : Z) (ratio : Q)
    (isz : Z) (tree : Z) : outcome Z :=
  obind (of_int 1) (fun one =>
  obind (add one reserve) (fun factor =>
  obind (of_int tree) (fun blocks_f =>
  obind (mul factor blocks_f) (fun product =>
  let total_blocks := ceil product + 2 * journal in
  obind (of_int (total_blocks * bs)) (fun bytes_f =>
  obind (mul bytes_f ratio) (fun inodes_f =>
  obind (truediv (ceil inodes_f * isz) bs) (fun inode_blocks_f =>
  Ok (total_blocks + ceil inode_blocks_f)))))))).

(** The categories of the table, in order. *)
Definition categories : list category_data :=
  map snd (get_category_dict EXT_DATA).

(** A table whose ranges follow each other without gap or overlap from
    [lo] on, the last one being the only one without upper bound. *)
Fixpoint chained (lo : Z) (cats : list category_data) : bool :=
  match cats with
  | [] => false
  | c :: rest =>
      (min_size c =? lo)
      && match rest with
         | [] => (max_size c <=? 0) && (lo <=? sys_maxsize)
         | _ :: _ =>
             (0 <? max_size c) && (lo <=? max_size c)
             && (max_size c <? sys_maxsize)
             && chained (max_size c + 1) rest
         end
  end.

(** What the setter reads from an object that [ExtImage.__init__] has
    built: the parameters of the category of the final size. *)
Definition planned (self : attrs) (c : category_data) (final_size : Z)
    (ratio : Q) : Prop :=
  self !! "reserve" = Some (VFloat lit_0_1)
  /\ self !! "journal_blocks" = Some (VInt (journal_blocks c))
  /\ self !! "block_size" = Some (VInt (block_size c))
  /\ self !! "inode_byte_ratio" = Some (VFloat ratio)
  /\ self !! "inode_size" = Some (VInt (inode_size c))
  /\ self !! "final_size" = Some (VInt final_size)
  /\ self !! "total_blocks" = None.


End ExtImage.

(** ** Insertion-ordered dictionaries with string keys *)

(** [OrderedDict] (and, from Python 3.7, [dict]) where the order of the keys
    is observable: an association list without repeated keys. *)
Module ODict.

Fixpoint get {V} (k : string) (d : list (string * V)) : option V :=
  match d with
  | [] => None
  | (k', v) :: d' => if String.eqb k' k then Some v else get k d'
  end.

(** [k in d]. *)
Definition mem {V} (k : string) (d : list (string * V)) : bool :=
  match get k d with Some _ => true | None => false end.

(** [d[k] = v]. *)
Fixpoint set {V} (k : string) (v : V) (d : list (string * V))
  : list (string * V) :=
  match d with
  | [] => [(k, v)]
  | (k', v') :: d' =>
      if String.eqb k' k then (k, v) :: d' else (k', v') :: set k v d'
  end.

Definition keys {V} (d : list (string * V)) : list string := map fst d.

End ODict.

(** ** The Size Budget Ledger: [FileSizeRecords] (copytarget.py) *)

Module Ledger.

(** A limit recorded in the ledger: the string ["unknown"] until an
    enforcement run stores the integer. *)
Inductive limit : Type :=
  | LimitUnknown
  | LimitValue (n : Z).

(** An entry of [fileSizeDict["modules"]]. The keys [numberOfDebians] and
    [debians] exist only in entries that [addDebianPackage] created. *)
Record module_entry : Type := Module_entry {
  moduleSize : Z;
  moduleSizeLimit : limit;
  numberOfFiles : Z;
  numberOfDebians : option Z;
  debians : option (gmap string Z);
  files : gmap string Z
}.

(** [fileSizeDict]. *)
Record size_dict : Type := Size_dict {
  totalFSSize : Z;
  totalFSSizeLimit : limit;
  totalNumberOfFiles : Z;
  totalNumberOfDebians : option Z;
  modules : list (string * module_entry)
}.

(** A value of [fileRecordsDict]: [{"module": ..., "size": ...}]. *)
Record file_record : Type := File_record {
  rec_module : string;
  rec_size : Z
}.

(** A [FileSizeRecords] object. *)
Record records : Type := Records {
  targetSizeFile : option string;
  fileSizeDict : size_dict;
  fileRecordsDict : gmap string file_record
}.

(** What [readTargetSizeManifest] leaves when the file does not exist. *)
Definition empty_size_dict : size_dict :=
  Size_dict 0 LimitUnknown 0 None [].

Definition fresh (file : string) : records :=
  Records (Some file) empty_size_dict ∅.

Definition set_dict (d : size_dict) (self : records) : records :=
  Records (targetSizeFile self) d (fileRecordsDict self).

Definition set_modules (ms : list (string * module_entry)) (d : size_dict)
  : size_dict :=
  Size_dict (totalFSSize d) (totalFSSizeLimit d) (totalNumberOfFiles d)
    (totalNumberOfDebians d) ms.

(** The entry [addFile] creates for a module it has not seen. *)
Definition new_file_module : module_entry :=
  Module_entry 0 LimitUnknown 0 None None ∅.

(** The entry [addDebianPackage] creates for a module it has not seen. *)
Definition new_debian_module : module_entry :=
  Module_entry 0 LimitUnknown 0 (Some 0) (Some ∅) ∅.

Section FileSizeRecords.

(** [str.lower] and [CopyTarget.normpath] (which rests on [re] and
    [os.path.normpath]) and the file-system queries are parameters. *)
Variable lower : string -> string.
Variable normpath : string -> string.
(** [os.path.isdir(p) and not os.path.islink(p)]. *)
Variable isdir_not_link : string -> bool.
(** [os.lstat(p).st_size]; it raises when the path does not exist. *)
Variable lstat_size : string -> outcome Z.
(** [os.path.isfile(p)]. *)
Variable isfile : string -> bool.

(** [FileSizeRecords.removeFile(destination, module)]. The two [pop]s and the
    four updates are inside one [try]; a [KeyError] leaves what was done
    before it. *)
Definition removeFile (destination module : string) (self : records)
  : records :=
  match targetSizeFile self with
  | None => self
  | Some _ =>
      let module := lower module in
      let destination := normpath destination in
      let d := fileSizeDict self in
      match ODict.get module (modules d) with
      | None => self
      | Some m =>
          match files m !! destination with
          | None => self
          | Some size =>
              (* files.pop(destination) *)
              let m1 := Module_entry (moduleSize m) (moduleSizeLimit m)
                          (numberOfFiles m) (numberOfDebians m) (debians m)
                          (delete destination (files m)) in
              match fileRecordsDict self !! destination with
              | None =>
                  Records (targetSizeFile self)
                    (set_modules (ODict.set module m1 (modules d)) d)
                    (fileRecordsDict self)
              | Some _ =>
                  let m2 := Module_entry (moduleSize m - size)
                              (moduleSizeLimit m) (numberOfFiles m - 1)
                              (numberOfDebians m) (debians m)
                              (delete destination (files m)) in
                  Records (targetSizeFile self)
                    (Size_dict (totalFSSize d - size) (totalFSSizeLimit d)
                       (totalNumberOfFiles d - 1) (totalNumberOfDebians d)
                       (ODict.set module m2 (modules d)))
                    (delete destination (fileRecordsDict self))
              end
          end
      end
  end.

(** [FileSizeRecords.addFile(source, destination, module, size=None)]. *)
Definition addFile (source : option string) (destination module : string)
    (size : option Z) (self : records) : outcome records :=
  match targetSizeFile self with
  | None => Ok self
  | Some _ =>
      let module := lower module in
      let destination := normpath destination in
      let self :=
        if ODict.mem module (modules (fileSizeDict self)) then self
        else set_dict
               (set_modules
                  (ODict.set module new_file_module
                     (modules (fileSizeDict self)))
                  (fileSizeDict self))
               self in
      obind
        (match size with
         | Some size => Ok size
         | None =>
             match source with
             | None => Raise (TypeError "path should be string, not NoneType")
             | Some source =>
                 if isdir_not_link source then
                   Raise (SystemExit
                     ("Error: " +:+ source +:+ " is a directory. addFile() "
                      +:+ "function in FileSizeRecords can only accept "
                      +:+ "files."))
                 else lstat_size source
             end
         end)
        (fun size =>
           let self :=
             match fileRecordsDict self !! destination with
             | Some old => removeFile destination (rec_module old) self
             | None => self
             end in
           let d := fileSizeDict self in
           match ODict.get module (modules d) with
           | None => Raise (KeyError module)
           | Some m =>
               let m' := Module_entry (moduleSize m + size)
                           (moduleSizeLimit m) (numberOfFiles m + 1)
                           (numberOfDebians m) (debians m)
                           (<[destination := size]> (files m)) in
               Ok (Records (targetSizeFile self)
                     (Size_dict (totalFSSize d + size) (totalFSSizeLimit d)
                        (totalNumberOfFiles d + 1) (totalNumberOfDebians d)
                        (ODict.set module m' (modules d)))
                     (<[destination := File_record module size]>
                        (fileRecordsDict self)))
           end)
  end.

(** The state in which [addFile] finds the object once the module exists
    and an older record of the destination has been removed. *)
Definition prepared (destination module : string) (self : records)
  : records :=
  let self :=
    if ODict.mem (lower module) (modules (fileSizeDict self)) then self
    else set_dict
           (set_modules
              (ODict.set (lower module) new_file_module
                 (modules (fileSizeDict self)))
              (fileSizeDict self))
           self in
  match fileRecordsDict self !! normpath destination with
  | Some old => removeFile (normpath destination) (rec_module old) self
  | None => self
  end.

(** The loop of [addDebianPackage] over [fileList]; the state is
    [debianFileSize] and the object. [module] is present in the ledger. *)
Fixpoint add_debian_files (include_debian_files : bool)
    (work_dir module : string) (fileList : list string)
    (debianFileSize : Z) (self : records) : outcome (Z * records) :=
  match fileList with
  | [] => Ok (debianFileSize, self)
  | file :: rest =>
      let source := normpath (work_dir +:+ file) in
      if negb (isfile source) then
        add_debian_files include_debian_files work_dir module rest
          debianFileSize self
      else
        obind (lstat_size source) (fun fileSize =>
          let debianFileSize := debianFileSize + fileSize in
          if include_debian_files then
            let d := fileSizeDict self in
            match ODict.get module (modules d) with
            | None => Raise (KeyError module)
            | Some m =>
                let fresh_file :=
                  match fileRecordsDict self !! source with
                  | None => 1
                  | Some _ => 0
                  end in
                let m' := Module_entry (moduleSize m) (moduleSizeLimit m)
                            (numberOfFiles m + fresh_file)
                            (numberOfDebians m) (debians m)
                            (<[source := fileSize]> (files m)) in
                add_debian_files include_debian_files work_dir module rest
                  debianFileSize
                  (Records (targetSizeFile self)
                     (Size_dict (totalFSSize d) (totalFSSizeLimit d)
                        (totalNumberOfFiles d + fresh_file)
                        (totalNumberOfDebians d)
                        (ODict.set module m' (modules d)))
                     (<[source := File_record module fileSize]>
                        (fileRecordsDict self)))
            end
          else
            add_debian_files include_debian_files work_dir module rest
              debianFileSize self)
  end.

(** [FSLeasedSpace.addDebianPackage(debian, module, size, fileList)]
    (build_fs.py), on the [FileSizeRecords] object whose dictionaries
    [FSLeasedSpace] aliases. [size] is the package's Installed-Size in KiB,
    [None] when dpkg-query does not report it. *)
Definition addDebianPackage (include_debian_files : bool) (work_dir : string)
    (debian module : string) (size : option Z) (fileList : list string)
    (self : records) : outcome records :=
  let self :=
    if ODict.mem module (modules (fileSizeDict self)) then self
    else set_dict
           (set_modules
              (ODict.set module new_debian_module
                 (modules (fileSizeDict self)))
              (fileSizeDict self))
           self in
  obind
    (match size with
     | Some _ =>
         if include_debian_files then
           add_debian_files include_debian_files work_dir module fileList 0
             self
         else Ok (0, self)
     | None =>
         add_debian_files include_debian_files work_dir module fileList 0
           self
     end)
    (fun '(debianFileSize, self) =>
       let size :=
         match size with
         | Some size => size * 1024
         | None => debianFileSize
         end in
       let d := fileSizeDict self in
       let total_debs :=
         match totalNumberOfDebians d with Some n => n | None => 0 end in
       match ODict.get module (modules d) with
       | None => Raise (KeyError module)
       | Some m =>
           let module_debs :=
             match numberOfDebians m with Some n => n | None => 0 end in
           match debians m with
           | None => Raise (KeyError "debians")
           | Some debs =>
               let m' := Module_entry (moduleSize m + size)
                           (moduleSizeLimit m) (numberOfFiles m)
                           (Some (module_debs + 1))
                           (Some (<[debian := size]> debs)) (files m) in
               Ok (Records (targetSizeFile self)
                     (Size_dict (totalFSSize d + size) (totalFSSizeLimit d)
                        (totalNumberOfFiles d) (Some (total_debs + 1))
                        (ODict.set module m' (modules d)))
                     (fileRecordsDict self))
           end
       end).

End FileSizeRecords.

(** ASCII lower-casing: what [str.lower] does on ASCII strings. *)
Definition ascii_lower_char (c : Ascii.ascii) : Ascii.ascii :=
  let n := Ascii.nat_of_ascii c in
  if (65 <=? n)%nat && (n <=? 90)%nat then Ascii.ascii_of_nat (n + 32)
  else c.

Fixpoint ascii_lower (s : string) : string :=
  match s with
  | EmptyString => EmptyString
  | String c s' => String (ascii_lower_char c) (ascii_lower s')
  end.



End Ledger.

(** ** Enforcement of the limits: [FSLeasedSpace.check_target_size_manifest] *)

Module Enforce.
Import Ledger.

(** A value of the limits file, read with [yaml.BaseLoader] (every scalar
    is a string): one string, or a mapping from layer names to strings. *)
Inductive limit_entry : Type :=
  | Scalar (value : string)
  | PerLayer (by_layer : list (string * string)).

(** The limits file. [modules_limits] is [None] when the key ["modules"] is
    absent or null. *)
Record size_limits : Type := Size_limits {
  maxFSSize : option limit_entry;
  modules_limits : option (list (string * limit_entry))
}.

(** What a run leaves behind: the warnings logged, and how it ended:
    [Ok (Some d)] when it returned after [writeTargetSizeManifest] wrote [d],
    [Ok None] when it returned without writing, [Raise] when it was left by
    an exception or [sys.exit]. *)
Definition run : Type := list string * outcome (option size_dict).

Section FSLeasedSpace.

(** [Environment.get('NV_ERROR_ON_FS_SIZE_LIMITS')]. *)
Variable error_on_limits : option string.
(** [self.size_limits_file], [self.uses_base], [self.base_file]. *)
Variable size_limits_file : string.
Variable uses_base : bool.
Variable base_file : string.

(** [raise_issue(issue)]: a warning when the environment variable is
    ['false'], [raise_error_and_exit] otherwise. *)
Definition raise_issue (issue : string) (log : list string)
  : list string * outcome unit :=
  match error_on_limits with
  | Some v =>
      if String.eqb v "false" then (log ++ [issue], Ok tt)
      else (log, raise_error_and_exit issue)
  | None => (log, raise_error_and_exit issue)
  end.

(** [self.raise_issue(issue); return]. *)
Definition issue_and_return (issue : string) (log : list string) : run :=
  match raise_issue issue log with
  | (log', Ok _) => (log', Ok None)
  | (log', Raise e) => (log', Raise e)
  end.

(** [getIntValue(value)]. The unit is mandatory; the first run of digits is
    the value. *)
Definition getIntValue (value : string) : outcome Z :=
  if PyStr.endswith "bytes" value || PyStr.endswith "byte" value
     || PyStr.endswith "B" value
  then
    match PyStr.first_digits value with
    | Some digits => Ok (PyStr.int_of_digits 0 digits)
    | None => Raise IndexError
    end
  else
    raise_error_and_exit
      ("The value '" +:+ value +:+ "' specified in " +:+ size_limits_file
       +:+ " does not have a correct unit specified. "
       +:+ "It should be one of ['bytes', 'byte', 'B']").

Definition set_module_limit (module : string) (n : Z) (d : size_dict)
  : size_dict :=
  match ODict.get module (modules d) with
  | Some m =>
      set_modules
        (ODict.set module
           (Module_entry (moduleSize m) (LimitValue n) (numberOfFiles m)
              (numberOfDebians m) (debians m) (files m))
           (modules d))
        d
  | None => d
  end.

(** The loop over [file_size_dict["modules"]], followed by
    [writeTargetSizeManifest]. *)
Fixpoint check_modules (filesystem : string)
    (limits : list (string * limit_entry)) (names : list string)
    (d : size_dict) (log : list string) : run :=
  match names with
  | [] => (log, Ok (Some d))
  | module :: rest =>
      match ODict.get module (modules d) with
      | None => (log, Raise (KeyError module))
      | Some m =>
          let module_size := moduleSize m in
          match ODict.get module limits with
          | None =>
              issue_and_return
                ("The max size of '" +:+ module
                 +:+ "' module is not defined in " +:+ size_limits_file
                 +:+ ".") log
          | Some entry =>
              let found :=
                match entry with
                | Scalar v => Some v
                | PerLayer by_layer =>
                    match ODict.get filesystem by_layer with
                    | Some v => Some v
                    | None => ODict.get "others" by_layer
                    end
                end in
              match found with
              | None =>
                  issue_and_return
                    ("The max size of '" +:+ module +:+ "' module for '"
                     +:+ filesystem +:+ "' filesystem is not defined in "
                     +:+ size_limits_file +:+ ".") log
              | Some max_module_size =>
                  if uses_base && negb (PyStr.startswith "+" max_module_size)
                  then
                    issue_and_return
                      ("'" +:+ filesystem +:+ "' filesystem uses '"
                       +:+ base_file +:+ "' as the base. In such cases, the "
                       +:+ size_limits_file +:+ " size limits file should "
                       +:+ "only specify the sizes of '" +:+ module
                       +:+ "' module in current layer. Such fields should "
                       +:+ "start with a '+' (e.g +512 bytes)") log
                  else
                    match getIntValue max_module_size with
                    | Raise e => (log, Raise e)
                    | Ok max_module_size =>
                        let d := set_module_limit module max_module_size d in
                        if module_size >? max_module_size then
                          match
                            raise_issue
                              ("The size of '" +:+ module +:+ "' module ('"
                               +:+ pretty module_size +:+ "' bytes) is more "
                               +:+ "than the total permissible limit of '"
                               +:+ pretty max_module_size +:+ "' bytes for '"
                               +:+ filesystem +:+ "' filesystem") log
                          with
                          | (log', Ok _) =>
                              check_modules filesystem limits rest d log'
                          | (log', Raise e) => (log', Raise e)
                          end
                        else check_modules filesystem limits rest d log
                    end
              end
          end
      end
  end.

(** [check_target_size_manifest(filesystem)] when [self.size_limits_file] is
    not [None]. [limits] is the content of the limits file, [on_disk] the
    ledger as [readTargetSizeManifest] reads it, and [du] the size that
    [du -s] measures, asked for unless the work directory is ["/"]. *)
Definition check_target_size_manifest (limits : size_limits)
    (on_disk : size_dict) (du : option Z) (filesystem : string) : run :=
  let d :=
    match du with
    | Some measured =>
        Size_dict measured (totalFSSizeLimit on_disk)
          (totalNumberOfFiles on_disk) (totalNumberOfDebians on_disk)
          (modules on_disk)
    | None => on_disk
    end in
  match maxFSSize limits with
  | None =>
      issue_and_return
        ("The max size of filesystems has not been defined in "
         +:+ size_limits_file +:+ ". Please define this using the "
         +:+ "'maxFSSize' key and try again.") []
  | Some entry =>
      let found :=
        match entry with
        | Scalar v => Some v
        | PerLayer by_layer =>
            match ODict.get filesystem by_layer with
            | Some v => Some v
            | None => ODict.get "others" by_layer
            end
        end in
      match found with
      | None =>
          issue_and_return
            ("The max size of '" +:+ filesystem +:+ "' filesystem is not "
             +:+ "defined in " +:+ size_limits_file +:+ ".") []
      | Some max_FS_size =>
          match getIntValue max_FS_size with
          | Raise e => ([], Raise e)
          | Ok max_FS_size =>
              let d := Size_dict (totalFSSize d) (LimitValue max_FS_size)
                         (totalNumberOfFiles d) (totalNumberOfDebians d)
                         (modules d) in
              let after_total :=
                if totalFSSize d >? max_FS_size then
                  raise_issue
                    ("The size of '" +:+ filesystem +:+ "' filesystem ('"
                     +:+ pretty (totalFSSize d) +:+ "' bytes) is more than "
                     +:+ "the total permissible limit of '"
                     +:+ pretty max_FS_size +:+ "' bytes.") []
                else ([], Ok tt) in
              match after_total with
              | (log, Raise e) => (log, Raise e)
              | (log, Ok _) =>
                  match modules_limits limits with
                  | None =>
                      issue_and_return
                        ("The size of filesystems for each module has not "
                         +:+ "been defined in " +:+ size_limits_file
                         +:+ ". Please define this using the 'modules' key "
                         +:+ "and try again.") log
                  | Some mlimits =>
                      check_modules filesystem mlimits
                        (ODict.keys (modules d)) d log
                  end
              end
          end
      end
  end.

(** ['false'] in the environment turns every issue into a warning. *)
Definition downgraded : bool :=
  match error_on_limits with
  | Some v => String.eqb v "false"
  | None => false
  end.

(** The value that the limits give for a layer: the scalar, or the entry of
    the layer, or else the entry ["others"]. *)
Definition resolve (filesystem : string) (entry : limit_entry)
  : option string :=
  match entry with
  | Scalar v => Some v
  | PerLayer by_layer =>
      match ODict.get filesystem by_layer with
      | Some v => Some v
      | None => ODict.get "others" by_layer
      end
  end.

(** The limit recorded in the entry [m] of module [k] is the number that
    [getIntValue] reads from the value that the limits give for [k]. *)
Definition limit_from_policy (filesystem : string)
    (limits : list (string * limit_entry)) (k : string) (m : module_entry)
  : Prop :=
  exists entry v n,
    ODict.get k limits = Some entry
    /\ resolve filesystem entry = Some v
    /\ getIntValue v = Ok n
    /\ moduleSizeLimit m = LimitValue n.

(** The module has a limit recorded. *)
Definition limited (k : string) (d : size_dict) : Prop :=
  exists m n,
    ODict.get k (modules d) = Some m /\ moduleSizeLimit m = LimitValue n.

(** The limits are complete and well formed for module [k] of the ledger,
    and its size is within its limit unless issues are only warnings. *)
Definition module_passes (filesystem : string)
    (limits : list (string * limit_entry)) (k : string) (d : size_dict)
  : Prop :=
  exists m entry v n,
    ODict.get k (modules d) = Some m
    /\ ODict.get k limits = Some entry
    /\ resolve filesystem entry = Some v
    /\ uses_base && negb (PyStr.startswith "+" v) = false
    /\ getIntValue v = Ok n
    /\ (downgraded = true \/ moduleSize m <= n).

End FSLeasedSpace.

(** The total that a run compares with the limit. *)
Definition measured_total (on_disk : Ledger.size_dict) (du : option Z) : Z :=
  match du with
  | Some measured => measured
  | None => Ledger.totalFSSize on_disk
  end.

(** [getIntValue] accepts the unit of the value. *)
Definition has_unit (value : string) : bool :=
  PyStr.endswith "bytes" value || PyStr.endswith "byte" value
  || PyStr.endswith "B" value.

(** Two entries of a module that differ in the limit at most. *)
Definition same_sizes (m m' : Ledger.module_entry) : Prop :=
  Ledger.moduleSize m' = Ledger.moduleSize m
  /\ Ledger.numberOfFiles m' = Ledger.numberOfFiles m
  /\ Ledger.numberOfDebians m' = Ledger.numberOfDebians m
  /\ Ledger.debians m' = Ledger.debians m
  /\ Ledger.files m' = Ledger.files m.

End Enforce.

(** ** The Package Dependency Attributor *)

Module Attributor.
Import Ledger.

(** An entry of [packageManifestDict["installed_packages"]], as
    [create_debian_manifest] writes it: the keys [depends], [size] and
    [files] are present; [depends] and [size] may be null. *)
Record package_info : Type := Package_info {
  depends : option string;
  size : option Z;
  pkg_files : list string
}.

(** [packageManifestDict]: the installed packages, in the order of the
    manifest, and the packages the base filesystem had already. *)
Record package_manifest : Type := Package_manifest {
  installed_packages : list (string * package_info);
  base_packages : list string
}.

(** The dependency names of a [Depends] field: white space removed,
    alternatives ([|]) made separate names, bracketed version constraints
    removed, split at the commas. *)
Definition parse_depends (depends : string) : list string :=
  PyStr.split_commas
    (PyStr.remove_bracketed
       (PyStr.bars_to_commas (PyStr.remove_spaces depends))).

(** [updateDependsModule(debian, debian_module, packageManifestDict)].
    [debian_module] is updated in place in the source and returned here.
    Python's recursion is bounded only by the interpreter's stack; [fuel]
    bounds the depth of the recursion, and [None] means it was too small. *)
Fixpoint updateDependsModule (fuel : nat)
    (installed : list (string * package_info)) (debian : string)
    (debian_module : list (string * string))
  : option (outcome (list (string * string))) :=
  match fuel with
  | O => None
  | S fuel' =>
      match ODict.get debian installed with
      | None =>
          (* This can happen in case of optional dependencies *)
          Some (Ok (ODict.set debian "unknown" debian_module))
      | Some info =>
          match depends info with
          | None => Some (Ok debian_module)
          | Some depends =>
              (fix each (names : list string)
                   (debian_module : list (string * string))
                 : option (outcome (list (string * string))) :=
                 match names with
                 | [] => Some (Ok debian_module)
                 | dependent :: rest =>
                     if ODict.mem dependent debian_module then
                       each rest debian_module
                     else
                       match ODict.get debian debian_module with
                       | None => Some (Raise (KeyError debian))
                       | Some module =>
                           match
                             updateDependsModule fuel' installed dependent
                               (ODict.set dependent module debian_module)
                           with
                           | Some (Ok debian_module') =>
                               each rest debian_module'
                           | other => other
                           end
                       end
                 end) (parse_depends depends) debian_module
          end
      end
  end.

(** The first loop of [processDebianPackageManifest]: over the keys that
    [debian_module] had on entry ([debian_module.copy()]). *)
Fixpoint resolve_owners (fuel : nat)
    (installed : list (string * package_info)) (seeds : list string)
    (debian_module : list (string * string))
  : option (outcome (list (string * string))) :=
  match seeds with
  | [] => Some (Ok debian_module)
  | debian :: rest =>
      match updateDependsModule fuel installed debian debian_module with
      | Some (Ok debian_module') =>
          resolve_owners fuel installed rest debian_module'
      | other => other
      end
  end.

Section Recording.

Variable normpath : string -> string.
Variable lstat_size : string -> outcome Z.
Variable isfile : string -> bool.
Variable include_debian_files : bool.
Variable work_dir : string.
(** [self.uses_base]. *)
Variable uses_base : bool.

(** The second loop of [processDebianPackageManifest]: packages of the base
    are skipped when the layer extends a base, a package without owner gets
    ["unknown"], and every other installed package is recorded. *)
Fixpoint record_packages (base : list string)
    (packages : list (string * package_info))
    (debian_module : list (string * string)) (self : records)
  : outcome (list (string * string) * records) :=
  match packages with
  | [] => Ok (debian_module, self)
  | (package, info) :: rest =>
      if uses_base && existsb (String.eqb package) base then
        record_packages base rest debian_module self
      else
        let debian_module :=
          if ODict.mem package debian_module then debian_module
          else ODict.set package "unknown" debian_module in
        match ODict.get package debian_module with
        | None => Raise (KeyError package)
        | Some module =>
            obind
              (addDebianPackage normpath lstat_size isfile
                 include_debian_files work_dir package module (size info)
                 (pkg_files info) self)
              (fun self => record_packages base rest debian_module self)
        end
  end.

(** [processDebianPackageManifest(manifest, debian_module)]: the owners
    found and the ledger, which [writeTargetSizeManifest] then writes. *)
Definition processDebianPackageManifest (fuel : nat)
    (manifest : package_manifest) (debian_module : list (string * string))
    (self : records)
  : option (outcome (list (string * string) * records)) :=
  match
    resolve_owners fuel (installed_packages manifest)
      (ODict.keys debian_module) debian_module
  with
  | None => None
  | Some (Raise e) => Some (Raise e)
  | Some (Ok debian_module) =>
      Some (record_packages (base_packages manifest)
              (installed_packages manifest) debian_module self)
  end.

(** The package is skipped by the second loop. *)
Definition in_base (base : list string) (package : string) : bool :=
  uses_base && existsb (String.eqb package) base.

(** The packages that the second loop records. *)
Definition recorded (base : list string)
    (packages : list (string * package_info))
  : list (string * package_info) :=
  List.filter (fun entry => negb (in_base base (fst entry))) packages.


End Recording.

(** The loop of [updateDependsModule] over the names of [depends], with the
    recursive call as a parameter. *)
Definition each_dependent
    (rec : string -> list (string * string)
           -> option (outcome (list (string * string))))
    (debian : string)
  : list string -> list (string * string)
    -> option (outcome (list (string * string))) :=
  fix each names debian_module :=
    match names with
    | [] => Some (Ok debian_module)
    | dependent :: rest =>
        if ODict.mem dependent debian_module then each rest debian_module
        else
          match ODict.get debian debian_module with
          | None => Some (Raise (KeyError debian))
          | Some module =>
              match rec dependent (ODict.set dependent module debian_module)
              with
              | Some (Ok debian_module') => each rest debian_module'
              | other => other
              end
          end
    end.

(** The names that [updateDependsModule] visits for a package: those of its
    [depends]; none for a package that is not installed or has no
    [depends]. *)
Definition dependencies (installed : list (string * package_info))
    (debian : string) : list string :=
  match ODict.get debian installed with
  | Some info =>
      match depends info with
      | Some depends => parse_depends depends
      | None => []
      end
  | None => []
  end.

(** Every name that a [depends] of the manifest mentions. *)
Definition universe (installed : list (string * package_info))
  : list string :=
  flat_map
    (fun entry =>
       match depends (snd entry) with
       | Some depends => parse_depends depends
       | None => []
       end)
    installed.

(** The names of [universe] that have no owner yet: what bounds the depth of
    the recursion. *)
Definition pending (installed : list (string * package_info))
    (debian_module : list (string * string)) : nat :=
  base.size ((list_to_set (universe installed) : gset string)
        ∖ list_to_set (ODict.keys debian_module)).

(** [owned installed seeds k m]: the installed package [k] is a seed with
    module [m], or a dependency, through installed packages only, of a seed
    with module [m]. *)
Inductive owned (installed : list (string * package_info))
    (seeds : list (string * string)) : string -> string -> Prop :=
  | owned_seed k m :
      ODict.get k seeds = Some m ->
      ODict.mem k installed = true ->
      owned installed seeds k m
  | owned_dependency p k m :
      owned installed seeds p m ->
      k ∈ dependencies installed p ->
      ODict.mem k installed = true ->
      owned installed seeds k m.

(** Every dependency of [k] has an owner. *)
Definition closed (installed : list (string * package_info))
    (debian_module : list (string * string)) (k : string) : Prop :=
  forall d, d ∈ dependencies installed k -> ODict.mem d debian_module = true.

(** What a traversal may do to an owner that is recorded: nothing, or, for a
    package that is not installed, replace it by ["unknown"]. *)
Definition grows (installed : list (string * package_info))
    (before after : list (string * string)) : Prop :=
  forall k m,
    ODict.get k before = Some m ->
    ODict.get k after = Some m
    \/ (ODict.mem k installed = false
        /\ ODict.get k after = Some "unknown").

(** The owners of installed packages come from the seeds. *)
Definition owners_from_seeds (installed : list (string * package_info))
    (seeds d : list (string * string)) : Prop :=
  forall k m,
    ODict.get k d = Some m -> ODict.mem k installed = true ->
    owned installed seeds k m.

(** A package that is not installed, other than [skip], has the owner
    ["unknown"] or the one it was given on entry. *)
Definition unknown_or_seed (installed : list (string * package_info))
    (seeds : list (string * string)) (skip : option string)
    (d : list (string * string)) : Prop :=
  forall k m,
    Some k <> skip ->
    ODict.get k d = Some m -> ODict.mem k installed = false ->
    m = "unknown" \/ ODict.get k seeds = Some m.

(** The packages with an owner, other than those of [todo], have owners for
    their dependencies. *)
Definition closed_except (installed : list (string * package_info))
    (todo : string -> Prop) (d : list (string * string)) : Prop :=
  forall k, ODict.mem k d = true -> ~ todo k -> closed installed d k.

(** The packages of the specification's example: A depends on B and C, B on
    nothing, C on D; D is installed in the first table only. *)
Definition example_with_d : list (string * package_info) :=
  [("A", Package_info (Some "B, C (>= 1.0)") (Some 1) []);
   ("B", Package_info None (Some 1) []);
   ("C", Package_info (Some "D | E") (Some 1) []);
   ("D", Package_info None (Some 1) [])].

Definition example_without_d : list (string * package_info) :=
  [("A", Package_info (Some "B, C") (Some 1) []);
   ("B", Package_info None (Some 1) []);
   ("C", Package_info (Some "D") (Some 1) [])].

Definition example_cycle : list (string * package_info) :=
  [("A", Package_info (Some "B") (Some 1) []);
   ("B", Package_info (Some "A") (Some 1) [])].

End Attributor.

(** ** The Manifest Merger *)

Module Manifest.

(** JSON documents as [json.load] builds them, objects as [OrderedDict].
    Numbers are integers: a document with a fraction is outside the
    model. *)
#[warnings="-register-all"]
Inductive json : Type :=
  | JNull
  | JBool (b : bool)
  | JNum (n : Z)
  | JStr (s : string)
  | JList (items : list json)
  | JDict (fields : list (string * json)).

(** [deep_dict_update(d1, d2, list_action="replace")] (utils.py). [d1] is
    updated in place in the source and returned; the updated value is
    returned here. The recursive call passes no [list_action]. *)
Fixpoint deep_dict_update (d1 d2 : json) (list_action : string)
  : outcome json :=
  match d2 with
  | JDict fields2 =>
      match d1 with
      | JDict fields1 =>
          (fix items (fields : list (string * json))
               (d1 : list (string * json)) : outcome json :=
             match fields with
             | [] => Ok (JDict d1)
             | (k, v) :: rest =>
                 match v with
                 | JDict _ =>
                     let old :=
                       match ODict.get k d1 with
                       | Some x => x
                       | None => JDict []
                       end in
                     match deep_dict_update old v "replace" with
                     | Ok merged => items rest (ODict.set k merged d1)
                     | Raise e => Raise e
                     end
                 | JList new_items =>
                     match ODict.get k d1 with
                     | Some (JList old_items) =>
                         if String.eqb list_action "replace" then
                           items rest (ODict.set k v d1)
                         else if String.eqb list_action "append" then
                           items rest
                             (ODict.set k (JList (old_items ++ new_items)) d1)
                         else
                           raise_error_and_exit
                             ("deep_dict_update: Incorrect list_action "
                              +:+ "value: " +:+ list_action)
                     | _ => items rest (ODict.set k v d1)
                     end
                 | _ => items rest (ODict.set k v d1)
                 end
             end) fields2 fields1
      | _ => Ok d2
      end
  | _ => raise_error_and_exit "deep_dict_update: Non dict update value."
  end.

(** The loop of [deep_dict_update] over the items of [d2], with the
    recursive call as a parameter. *)
Definition update_items (rec : json -> json -> outcome json)
    (list_action : string)
  : list (string * json) -> list (string * json) -> outcome json :=
  fix items fields d1 :=
    match fields with
    | [] => Ok (JDict d1)
    | (k, v) :: rest =>
        match v with
        | JDict _ =>
            let old :=
              match ODict.get k d1 with
              | Some x => x
              | None => JDict []
              end in
            match rec old v with
            | Ok merged => items rest (ODict.set k merged d1)
            | Raise e => Raise e
            end
        | JList new_items =>
            match ODict.get k d1 with
            | Some (JList old_items) =>
                if String.eqb list_action "replace" then
                  items rest (ODict.set k v d1)
                else if String.eqb list_action "append" then
                  items rest
                    (ODict.set k (JList (old_items ++ new_items)) d1)
                else
                  raise_error_and_exit
                    ("deep_dict_update: Incorrect list_action "
                     +:+ "value: " +:+ list_action)
            | _ => items rest (ODict.set k v d1)
            end
        | _ => items rest (ODict.set k v d1)
        end
    end.


(** The [Memberships] of a CONFIG: the groups of each user, as the JSON
    document that holds them. *)
Definition membership_fields (m : list (string * list string))
  : list (string * json) :=
  map (fun entry => (fst entry, JList (map JStr (snd entry)))) m.

Definition memberships (m : list (string * list string)) : json :=
  JDict (membership_fields m).


(** What Python hashes and compares of a value that can be put in a [set]:
    [None], a number ([True] and [False] are [1] and [0]) or a string.
    Lists and dictionaries are not hashable. *)
Definition hash_key (v : json) : option (option (Z + string)) :=
  match v with
  | JNull => Some None
  | JBool b => Some (Some (inl (if b then 1 else 0)))
  | JNum n => Some (Some (inl n))
  | JStr s => Some (Some (inr s))
  | JList _ | JDict _ => None
  end.

(** [set(items)]: an element equal to one that is in the set already is not
    added; [None] when an item is not hashable. *)
Fixpoint set_of (items : list json) (acc : gmap (option (Z + string)) json)
  : option (gmap (option (Z + string)) json) :=
  match items with
  | [] => Some acc
  | v :: rest =>
      match hash_key v with
      | None => None
      | Some key =>
          set_of rest
            (match acc !! key with
             | Some _ => acc
             | None => <[key := v]> acc
             end)
      end
  end.

(** [a + b]: lists and strings are concatenated, numbers added ([True] and
    [False] count as [1] and [0]); any other pair raises [TypeError]. *)
Definition concat (a b : json) : outcome json :=
  let number (v : json) : option Z :=
    match v with
    | JNum n => Some n
    | JBool b => Some (if b then 1 else 0)
    | _ => None
    end in
  match a, b with
  | JList a, JList b => Ok (JList (a ++ b))
  | JStr a, JStr b => Ok (JStr (a +:+ b))
  | _, _ =>
      match number a, number b with
      | Some x, Some y => Ok (JNum (x + y))
      | _, _ => Raise (TypeError "unsupported operand type(s) for +")
      end
  end.

(** The items that [set(v)] iterates over: those of a list, the characters
    of a string. *)
Definition iterate (v : json) : outcome (list json) :=
  match v with
  | JList items => Ok items
  | JStr s =>
      Ok (map (fun c => JStr (String c EmptyString)) (String.list_ascii_of_string s))
  | JDict fields => Ok (map (fun field => JStr (fst field)) fields)
  | JNull | JBool _ | JNum _ => Raise (TypeError "object is not iterable")
  end.

(** [list(set(parent + child))]. The order in which Python lists a set is
    not specified; the order here is that of [map_to_list]. *)
Definition merge_paths (parent child : json) : outcome json :=
  obind (concat parent child) (fun both =>
  obind (iterate both) (fun items =>
  match set_of items ∅ with
  | Some elements => Ok (JList (map snd (map_to_list elements)))
  | None => Raise (TypeError "unhashable type")
  end)).

(** [v.copy()]: dictionaries and lists have the method. *)
Definition copy (v : json) : outcome json :=
  match v with
  | JDict _ | JList _ => Ok v
  | _ => Raise (AttributeError "copy")
  end.

(** ** Parsing a CONFIG or MANIFEST file: [LinuxFileParser] *)

Definition LINUX_DEFAULT_IMAGE_SIZE : Z := 17179869184.

Definition QNX_DEFAULT_IMAGE_SIZE : Z := 4294967296.

Definition required_fields : list string := ["Output"; "OS"].
Definition string_fields : list string :=
  ["Output"; "OS"; "FilesystemType"; "Base"; "ImageSize"; "FileHashListDTS"].
Definition array_fields : list string := ["CopyTargets"; "FilesystemCleanup"].
Definition dict_fields : list string := ["PreInstalls"; "PostInstalls"].

Definition linux_string_fields : list string := string_fields ++ ["Distro"].
Definition linux_array_fields : list string :=
  array_fields
  ++ ["Mirrors"; "DebianPackages"; "FilesystemInclude";
      "AssociatedFilesystems"].
Definition linux_dict_fields : list string :=
  dict_fields
  ++ ["Users"; "Groups"; "Memberships"; "Mounts"; "SELinux"; "Reserved"].

Definition qnx_string_fields : list string := string_fields ++ ["ImageType"].
Definition qnx_array_fields : list string :=
  filter (fun x => negb (String.eqb x "FilesystemCleanup")) array_fields
  ++ ["BuildFileHeaderFiles"].

Definition is_str_or_null (v : json) : bool :=
  match v with JStr _ | JNull => true | _ => false end.
Definition is_list_or_null (v : json) : bool :=
  match v with JList _ | JNull => true | _ => false end.
Definition is_dict_or_null (v : json) : bool :=
  match v with JDict _ | JNull => true | _ => false end.

(** A field of the wrong type, if any, among [fields]. *)
Definition ill_typed (ok : json -> bool) (fields : list string)
    (data : list (string * json)) : option string :=
  find (fun f => match ODict.get f data with
                 | Some v => negb (ok v)
                 | None => false
                 end) fields.

(** [FileParser.validate()], for the field lists of the parser's class. *)
Definition validate (strings arrays dicts : list string)
    (json_file : string) (data : list (string * json)) : outcome unit :=
  match find (fun f => negb (ODict.mem f data)) required_fields with
  | Some field =>
      raise_error_and_exit
        ("Required Field: '" +:+ field
         +:+ "' absent from the input CONFIG file: '" +:+ json_file +:+ "'.")
  | None =>
      match ill_typed is_str_or_null strings data with
      | Some field =>
          raise_error_and_exit
            (field +:+ ": Value is not a string in the input CONFIG file: '"
             +:+ json_file +:+ "'.")
      | None =>
          match ill_typed is_list_or_null arrays data with
          | Some field =>
              raise_error_and_exit
                (field +:+ ": Value is not a list in the input CONFIG file: '"
                 +:+ json_file +:+ "'.")
          | None =>
              match ill_typed is_dict_or_null dicts data with
              | Some field =>
                  raise_error_and_exit
                    (field +:+ ": Value is not a dict in the input CONFIG "
                     +:+ "file: '" +:+ json_file +:+ "'.")
              | None => Ok tt
              end
          end
      end
  end.

(** [QNXFileParser.validate()]. [ImageType] is a string field: after
    [FileParser.validate] its value is a string or null, and null is
    formatted as [None]. *)
Definition qnx_validate (json_file : string) (data : list (string * json))
  : outcome unit :=
  obind (validate qnx_string_fields qnx_array_fields dict_fields json_file
           data)
    (fun _ =>
       match ODict.get "ImageType" data with
       | None | Some (JStr "IFS") | Some (JStr "XFS") => Ok tt
       | Some v =>
           raise_error_and_exit
             ("ImageType: '"
              +:+ match v with JStr s => s | _ => "None" end
              +:+ "' not recognized" +:+ String "010"%char "file: '"
              +:+ json_file +:+ "'.")
       end).

(** [d.setdefault(k, v)]. *)
Definition setdefault (k : string) (v : json) (d : list (string * json))
  : list (string * json) :=
  if ODict.mem k d then d else ODict.set k v d.

(** The defaults of [LinuxFileParser.init_default()], followed by those of
    [FileParser.init_default()], in the order of the [setdefault] calls. *)
Definition linux_defaults : list (string * json) :=
  [("Distro", JNull); ("Mirrors", JList []); ("DebianPackages", JList []);
   ("Users", JDict []); ("Groups", JDict []); ("Memberships", JDict []);
   ("SELinux", JDict []);
   ("ImageSize", JStr (pretty LINUX_DEFAULT_IMAGE_SIZE));
   ("Hostname", JNull); ("Mounts", JDict []);
   ("AssociatedFilesystems", JList []); ("FilesystemInclude", JList []);
   ("Output", JNull); ("PreInstalls", JDict []); ("CopyTargets", JList []);
   ("FSMountPointConfg", JNull); ("DigestMetadataConfig", JNull);
   ("PostInstalls", JDict []); ("OS", JNull);
   ("FilesystemType", JStr "standard"); ("Base", JNull);
   ("ImageSize", JStr "0"); ("FilesystemCleanup", JList [])].

(** [LinuxFileParser.init_default()], which ends with
    [FileParser.init_default()]. *)
Definition init_default (data : list (string * json))
  : list (string * json) :=
  fold_left (fun d '(k, v) => setdefault k v d) linux_defaults data.

(** The files of JSON documents that exist, by path. *)
Abbreviation store := (gmap string json).

(** [json.load] of the file [json_file], as [FileParser.__init__] calls it.
    The store holds the documents of the files with valid JSON syntax. *)
Definition load (class_name : string) (files : store) (json_file : string)
  : outcome json :=
  if String.eqb json_file EmptyString then
    raise_error_and_exit
      (class_name +:+ ": Require input json_file " +:+ " or json_str")
  else
    match files !! json_file with
    | None => Raise (FileNotFoundError json_file)
    | Some document => Ok document
    end.

(** The fields of a document that is an object. On a document that is not,
    [validate] ends as stated here: [field not in list] and
    [field not in str] are tests of membership and of substring, and with
    the required fields found the first access [json_data["Output"]]
    raises. *)
Definition document_fields (json_file : string) (document : json)
  : outcome (list (string * json)) :=
  let absent (field : string) :=
    raise_error_and_exit
      ("Required Field: '" +:+ field
       +:+ "' absent from the input CONFIG file: '" +:+ json_file +:+ "'.") in
  match document with
  | JDict data => Ok data
  | JList items =>
      match
        find (fun f =>
                negb (existsb (fun v => match v with
                                        | JStr s => String.eqb s f
                                        | _ => false
                                        end) items))
          required_fields
      with
      | Some field => absent field
      | None =>
          Raise (TypeError "list indices must be integers or slices, not str")
      end
  | JStr s =>
      match find (fun f => negb (PyStr.contains f s)) required_fields with
      | Some field => absent field
      | None => Raise (TypeError "string indices must be integers")
      end
  | JNull | JBool _ | JNum _ =>
      Raise (TypeError "argument of this type is not iterable")
  end.

(** [LinuxFileParser(json_file)]: the [json_data] of the parser. *)
Definition parse (files : store) (json_file : string)
  : outcome (list (string * json)) :=
  obind (load "LinuxFileParser" files json_file) (fun document =>
  obind (document_fields json_file document) (fun data =>
  obind
    (validate linux_string_fields linux_array_fields linux_dict_fields
       json_file data)
    (fun _ => Ok (init_default data)))).

(** [parser.get_xxx()]: [self.json_data["xxx"]]. *)
Definition get (field : string) (data : list (string * json))
  : outcome json :=
  match ODict.get field data with
  | Some v => Ok v
  | None => Raise (KeyError field)
  end.

Section ConvertToManifest.

(** [LinuxRootfsOperations.get_full_mirrors], [CopyTargetExecutor.
    get_full_cpt] and the package list that [get_full_debian_manifest]
    queries from the built filesystem are parameters. *)
Variable get_full_mirrors : json -> outcome json.
Variable get_full_cpt : json -> outcome json.
Variable full_debian_manifest : json.

(** The statements of [LinuxBuildFS.convert_to_manifest] under
    [if old_mf:], in order, each assigning one key of the manifest. *)
Definition merge_with_parent (old : list (string * json))
    (own : list (string * json)) (manifest : list (string * json))
  : outcome (list (string * json)) :=
  obind (get "OS" old) (fun os =>
  let manifest := ODict.set "OS" os manifest in
  obind (get "Base" old) (fun base =>
  let manifest := ODict.set "Base" base manifest in
  obind (get "Mirrors" old) (fun m1 =>
  obind (get "Mirrors" own) (fun m2 =>
  obind (concat m1 m2) (fun m =>
  obind (get_full_mirrors m) (fun mirrors =>
  let manifest := ODict.set "Mirrors" mirrors manifest in
  obind (get "Users" old) (fun u1 =>
  obind (get "Users" own) (fun u2 =>
  obind (copy u2) (fun u2 =>
  obind (deep_dict_update u1 u2 "replace") (fun users =>
  let manifest := ODict.set "Users" users manifest in
  obind (get "Groups" old) (fun g1 =>
  obind (get "Groups" own) (fun g2 =>
  obind (copy g2) (fun g2 =>
  obind (deep_dict_update g1 g2 "replace") (fun groups =>
  let manifest := ODict.set "Groups" groups manifest in
  obind (get "Memberships" old) (fun ms1 =>
  obind (get "Memberships" own) (fun ms2 =>
  obind (copy ms2) (fun ms2 =>
  obind (deep_dict_update ms1 ms2 "append") (fun memberships =>
  let manifest := ODict.set "Memberships" memberships manifest in
  obind (get "CopyTargets" old) (fun c1 =>
  obind (get "CopyTargets" own) (fun c2 =>
  obind (concat c1 c2) (fun c =>
  obind (get_full_cpt c) (fun copytargets =>
  let manifest := ODict.set "CopyTargets" copytargets manifest in
  obind (get "FilesystemCleanup" old) (fun fc1 =>
  obind (get "FilesystemCleanup" own) (fun fc2 =>
  obind (merge_paths fc1 fc2) (fun cleanup =>
  let manifest := ODict.set "FilesystemCleanup" cleanup manifest in
  obind (get "Mounts" old) (fun mo1 =>
  obind (get "Mounts" own) (fun mo2 =>
  obind (copy mo2) (fun mo2 =>
  obind (deep_dict_update mo1 mo2 "replace") (fun mounts =>
  let manifest := ODict.set "Mounts" mounts manifest in
  obind (get "FilesystemInclude" old) (fun fi1 =>
  obind (get "FilesystemInclude" own) (fun fi2 =>
  obind (merge_paths fi1 fi2) (fun include =>
  let manifest := ODict.set "FilesystemInclude" include manifest in
  obind (get "AssociatedFilesystems" old) (fun af1 =>
  obind (get "AssociatedFilesystems" own) (fun af2 =>
  obind (merge_paths af1 af2) (fun associated =>
  let manifest := ODict.set "AssociatedFilesystems" associated manifest in
  let manifest := ODict.set "DebianPackages" full_debian_manifest manifest in
  obind (get "PreInstalls" old) (fun pre1 =>
  obind (get "PreInstalls" own) (fun pre2 =>
  obind (deep_dict_update pre1 pre2 "replace") (fun pre =>
  let manifest := ODict.set "PreInstalls" pre manifest in
  obind (get "PostInstalls" old) (fun post1 =>
  obind (get "PostInstalls" own) (fun post2 =>
  obind (deep_dict_update post1 post2 "replace") (fun post =>
  Ok (ODict.set "PostInstalls" post manifest)
  ))))))))))))))))))))))))))))))))))))))))).

(** [LinuxBuildFS.convert_to_manifest()]. [own] is [self.parser.json_data],
    [old_mf] the manifest to start from: the parent layer's
    [json_manifest_file] when the base is a layer config, the manifest found
    inside a base image otherwise, [None] when there is neither. The result
    is the store with [json_manifest_file] written. *)
Definition convert_to_manifest (files : store) (own : list (string * json))
    (old_mf : option string) (json_manifest_file : string) : outcome store :=
  let manifest := own in
  obind (get "Mirrors" own) (fun m =>
  obind (get_full_mirrors m) (fun mirrors =>
  let manifest := ODict.set "Mirrors" mirrors manifest in
  obind (get "CopyTargets" own) (fun c =>
  obind (get_full_cpt c) (fun copytargets =>
  let manifest := ODict.set "CopyTargets" copytargets manifest in
  obind
    (match old_mf with
     | None => Ok manifest
     | Some old_mf =>
         if String.eqb old_mf "" then Ok manifest
         else obind (parse files old_mf) (fun old =>
                merge_with_parent old own manifest)
     end)
    (fun manifest => Ok (<[json_manifest_file := JDict manifest]> files)))))).

End ConvertToManifest.




(** [QNXFileParser.init_default()]. *)
Definition qnx_init_default (data : list (string * json))
  : list (string * json) :=
  fold_left (fun d '(k, v) => setdefault k v d)
    [("ImageSize", JStr (pretty QNX_DEFAULT_IMAGE_SIZE));
     ("ImageType", JStr "XFS"); ("BuildFileHeaderFiles", JList []);
     ("Output", JNull); ("PreInstalls", JDict []); ("CopyTargets", JList []);
     ("FSMountPointConfg", JNull); ("DigestMetadataConfig", JNull);
     ("PostInstalls", JDict []); ("OS", JNull);
     ("FilesystemType", JStr "standard"); ("Base", JNull);
     ("ImageSize", JStr "0"); ("FilesystemCleanup", JList [])]
    data.

(** [QNXFileParser(json_file)]. *)
Definition qnx_parse (files : store) (json_file : string)
  : outcome (list (string * json)) :=
  obind (load "QNXFileParser" files json_file) (fun document =>
  obind (document_fields json_file document) (fun data =>
  obind (qnx_validate json_file data)
    (fun _ => Ok (qnx_init_default data)))).

(** [QNXBuildFS.convert_to_manifest()]. [old_json_manifest] is the parent
    layer's [json_manifest_file] when the base is a layer config, and the
    manifest beside the base archive when the base is an archive. *)
Definition qnx_convert_to_manifest (files : store)
    (own : list (string * json)) (old_json_manifest : option string)
    (json_manifest_file : string) : outcome store :=
  obind
    (match old_json_manifest with
     | None => Ok own
     | Some old_mf =>
         if String.eqb old_mf "" then Ok own
         else
           obind (qnx_parse files old_mf) (fun old =>
           obind (get "CopyTargets" old) (fun l1 =>
           obind (get "CopyTargets" own) (fun l2 =>
           obind (concat l1 l2) (fun l =>
           let manifest := ODict.set "CopyTargets" l own in
           obind (get "Base" old) (fun base =>
           Ok (ODict.set "Base" base manifest))))))
     end)
    (fun manifest => Ok (<[json_manifest_file := JDict manifest]> files)).

End Manifest.

(** * Properties of the embedded code *)

(** ** Outcomes *)

Lemma got_ok {A} (default : A) (o : outcome A) :
  is_ok o = true -> o = Ok (got default o).
Proof. destruct o; [reflexivity | discriminate]. Qed.

(** ** Rounding to binary64 *)

Section FloatFacts.
Import PyFloat.
Local Open Scope Q_scope.

Lemma pow2_pos (e : Z) : 0 < 2 ^ e.
Proof. apply Qpower_0_lt. reflexivity. Qed.

Lemma pow2_add (a b : Z) : 2 ^ (a + b) == 2 ^ a * 2 ^ b.
Proof. apply Qpower_plus. discriminate. Qed.

Lemma pow2_le (a b : Z) : (a <= b)%Z -> 2 ^ a <= 2 ^ b.
Proof. intros. apply Qpower_le_compat_l; [assumption | discriminate]. Qed.

Lemma pow2_lt_inv (a b : Z) : 2 ^ a < 2 ^ b -> (a < b)%Z.
Proof. intros. apply (Qpower_lt_compat_l_inv 2); [assumption | reflexivity]. Qed.

Lemma pow2_inject (n : Z) : (0 <= n)%Z -> inject_Z (2 ^ n) == 2 ^ n.
Proof. intros. apply (Zpower_Qpower 2 n). assumption. Qed.

Lemma ilog2_spec (x : Q) : 0 < x -> 2 ^ ilog2 x <= x /\ x < 2 ^ (ilog2 x + 1).
Proof.
  intros Hx. unfold ilog2.
  set (a := Qnum x). set (b := Z.pos (Qden x)).
  assert (Ha : (0 < a)%Z).
  { unfold Qlt in Hx. simpl in Hx. unfold a. lia. }
  set (la := Z.log2 a). set (lb := Z.log2 b).
  assert (Hla : (2 ^ la <= a < 2 ^ (la + 1))%Z).
  { replace (la + 1)%Z with (Z.succ la) by lia. apply Z.log2_spec. assumption. }
  assert (Hlb : (2 ^ lb <= b < 2 ^ (lb + 1))%Z).
  { replace (lb + 1)%Z with (Z.succ lb) by lia. apply Z.log2_spec. unfold b. lia. }
  assert (Hla0 : (0 <= la)%Z) by apply Z.log2_nonneg.
  assert (Hlb0 : (0 <= lb)%Z) by apply Z.log2_nonneg.
  assert (Hxab : x * inject_Z b == inject_Z a).
  { unfold Qeq, a, b. destruct x as [n d]. simpl. lia. }
  assert (HA1 : 2 ^ la <= inject_Z a).
  { rewrite <- pow2_inject by lia. rewrite <- Zle_Qle. lia. }
  assert (HA2 : inject_Z a < 2 ^ (la + 1)).
  { rewrite <- pow2_inject by lia. rewrite <- Zlt_Qlt. lia. }
  assert (HB1 : 2 ^ lb <= inject_Z b).
  { rewrite <- pow2_inject by lia. rewrite <- Zle_Qle. lia. }
  assert (HB2 : inject_Z b < 2 ^ (lb + 1)).
  { rewrite <- pow2_inject by lia. rewrite <- Zlt_Qlt. lia. }
  assert (E1 : 2 ^ (la + 1) == 2 ^ (la - lb + 1) * 2 ^ lb).
  { rewrite <- pow2_add. apply Qpower_comp; [reflexivity | lia]. }
  assert (E2 : 2 ^ la == 2 ^ (la - lb - 1) * 2 ^ (lb + 1)).
  { rewrite <- pow2_add. apply Qpower_comp; [reflexivity | lia]. }
  assert (E3 : 2 ^ (la - lb - 1 + 1) == 2 ^ (la - lb)).
  { apply Qpower_comp; [reflexivity | lia]. }
  pose proof (pow2_pos (la - lb + 1)) as P1.
  pose proof (pow2_pos lb) as P2.
  pose proof (pow2_pos (la - lb - 1)) as P3.
  pose proof (pow2_pos (lb + 1)) as P4.
  assert (Hup : x < 2 ^ (la - lb + 1)).
  { revert E1 HA2 HB1 Hxab P1 P2 Hx.
    generalize (2 ^ (la - lb + 1)) (2 ^ lb) (2 ^ (la + 1)) (inject_Z a) (inject_Z b).
    intros p1 p2 p3 A B. intros. nra. }
  assert (Hlo : 2 ^ (la - lb - 1) <= x).
  { revert E2 HA1 HB2 Hxab P3 P4 Hx.
    generalize (2 ^ (la - lb - 1)) (2 ^ (lb + 1)) (2 ^ la) (inject_Z a) (inject_Z b).
    intros p1 p2 p3 A B. intros. nra. }
  destruct (Qle_bool (2 ^ (la - lb)) x) eqn:Hb.
  - apply Qle_bool_iff in Hb. split; assumption.
  - assert (Hlt : x < 2 ^ (la - lb)).
    { apply Qnot_le_lt. intro H. apply Qle_bool_iff in H. congruence. }
    split; [assumption|]. rewrite E3. assumption.
Qed.

Lemma rhe_cases (y : Q) :
  let q := Qfloor y in
  (round_half_even y = q /\ y - inject_Z q <= 1 # 2)
  \/ (round_half_even y = (q + 1)%Z /\ 1 # 2 <= y - inject_Z q).
Proof.
  intros q. unfold round_half_even. fold q.
  destruct (Qcompare_spec (y - inject_Z q) (1 # 2)) as [H|H|H].
  - destruct (Z.even q).
    + left. split; [reflexivity | rewrite H; apply Qle_refl].
    + right. split; [reflexivity | rewrite H; apply Qle_refl].
  - left. split; [reflexivity | apply Qlt_le_weak; assumption].
  - right. split; [reflexivity | apply Qlt_le_weak; assumption].
Qed.

Lemma rhe_bounds (y : Q) :
  (Qfloor y <= round_half_even y <= Qfloor y + 1)%Z.
Proof. destruct (rhe_cases y) as [[-> _]|[-> _]]; lia. Qed.

Lemma rhe_mono (y1 y2 : Q) :
  y1 <= y2 -> (round_half_even y1 <= round_half_even y2)%Z.
Proof.
  intros Hle.
  pose proof (Qfloor_resp_le _ _ Hle) as Hq.
  pose proof (rhe_bounds y1) as B1. pose proof (rhe_bounds y2) as B2.
  destruct (Z.eq_dec (Qfloor y1) (Qfloor y2)) as [E|NE]; [|lia].
  unfold round_half_even. rewrite <- E.
  set (q := Qfloor y1).
  destruct (Qcompare_spec (y1 - inject_Z q) (1 # 2)) as [H1|H1|H1];
    destruct (Qcompare_spec (y2 - inject_Z q) (1 # 2)) as [H2|H2|H2];
    try (destruct (Z.even q)); try lia; exfalso; lra.
Qed.

Lemma rhe_inject (n : Z) : round_half_even (inject_Z n) = n.
Proof.
  unfold round_half_even. rewrite Qfloor_Z.
  destruct (Qcompare_spec (inject_Z n - inject_Z n) (1 # 2)) as [H|H|H];
    try reflexivity; exfalso; lra.
Qed.

Lemma rhe_ge (n : Z) (y : Q) : inject_Z n <= y -> (n <= round_half_even y)%Z.
Proof. intros H. rewrite <- (rhe_inject n). apply rhe_mono. assumption. Qed.

Lemma rhe_le (n : Z) (y : Q) : y <= inject_Z n -> (round_half_even y <= n)%Z.
Proof. intros H. rewrite <- (rhe_inject n). apply rhe_mono. assumption. Qed.

Lemma ilog2_mono (x y : Q) : 0 < x -> x <= y -> (ilog2 x <= ilog2 y)%Z.
Proof.
  intros Hx Hxy.
  assert (Hy : 0 < y) by lra.
  destruct (ilog2_spec x Hx) as [L1 _]. destruct (ilog2_spec y Hy) as [_ U2].
  assert (H : 2 ^ ilog2 x < 2 ^ (ilog2 y + 1)) by lra.
  apply pow2_lt_inv in H. lia.
Qed.

Lemma ulp_exp_mono (x y : Q) : 0 < x -> x <= y -> (ulp_exp x <= ulp_exp y)%Z.
Proof. intros Hx Hxy. unfold ulp_exp. pose proof (ilog2_mono x y Hx Hxy). lia. Qed.

Lemma scaled_lt (x : Q) : 0 < x -> x / 2 ^ ulp_exp x < inject_Z (2 ^ 53).
Proof.
  intros Hx. destruct (ilog2_spec x Hx) as [_ U].
  apply Qlt_shift_div_r; [apply pow2_pos|].
  rewrite (pow2_inject 53) by lia. rewrite <- pow2_add.
  eapply Qlt_le_trans; [exact U|]. apply pow2_le. unfold ulp_exp. lia.
Qed.

Lemma scaled_ge (x : Q) :
  0 < x -> (-1074 < ulp_exp x)%Z -> inject_Z (2 ^ 52) <= x / 2 ^ ulp_exp x.
Proof.
  intros Hx He. destruct (ilog2_spec x Hx) as [L _].
  apply Qle_shift_div_l; [apply pow2_pos|].
  rewrite (pow2_inject 52) by lia. rewrite <- pow2_add.
  eapply Qle_trans; [|exact L]. apply pow2_le. unfold ulp_exp in *. lia.
Qed.

Lemma round_pos_nonneg (x : Q) : 0 < x -> 0 <= round_pos x.
Proof.
  intros Hx. unfold round_pos.
  apply Qmult_le_0_compat; [|apply Qlt_le_weak, pow2_pos].
  change 0 with (inject_Z 0). rewrite <- Zle_Qle. apply rhe_ge.
  apply Qle_shift_div_l; [apply pow2_pos|].
  generalize (2 ^ ulp_exp x). intro p. change (inject_Z 0) with 0. lra.
Qed.

Lemma round_pos_mono (x y : Q) :
  0 < x -> x <= y -> round_pos x <= round_pos y.
Proof.
  intros Hx Hxy. assert (Hy : 0 < y) by lra.
  pose proof (ulp_exp_mono x y Hx Hxy) as He.
  unfold round_pos.
  destruct (Z.eq_dec (ulp_exp x) (ulp_exp y)) as [E|NE].
  - rewrite <- E. apply Qmult_le_compat_r; [|apply Qlt_le_weak, pow2_pos].
    rewrite <- Zle_Qle. apply rhe_mono.
    apply Qmult_le_compat_r; [assumption|].
    apply Qlt_le_weak, Qinv_lt_0_compat, pow2_pos.
  - assert (Hlt : (ulp_exp x < ulp_exp y)%Z) by lia.
    assert (Hmin : (-1074 <= ulp_exp x)%Z) by (unfold ulp_exp; lia).
    apply Qle_trans with (2 ^ (ulp_exp x + 53)).
    + rewrite Z.add_comm, pow2_add.
      apply Qmult_le_compat_r; [|apply Qlt_le_weak, pow2_pos].
      rewrite <- (pow2_inject 53) by lia. rewrite <- Zle_Qle. apply rhe_le.
      apply Qlt_le_weak, scaled_lt. assumption.
    + apply Qle_trans with (2 ^ (ulp_exp y + 52)); [apply pow2_le; lia|].
      rewrite Z.add_comm, pow2_add.
      apply Qmult_le_compat_r; [|apply Qlt_le_weak, pow2_pos].
      rewrite <- (pow2_inject 52) by lia. rewrite <- Zle_Qle. apply rhe_ge.
      apply scaled_ge; [assumption | lia].
Qed.

Lemma round_double_nonneg (x : Q) : 0 <= x -> 0 <= round_double x.
Proof.
  intros Hx. unfold round_double.
  destruct (Qcompare_spec x 0) as [H|H|H].
  - apply Qle_refl.
  - exfalso; lra.
  - apply round_pos_nonneg. assumption.
Qed.

Lemma round_double_mono (x y : Q) :
  0 <= x -> x <= y -> round_double x <= round_double y.
Proof.
  intros Hx Hxy. unfold round_double at 1.
  destruct (Qcompare_spec x 0) as [H|H|H].
  - apply round_double_nonneg. lra.
  - exfalso; lra.
  - unfold round_double. destruct (Qcompare_spec y 0) as [H'|H'|H'].
    + exfalso; lra.
    + exfalso; lra.
    + apply round_pos_mono; assumption.
Qed.

End FloatFacts.

(** ** Insertion-ordered dictionaries *)

Section ODictFacts.
Context {V : Type}.
Implicit Types (d : list (string * V)) (k : string) (v : V).

Lemma odict_get_set_eq k v d : ODict.get k (ODict.set k v d) = Some v.
Proof.
  induction d as [|[k' v'] d IH]; simpl.
  - rewrite String.eqb_refl. reflexivity.
  - destruct (String.eqb k' k) eqn:E; simpl.
    + rewrite String.eqb_refl. reflexivity.
    + rewrite E. exact IH.
Qed.

Lemma odict_get_set_ne k k' v d :
  k <> k' -> ODict.get k' (ODict.set k v d) = ODict.get k' d.
Proof.
  intros Hne. induction d as [|[k0 v0] d IH]; simpl.
  - destruct (String.eqb_spec k k'); [contradiction | reflexivity].
  - destruct (String.eqb_spec k0 k) as [->|Hk]; simpl.
    + destruct (String.eqb_spec k k'); [contradiction | reflexivity].
    + destruct (String.eqb_spec k0 k'); [reflexivity | exact IH].
Qed.

Lemma odict_set_set k v1 v2 d :
  ODict.set k v2 (ODict.set k v1 d) = ODict.set k v2 d.
Proof.
  induction d as [|[k' v'] d IH]; simpl.
  - rewrite String.eqb_refl. reflexivity.
  - destruct (String.eqb k' k) eqn:E; simpl.
    + rewrite String.eqb_refl. reflexivity.
    + rewrite E, IH. reflexivity.
Qed.

Lemma odict_mem_get k d :
  ODict.mem k d = true <-> exists v, ODict.get k d = Some v.
Proof.
  unfold ODict.mem. destruct (ODict.get k d) as [v|].
  - split; [eauto | reflexivity].
  - split; [discriminate | intros [v Hv]; discriminate].
Qed.

Lemma odict_mem_set k k' v d :
  ODict.mem k' (ODict.set k v d) = String.eqb k k' || ODict.mem k' d.
Proof.
  unfold ODict.mem. destruct (String.eqb_spec k k') as [->|Hne].
  - rewrite odict_get_set_eq. reflexivity.
  - rewrite odict_get_set_ne by assumption. reflexivity.
Qed.

Lemma odict_keys_set_mem k v d :
  ODict.mem k d = true -> ODict.keys (ODict.set k v d) = ODict.keys d.
Proof.
  unfold ODict.mem, ODict.keys.
  induction d as [|[k' v'] d IH]; simpl; [discriminate|].
  destruct (String.eqb_spec k' k) as [->|Hne]; simpl.
  - reflexivity.
  - intros H. rewrite IH by assumption. reflexivity.
Qed.

Lemma odict_keys_set_new k v d :
  ODict.mem k d = false -> ODict.keys (ODict.set k v d) = ODict.keys d ++ [k].
Proof.
  unfold ODict.mem, ODict.keys.
  induction d as [|[k' v'] d IH]; simpl; [reflexivity|].
  destruct (String.eqb_spec k' k) as [->|Hne]; simpl.
  - discriminate.
  - intros H. rewrite IH by assumption. reflexivity.
Qed.

Lemma odict_get_in_keys k v d : ODict.get k d = Some v -> In k (ODict.keys d).
Proof.
  unfold ODict.keys. induction d as [|[k' v'] d IH]; simpl; [discriminate|].
  destruct (String.eqb_spec k' k) as [->|Hne]; [auto|].
  intros H. right. apply IH. exact H.
Qed.

Lemma odict_in_keys_get k d :
  In k (ODict.keys d) -> exists v, ODict.get k d = Some v.
Proof.
  unfold ODict.keys. induction d as [|[k' v'] d IH]; simpl; [contradiction|].
  destruct (String.eqb_spec k' k) as [->|Hne]; [eauto|].
  intros [H|H]; [contradiction | apply IH; exact H].
Qed.

End ODictFacts.

(** ** The Capacity Planner *)

(** Lookups in a store built by a sequence of assignments. *)
Ltac solve_lookup :=
  repeat first
    [ rewrite lookup_insert_eq
    | rewrite lookup_insert_ne by done ];
  first [ reflexivity | apply lookup_empty ].

Section CapacityFacts.
Import PyFloat ExtImage.

Lemma checked_mono (x y ry : Q) :
  (0 <= x)%Q -> (x <= y)%Q -> checked y = Ok ry ->
  exists rx, checked x = Ok rx /\ (0 <= rx)%Q /\ (rx <= ry)%Q.
Proof.
  intros Hx Hxy. unfold checked.
  pose proof (round_double_nonneg x Hx) as Hrx.
  pose proof (round_double_mono x y Hx Hxy) as Hm.
  destruct (finite (round_double y)) eqn:Fy; [|discriminate].
  intros [= <-]. exists (round_double x).
  assert (Fx : finite (round_double x) = true).
  { unfold finite in *. apply negb_true_iff in Fy. apply negb_true_iff.
    destruct (Qle_bool (2 ^ 1024) (Qabs (round_double x))) eqn:B; [|reflexivity].
    apply Qle_bool_iff in B. rewrite Qabs_pos in B by assumption.
    assert (B' : Qle_bool (2 ^ 1024) (Qabs (round_double y)) = true).
    { apply Qle_bool_iff. rewrite Qabs_pos by lra. lra. }
    congruence. }
  rewrite Fx. auto.
Qed.

Lemma checked_nonneg (x rx : Q) :
  (0 <= x)%Q -> checked x = Ok rx -> (0 <= rx)%Q.
Proof.
  intros Hx. unfold checked. destruct (finite _); [|discriminate].
  intros [= <-]. apply round_double_nonneg. assumption.
Qed.

Lemma ceil_mono (x y : Q) : (x <= y)%Q -> ceil x <= ceil y.
Proof. apply Qceiling_resp_le. Qed.

Lemma ceil_nonneg (x : Q) : (0 <= x)%Q -> 0 <= ceil x.
Proof.
  intros H. unfold ceil. rewrite <- (Qceiling_Z 0).
  apply Qceiling_resp_le. exact H.
Qed.

Lemma required_blocks_mono (bs : Z) (reserve : Q) (journal : Z) (ratio : Q)
    (isz t1 t2 n2 : Z) :
  0 < bs -> (0 <= reserve)%Q -> 0 <= journal -> (0 <= ratio)%Q -> 0 <= isz ->
  0 <= t1 -> t1 <= t2 ->
  required_blocks bs reserve journal ratio isz t2 = Ok n2 ->
  exists n1,
    required_blocks bs reserve journal ratio isz t1 = Ok n1 /\ n1 <= n2.
Proof.
  intros Hbs Hr Hj Hratio Hisz Ht1 Ht12. unfold required_blocks.
  destruct (of_int 1) as [one|] eqn:E1; cbn [obind]; [|discriminate].
  assert (Hone : (0 <= one)%Q).
  { apply (checked_nonneg (inject_Z 1)); [|exact E1]. unfold Qle; simpl; lia. }
  destruct (add one reserve) as [factor|] eqn:E2; cbn [obind]; [|discriminate].
  assert (Hfactor : (0 <= factor)%Q).
  { apply (checked_nonneg (one + reserve)); [lra | exact E2]. }
  destruct (of_int t2) as [b2|] eqn:E3; cbn [obind]; [|discriminate].
  destruct (checked_mono (inject_Z t1) (inject_Z t2) b2) as (b1 & Eb1 & Hb1 & Hb12);
    [rewrite <- (Zle_Qle 0); lia | rewrite <- Zle_Qle; lia | exact E3 |].
  change (of_int t1) with (checked (inject_Z t1)). rewrite Eb1. cbn [obind].
  destruct (mul factor b2) as [p2|] eqn:E4; cbn [obind]; [|discriminate].
  destruct (checked_mono (factor * b1) (factor * b2) p2) as (p1 & Ep1 & Hp1 & Hp12);
    [nra | nra | exact E4 |].
  change (mul factor b1) with (checked (factor * b1)). rewrite Ep1.
  cbn [obind].
  pose proof (ceil_mono _ _ Hp12) as Hc. pose proof (ceil_nonneg _ Hp1) as Hc0.
  set (tb1 := ceil p1 + 2 * journal) in *. set (tb2 := ceil p2 + 2 * journal) in *.
  assert (Htb : 0 <= tb1 <= tb2) by (unfold tb1, tb2; lia).
  destruct (of_int (tb2 * bs)) as [y2|] eqn:E5; cbn [obind]; [|discriminate].
  destruct (checked_mono (inject_Z (tb1 * bs)) (inject_Z (tb2 * bs)) y2)
    as (y1 & Ey1 & Hy1 & Hy12);
    [rewrite <- (Zle_Qle 0); nia | rewrite <- Zle_Qle; nia | exact E5 |].
  change (of_int (tb1 * bs)) with (checked (inject_Z (tb1 * bs))).
  rewrite Ey1. cbn [obind].
  destruct (mul y2 ratio) as [i2|] eqn:E6; cbn [obind]; [|discriminate].
  destruct (checked_mono (y1 * ratio) (y2 * ratio) i2) as (i1 & Ei1 & Hi1 & Hi12);
    [nra | nra | exact E6 |].
  change (mul y1 ratio) with (checked (y1 * ratio)). rewrite Ei1.
  cbn [obind].
  pose proof (ceil_mono _ _ Hi12) as Hci. pose proof (ceil_nonneg _ Hi1) as Hci0.
  unfold truediv. destruct (Z.eqb_spec bs 0) as [->|_]; [lia|].
  destruct (checked (inject_Z (ceil i2 * isz) / inject_Z bs)) as [k2|] eqn:E7;
    cbn [obind]; [|discriminate].
  assert (Hbsq : (0 < inject_Z bs)%Q) by (rewrite <- (Zlt_Qlt 0); lia).
  assert (Hinv : (0 < / inject_Z bs)%Q) by (apply Qinv_lt_0_compat; assumption).
  assert (Hn1 : (0 <= inject_Z (ceil i1 * isz))%Q) by (rewrite <- (Zle_Qle 0); nia).
  assert (Hn12 : (inject_Z (ceil i1 * isz) <= inject_Z (ceil i2 * isz))%Q)
    by (rewrite <- Zle_Qle; nia).
  destruct (checked_mono (inject_Z (ceil i1 * isz) / inject_Z bs)
              (inject_Z (ceil i2 * isz) / inject_Z bs) k2)
    as (k1 & Ek1 & Hk1 & Hk12); [| | exact E7 |].
  { unfold Qdiv. nra. }
  { unfold Qdiv. nra. }
  rewrite Ek1. cbn [obind].
  intros [= <-]. eexists; split; [reflexivity|].
  pose proof (ceil_mono _ _ Hk12). lia.
Qed.


(** One step of code in the monad of attribute stores. *)
Lemma bind_setattr {B} (n : string) (v : pyval) (k : unit -> Py B) (s : attrs) :
  bind (setattr n v) k s = k tt (<[n := v]> s).
Proof. reflexivity. Qed.

Lemma bind_get_int {B} (n : string) (z : Z) (k : Z -> Py B) (s : attrs) :
  s !! n = Some (VInt z) -> bind (get_int n) k s = k z s.
Proof. intros H. unfold bind, get_int, getattr, bind, lift. rewrite H. reflexivity. Qed.

Lemma bind_get_float {B} (n : string) (x : Q) (k : Q -> Py B) (s : attrs) :
  s !! n = Some (VFloat x) -> bind (get_float n) k s = k x s.
Proof. intros H. unfold bind, get_float, getattr, bind, lift. rewrite H. reflexivity. Qed.

Lemma bind_get_int_missing {B} (n : string) (k : Z -> Py B) (s : attrs) :
  s !! n = None -> bind (get_int n) k s = Raise (AttributeError n).
Proof. intros H. unfold bind, get_int, getattr, bind. rewrite H. reflexivity. Qed.

Lemma bind_lift {A B} (o : outcome A) (k : A -> Py B) (s : attrs) :
  bind (lift o) k s = match o with Ok a => k a s | Raise e => Raise e end.
Proof. destruct o; reflexivity. Qed.

Lemma setter_run (s : attrs) (v bs : Z) (r : Q) (j : Z) (ratio : Q)
    (isz fsz : Z) :
  s !! "reserve" = Some (VFloat r) ->
  s !! "journal_blocks" = Some (VInt j) ->
  s !! "block_size" = Some (VInt bs) ->
  s !! "inode_byte_ratio" = Some (VFloat ratio) ->
  s !! "inode_size" = Some (VInt isz) ->
  s !! "final_size" = Some (VInt fsz) ->
  tree_blocks_setter v s =
    match required_blocks bs r j ratio isz v with
    | Raise e => Raise e
    | Ok total =>
        if fsz <? total * bs then
          match s !! "total_blocks" with
          | None => Raise (AttributeError "total_blocks")
          | Some (VInt own) =>
              Raise (SystemExit
                       (capacity_message (v * bs) ((own - v) * bs) fsz))
          | Some _ => Raise (TypeError "int expected")
          end
        else
          Ok (tt, <["noblks" := VInt total]>
                    (<["_ExtImage__tree_blocks" := VInt v]> s))
    end.
Proof.
  intros Hr Hj Hbs Hratio Hisz Hfsz.
  unfold tree_blocks_setter, required_blocks.
  rewrite bind_setattr.
  set (s1 := <["_ExtImage__tree_blocks" := VInt v]> s).
  assert (Ht1 : s1 !! "_ExtImage__tree_blocks" = Some (VInt v))
    by apply lookup_insert_eq.
  assert (Hr1 : s1 !! "reserve" = Some (VFloat r))
    by (unfold s1; rewrite lookup_insert_ne by done; exact Hr).
  assert (Hj1 : s1 !! "journal_blocks" = Some (VInt j))
    by (unfold s1; rewrite lookup_insert_ne by done; exact Hj).
  assert (Hbs1 : s1 !! "block_size" = Some (VInt bs))
    by (unfold s1; rewrite lookup_insert_ne by done; exact Hbs).
  assert (Hratio1 : s1 !! "inode_byte_ratio" = Some (VFloat ratio))
    by (unfold s1; rewrite lookup_insert_ne by done; exact Hratio).
  assert (Hisz1 : s1 !! "inode_size" = Some (VInt isz))
    by (unfold s1; rewrite lookup_insert_ne by done; exact Hisz).
  assert (Hfsz1 : s1 !! "final_size" = Some (VInt fsz))
    by (unfold s1; rewrite lookup_insert_ne by done; exact Hfsz).
  assert (Htot1 : s1 !! "total_blocks" = s !! "total_blocks")
    by (unfold s1; rewrite lookup_insert_ne by done; reflexivity).
  rewrite (bind_get_int _ _ _ _ Ht1), (bind_get_float _ _ _ _ Hr1).
  rewrite bind_lift. destruct (of_int 1) as [one|]; cbn [obind]; [|reflexivity].
  rewrite bind_lift. destruct (add one r) as [factor|]; cbn [obind]; [|reflexivity].
  rewrite bind_lift. destruct (of_int v) as [bf|]; cbn [obind]; [|reflexivity].
  rewrite bind_lift. destruct (mul factor bf) as [p|]; cbn [obind]; [|reflexivity].
  rewrite (bind_get_int _ _ _ _ Hj1), (bind_get_int _ _ _ _ Hbs1).
  rewrite (bind_get_float _ _ _ _ Hratio1).
  rewrite bind_lift.
  destruct (of_int ((ceil p + 2 * j) * bs)) as [yf|]; cbn [obind]; [|reflexivity].
  rewrite bind_lift. destruct (mul yf ratio) as [inf|]; cbn [obind]; [|reflexivity].
  rewrite (bind_get_int _ _ _ _ Hisz1), (bind_get_int _ _ _ _ Hbs1).
  rewrite bind_lift.
  destruct (truediv (ceil inf * isz) bs) as [kf|]; cbn [obind]; [|reflexivity].
  rewrite (bind_get_int _ _ _ _ Hbs1), (bind_get_int _ _ _ _ Hfsz1).
  destruct (fsz <? (ceil p + 2 * j + ceil kf) * bs) eqn:Hcmp.
  - unfold bind at 1.
    rewrite (bind_get_int _ _ _ _ Ht1), (bind_get_int _ _ _ _ Hbs1).
    destruct (s !! "total_blocks") as [[| own | |]|].
    + unfold bind, get_int, getattr, bind, lift. rewrite Htot1. reflexivity.
    + rewrite (bind_get_int _ _ _ _ Htot1).
      rewrite (bind_get_int _ _ _ _ Ht1), (bind_get_int _ _ _ _ Hbs1).
      rewrite (bind_get_int _ _ _ _ Hfsz1). reflexivity.
    + unfold bind, get_int, getattr, bind, lift. rewrite Htot1. reflexivity.
    + unfold bind, get_int, getattr, bind, lift. rewrite Htot1. reflexivity.
    + rewrite (bind_get_int_missing _ _ _ Htot1). reflexivity.
  - reflexivity.
Qed.



Lemma new_planned (image_path : string) (tree_blocks final_size : Z)
    (self : attrs) :
  new image_path tree_blocks final_size = Ok self ->
  exists c ratio,
    get_ext_category_data final_size = Some c
    /\ truediv 1 (byte_inode_ratio c) = Ok ratio
    /\ planned self c final_size ratio.
Proof.
  unfold new, init.
  rewrite !bind_setattr.
  erewrite bind_get_int by solve_lookup.
  rewrite bind_lift.
  destruct (get_ext_category_data final_size) as [c|]; [|discriminate].
  rewrite !bind_setattr.
  erewrite !bind_get_int by solve_lookup.
  rewrite bind_lift.
  destruct (truediv (journal_blocks c * block_size c) (1024 * 1024))
    as [jf|]; [|discriminate].
  rewrite !bind_setattr.
  erewrite bind_get_int by solve_lookup.
  rewrite bind_lift.
  destruct (truediv 1 (byte_inode_ratio c)) as [ratio|] eqn:Eratio;
    [|discriminate].
  rewrite !bind_setattr.
  unfold bind at 1.
  erewrite setter_run by solve_lookup.
  destruct (required_blocks _ _ _ _ _ _) as [total|]; [|discriminate].
  destruct (final_size <? total * block_size c).
  { rewrite !lookup_insert_ne by done. rewrite lookup_empty. discriminate. }
  erewrite bind_get_int by solve_lookup.
  unfold Image_init. rewrite !bind_setattr. unfold setattr.
  intros [= <-]. exists c, ratio.
  split; [reflexivity|]. split; [exact Eratio|].
  unfold planned. repeat split; solve_lookup.
Qed.

End CapacityFacts.

(** *** The table of categories *)

Section CapacityTable.
Import PyFloat ExtImage.

Lemma find_category_find (size : Z) (d : list (Z * category_data)) :
  find_category size d = List.find (in_range size) (map snd d).
Proof.
  induction d as [|[k c] d IH]; [reflexivity|].
  simpl. destruct (in_range size c); [reflexivity | exact IH].
Qed.

Lemma in_range_iff (size : Z) (c : category_data) :
  in_range size c = true <->
  min_size c <= size
  /\ size <= (if max_size c >? 0 then max_size c else sys_maxsize).
Proof.
  unfold in_range. rewrite andb_true_iff, Z.geb_leb, !Z.leb_le. reflexivity.
Qed.

Lemma chained_below (size lo : Z) (cats : list category_data) :
  chained lo cats = true -> size < lo ->
  List.find (in_range size) cats = None
  /\ List.filter (in_range size) cats = [].
Proof.
  revert lo. induction cats as [|c rest IH]; intros lo Hc Hlt;
    [discriminate|].
  simpl in Hc. apply andb_true_iff in Hc as [Hmin Hrest].
  apply Z.eqb_eq in Hmin.
  assert (Hout : in_range size c = false).
  { apply not_true_iff_false. rewrite in_range_iff. lia. }
  simpl. rewrite Hout.
  destruct rest as [|c' rest']; [split; reflexivity|].
  rewrite !andb_true_iff in Hrest. destruct Hrest as [[[H0 Hlo] Hmax] Hch].
  apply Z.ltb_lt in H0. apply Z.leb_le in Hlo.
  apply (IH (max_size c + 1)); [exact Hch | lia].
Qed.

Lemma chained_above (size lo : Z) (cats : list category_data) :
  chained lo cats = true -> sys_maxsize < size ->
  List.find (in_range size) cats = None.
Proof.
  revert lo. induction cats as [|c rest IH]; intros lo Hc Hlt;
    [discriminate|].
  simpl in Hc. apply andb_true_iff in Hc as [Hmin Hrest].
  assert (Hout : in_range size c = false).
  { apply not_true_iff_false. rewrite in_range_iff.
    destruct rest as [|c' rest'].
    - rewrite andb_true_iff, !Z.leb_le in Hrest.
      destruct (Z.gtb_spec (max_size c) 0); lia.
    - rewrite !andb_true_iff, !Z.ltb_lt in Hrest.
      destruct (Z.gtb_spec (max_size c) 0); lia. }
  simpl. rewrite Hout.
  destruct rest as [|c' rest']; [reflexivity|].
  rewrite !andb_true_iff in Hrest. destruct Hrest as [_ Hch].
  apply (IH _ Hch Hlt).
Qed.

Lemma chained_unique (size lo : Z) (cats : list category_data) :
  chained lo cats = true -> lo <= size <= sys_maxsize ->
  exists c,
    List.find (in_range size) cats = Some c
    /\ List.filter (in_range size) cats = [c].
Proof.
  revert lo. induction cats as [|c rest IH]; intros lo Hc Hsize;
    [discriminate|].
  simpl in Hc. apply andb_true_iff in Hc as [Hmin Hrest].
  apply Z.eqb_eq in Hmin.
  destruct rest as [|c' rest'].
  - rewrite andb_true_iff, !Z.leb_le in Hrest.
    assert (Hin : in_range size c = true).
    { rewrite in_range_iff. destruct (Z.gtb_spec (max_size c) 0); lia. }
    exists c. simpl. rewrite Hin. split; reflexivity.
  - rewrite !andb_true_iff in Hrest. destruct Hrest as [[[H0 Hlo] Hmax] Hch].
    apply Z.ltb_lt in H0. apply Z.leb_le in Hlo. apply Z.ltb_lt in Hmax.
    set (r := c' :: rest') in *.
    destruct (Z_le_gt_dec size (max_size c)) as [Hle|Hgt].
    + assert (Hin : in_range size c = true).
      { rewrite in_range_iff. destruct (Z.gtb_spec (max_size c) 0); lia. }
      destruct (chained_below size _ _ Hch) as [_ Hnone]; [lia|].
      exists c. cbn [List.find List.filter]. rewrite Hin, Hnone.
      split; reflexivity.
    + assert (Hout : in_range size c = false).
      { apply not_true_iff_false. rewrite in_range_iff.
        destruct (Z.gtb_spec (max_size c) 0); lia. }
      destruct (IH _ Hch) as (c0 & Hfind & Hfilter); [lia|].
      exists c0. cbn [List.find List.filter]. rewrite Hout.
      split; assumption.
Qed.

Lemma rows_positive (c : category_data) :
  In c categories ->
  0 < block_size c /\ 0 <= journal_blocks c
  /\ 0 < byte_inode_ratio c /\ 0 <= inode_size c.
Proof.
  unfold categories.
  let l := eval vm_compute in (map snd (get_category_dict EXT_DATA)) in
  change (map snd (get_category_dict EXT_DATA)) with l.
  intros Hin. simpl in Hin.
  repeat destruct Hin as [<-|Hin]; try (cbn; lia).
Qed.

Lemma chained_min_ge (lo : Z) (cats : list category_data) (c : category_data) :
  chained lo cats = true -> In c cats -> lo <= min_size c.
Proof.
  revert lo. induction cats as [|c0 rest IH]; intros lo Hc Hin;
    [destruct Hin|].
  simpl in Hc. apply andb_true_iff in Hc as [Hmin Hrest].
  apply Z.eqb_eq in Hmin.
  destruct Hin as [<-|Hin]; [lia|].
  destruct rest as [|c' rest']; [destruct Hin|].
  rewrite !andb_true_iff in Hrest. destruct Hrest as [[[H0 Hlo] _] Hch].
  apply Z.leb_le in Hlo.
  specialize (IH _ Hch Hin). lia.
Qed.

Lemma chained_boundary (lo : Z) (cats : list category_data)
    (c : category_data) :
  chained lo cats = true -> In c cats ->
  List.find (in_range (min_size c)) cats = Some c.
Proof.
  revert lo. induction cats as [|c0 rest IH]; intros lo Hc Hin;
    [destruct Hin|].
  pose proof Hc as Hc0.
  simpl in Hc. apply andb_true_iff in Hc as [Hmin Hrest].
  apply Z.eqb_eq in Hmin.
  destruct rest as [|c' rest'].
  - destruct Hin as [<-|[]].
    rewrite andb_true_iff, !Z.leb_le in Hrest.
    assert (Hin : in_range (min_size c0) c0 = true).
    { rewrite in_range_iff. destruct (Z.gtb_spec (max_size c0) 0); lia. }
    simpl. rewrite Hin. reflexivity.
  - rewrite !andb_true_iff in Hrest. destruct Hrest as [[[H0 Hlo] Hmax] Hch].
    apply Z.ltb_lt in H0. apply Z.leb_le in Hlo.
    set (r := c' :: rest') in *.
    destruct Hin as [<-|Hin].
    + assert (Hin : in_range (min_size c0) c0 = true).
      { rewrite in_range_iff. destruct (Z.gtb_spec (max_size c0) 0); lia. }
      cbn [List.find]. rewrite Hin. reflexivity.
    + pose proof (chained_min_ge _ _ _ Hch Hin) as Hge.
      assert (Hout : in_range (min_size c) c0 = false).
      { apply not_true_iff_false. rewrite in_range_iff.
        destruct (Z.gtb_spec (max_size c0) 0); lia. }
      cbn [List.find]. rewrite Hout. apply (IH _ Hch Hin).
Qed.
Lemma table_chained : chained 65536 categories = true.
Proof. vm_compute. reflexivity. Qed.

Lemma init_without_category (image_path : string) (tree_blocks size : Z)
    (input_stream fs_type : string) (reserve : Q) :
  get_ext_category_data size = None ->
  init image_path tree_blocks size input_stream fs_type reserve ∅
  = Raise (TypeError "'NoneType' object is not subscriptable").
Proof.
  intros H. unfold init. rewrite !bind_setattr.
  erewrite bind_get_int by solve_lookup.
  rewrite bind_lift, H. reflexivity.
Qed.


(** C10 (as stated, refuted): a final size of [2^63] bytes is at least 65536,
    and no row of the table matches it: the last row's missing upper bound is
    [sys.maxsize], not infinity. *)
Lemma category_selection_counterexample :
  65536 <= 2 ^ 63
  /\ get_ext_category_data (2 ^ 63) = None
  /\ List.filter (in_range (2 ^ 63)) categories = [].
Proof. split; [by vm_compute|]. split; vm_compute; reflexivity. Qed.

(** C10 (amended): for every final size from 65536 to [sys.maxsize] exactly
    one row of the table matches and [get_ext_category_data] returns it; for
    every final size below 65536 or above [sys.maxsize] it returns [None],
    and [ExtImage.__init__] then fails with the [TypeError] of subscripting
    [None], not with a named capacity error. *)
Theorem category_selection_partial (size : Z) :
  (65536 <= size <= sys_maxsize ->
   exists c,
     get_ext_category_data size = Some c
     /\ List.filter (in_range size) categories = [c])
  /\ (size < 65536 \/ sys_maxsize < size ->
      get_ext_category_data size = None
      /\ forall image_path tree_blocks input_stream fs_type reserve,
          init image_path tree_blocks size input_stream fs_type reserve ∅
          = Raise (TypeError "'NoneType' object is not subscriptable")).
Proof.
  unfold get_ext_category_data. rewrite find_category_find.
  fold categories. split.
  - intros H. apply (chained_unique size 65536); [apply table_chained | exact H].
  - intros H.
    assert (Hnone : List.find (in_range size) categories = None).
    { destruct H as [H|H].
      - apply (chained_below size 65536); [apply table_chained | exact H].
      - apply (chained_above size 65536); [apply table_chained | exact H]. }
    split; [exact Hnone|]. intros.
    apply init_without_category.
    unfold get_ext_category_data. rewrite find_category_find. exact Hnone.
Qed.

Lemma category_selection_partial_witness :
  (exists c,
     get_ext_category_data 65536 = Some c
     /\ List.filter (in_range 65536) categories = [c])
  /\ get_ext_category_data 0 = None.
Proof.
  split.
  - apply (proj1 (category_selection_partial 65536)). by vm_compute.
  - apply (proj2 (category_selection_partial 0)). left. lia.
Defined.

End CapacityTable.

(** *** The required size *)

Section CapacityClaims.
Import PyFloat ExtImage.

(** C1 (the code departs from it): on an object that [ExtImage(...)] has
    built, whenever the required size computed for a tree exceeds the final
    size, the setter of [tree_blocks] fails, but with [AttributeError] for
    [self.total_blocks], which is read to format the message and is never
    set (the count is the local [total_blocks]): the message naming the
    sizes is not produced. *)
Theorem capacity_overage_raises_attribute_error
    (image_path : string) (tree_blocks0 final_size : Z) (self : attrs)
    (c : category_data) (ratio : Q) (tree total : Z) :
  new image_path tree_blocks0 final_size = Ok self ->
  get_ext_category_data final_size = Some c ->
  truediv 1 (byte_inode_ratio c) = Ok ratio ->
  required_blocks (block_size c) lit_0_1 (journal_blocks c) ratio
    (inode_size c) tree = Ok total ->
  final_size < total * block_size c ->
  tree_blocks_setter tree self = Raise (AttributeError "total_blocks").
Proof.
  intros Hnew Hc Hratio Hreq Hlt.
  destruct (new_planned _ _ _ _ Hnew) as (c' & ratio' & Hc' & Hratio' & Hp).
  rewrite Hc in Hc'. injection Hc' as <-.
  rewrite Hratio in Hratio'. injection Hratio' as <-.
  destruct Hp as (Hr & Hj & Hbs & Hir & Hisz & Hfs & Htot).
  rewrite (setter_run self tree _ _ _ _ _ _ Hr Hj Hbs Hir Hisz Hfs).
  rewrite Hreq. apply Z.ltb_lt in Hlt. rewrite Hlt, Htot. reflexivity.
Qed.

Lemma capacity_overage_raises_attribute_error_witness :
  let self := got ∅ (new "out" 0 65536) in
  new "out" 0 65536 = Ok self
  /\ 65536 < 113 * 4096
  /\ tree_blocks_setter 100 self = Raise (AttributeError "total_blocks").
Proof.
  intros self. split; [apply got_ok; vm_compute; reflexivity|].
  split; [lia|].
  apply (capacity_overage_raises_attribute_error "out" 0 65536 self
           (Category 65536 2097151 "floppy" 4096 8192 128 0)
           (got 0%Q (truediv 1 8192)) 100 113).
  - apply got_ok. vm_compute. reflexivity.
  - vm_compute. reflexivity.
  - apply got_ok. vm_compute. reflexivity.
  - vm_compute. reflexivity.
  - vm_compute. reflexivity.
Defined.

Lemma setter_mono (s : attrs) (bs : Z) (reserve : Q) (journal : Z)
    (ratio : Q) (isz fsz t1 t2 : Z) (s2 : attrs) :
  s !! "reserve" = Some (VFloat reserve) ->
  s !! "journal_blocks" = Some (VInt journal) ->
  s !! "block_size" = Some (VInt bs) ->
  s !! "inode_byte_ratio" = Some (VFloat ratio) ->
  s !! "inode_size" = Some (VInt isz) ->
  s !! "final_size" = Some (VInt fsz) ->
  0 < bs -> (0 <= reserve)%Q -> 0 <= journal -> (0 <= ratio)%Q -> 0 <= isz ->
  0 <= t1 -> t1 <= t2 ->
  tree_blocks_setter t2 s = Ok (tt, s2) ->
  exists s1 n1 n2,
    tree_blocks_setter t1 s = Ok (tt, s1)
    /\ s1 !! "noblks" = Some (VInt n1)
    /\ s2 !! "noblks" = Some (VInt n2)
    /\ n1 <= n2.
Proof.
  intros Hr Hj Hbs Hir Hisz Hfs Pbs Pr Pj Pratio Pisz Pt1 Pt12.
  rewrite !(setter_run s _ _ _ _ _ _ _ Hr Hj Hbs Hir Hisz Hfs).
  destruct (required_blocks bs reserve journal ratio isz t2) as [n2|] eqn:E2;
    [|discriminate].
  destruct (required_blocks_mono bs reserve journal ratio isz t1 t2 n2)
    as (n1 & E1 & Hle); try assumption.
  rewrite E1.
  destruct (Z.ltb_spec fsz (n2 * bs)) as [Hlt|Hge].
  { destruct (s !! "total_blocks") as [[| | |]|]; discriminate. }
  intros [= <-].
  destruct (Z.ltb_spec fsz (n1 * bs)) as [Hlt1|_]; [nia|].
  eexists _, n1, n2. split; [reflexivity|].
  rewrite !lookup_insert_eq. auto.
Qed.

(** C8: for fixed category parameters the number of blocks the planner
    requires does not decrease when the tree grows, both as the value
    computed ([required_blocks]) and as the [noblks] that the setter of
    [tree_blocks] stores when the image is large enough; and a final size
    equal to the lower bound of a row of the table selects that row. *)
Theorem capacity_monotone_and_boundary :
  (forall bs reserve journal ratio isz t1 t2 n2,
     0 < bs -> (0 <= reserve)%Q -> 0 <= journal -> (0 <= ratio)%Q ->
     0 <= isz -> 0 <= t1 -> t1 <= t2 ->
     required_blocks bs reserve journal ratio isz t2 = Ok n2 ->
     exists n1,
       required_blocks bs reserve journal ratio isz t1 = Ok n1 /\ n1 <= n2)
  /\ (forall image_path tree_blocks0 final_size self t1 t2 s2,
       new image_path tree_blocks0 final_size = Ok self ->
       0 <= t1 -> t1 <= t2 ->
       tree_blocks_setter t2 self = Ok (tt, s2) ->
       exists s1 n1 n2,
         tree_blocks_setter t1 self = Ok (tt, s1)
         /\ s1 !! "noblks" = Some (VInt n1)
         /\ s2 !! "noblks" = Some (VInt n2)
         /\ n1 <= n2)
  /\ (forall c, In c categories ->
       get_ext_category_data (min_size c) = Some c).
Proof.
  split; [|split].
  - intros. eapply required_blocks_mono; eassumption.
  - intros image_path tb0 fsz self t1 t2 s2 Hnew Ht1 Ht12 Hset.
    destruct (new_planned _ _ _ _ Hnew) as (c & ratio & Hc & Hratio & Hp).
    destruct Hp as (Hr & Hj & Hbs & Hir & Hisz & Hfs & _).
    assert (Hin : In c categories).
    { unfold get_ext_category_data in Hc. rewrite find_category_find in Hc.
      apply find_some in Hc. exact (proj1 Hc). }
    pose proof (rows_positive c Hin) as Hrow.
    destruct Hrow as (Pbs & Pj & Pbir & Pisz).
    assert (Pratio : (0 <= ratio)%Q).
    { unfold truediv in Hratio.
      destruct (Z.eqb_spec (byte_inode_ratio c) 0); [lia|].
      apply (checked_nonneg _ _) in Hratio; [exact Hratio|].
      apply Qle_shift_div_l; [rewrite <- (Zlt_Qlt 0); lia|].
      rewrite Qmult_0_l. discriminate. }
    assert (Pr : (0 <= lit_0_1)%Q).
    { unfold lit_0_1. apply round_double_nonneg. discriminate. }
    exact (setter_mono self (block_size c) lit_0_1 (journal_blocks c) ratio
             (inode_size c) fsz t1 t2 s2 Hr Hj Hbs Hir Hisz Hfs Pbs Pr Pj
             Pratio Pisz Ht1 Ht12 Hset).
  - intros c Hin. unfold get_ext_category_data.
    rewrite find_category_find. fold categories.
    apply (chained_boundary 65536); [apply table_chained | exact Hin].
Qed.

Lemma capacity_monotone_and_boundary_witness :
  (exists n1,
     required_blocks 4096 lit_0_1 0 (1 # 8192) 128 10 = Ok n1 /\ n1 <= 113)
  /\ get_ext_category_data 2097152
     = Some (Category 2097152 3145727 "floppy" 4096 8192 128 1024).
Proof.
  split.
  - apply (proj1 capacity_monotone_and_boundary 4096 lit_0_1 0 (1 # 8192)
             128 10 100 113).
    + lia.
    + apply round_double_nonneg. discriminate.
    + lia.
    + discriminate.
    + lia.
    + lia.
    + lia.
    + vm_compute. reflexivity.
  - apply (proj2 (proj2 capacity_monotone_and_boundary)
             (Category 2097152 3145727 "floppy" 4096 8192 128 1024)).
    vm_compute. tauto.
Defined.

End CapacityClaims.

(** ** The Size Budget Ledger *)

Section LedgerFacts.
Import Ledger.

Variable lower : string -> string.
Variable normpath : string -> string.
Variable isdir_not_link : string -> bool.
Variable lstat_size : string -> outcome Z.
Variable isfile : string -> bool.

Local Abbreviation removeFile := (removeFile lower normpath).
Local Abbreviation addFile :=
  (addFile lower normpath isdir_not_link lstat_size).
Local Abbreviation prepared := (prepared lower normpath).







(** What a call of [addFile] that returns has done. *)
Lemma addFile_returns (source : option string) (destination module : string)
    (size : option Z) (self self' : records) :
  addFile source destination module size self = Ok self' ->
  (targetSizeFile self = None /\ self' = self)
  \/ exists sz m,
       let st := prepared destination module self in
       (size = Some sz
        \/ size = None
           /\ exists src, source = Some src /\ lstat_size src = Ok sz)
       /\ ODict.get (lower module) (modules (fileSizeDict st)) = Some m
       /\ self'
          = Records (targetSizeFile st)
              (Size_dict (totalFSSize (fileSizeDict st) + sz)
                 (totalFSSizeLimit (fileSizeDict st))
                 (totalNumberOfFiles (fileSizeDict st) + 1)
                 (totalNumberOfDebians (fileSizeDict st))
                 (ODict.set (lower module)
                    (Module_entry (moduleSize m + sz) (moduleSizeLimit m)
                       (numberOfFiles m + 1) (numberOfDebians m)
                       (debians m)
                       (<[normpath destination := sz]> (files m)))
                    (modules (fileSizeDict st))))
              (<[normpath destination := File_record (lower module) sz]>
                 (fileRecordsDict st)).
Proof.
  unfold Ledger.addFile.
  destruct (targetSizeFile self) as [file|] eqn:Hfile;
    [|intros [= <-]; left; auto].
  intros H. right.
  assert (Hsz : exists sz,
             (size = Some sz
              \/ size = None
                 /\ exists src, source = Some src /\ lstat_size src = Ok sz)
             /\ match size with
                | Some size => Ok size
                | None =>
                    match source with
                    | None =>
                        Raise (TypeError "path should be string, not NoneType")
                    | Some source =>
                        if isdir_not_link source then
                          Raise (SystemExit
                            ("Error: " +:+ source +:+ " is a directory. addFile() "
                             +:+ "function in FileSizeRecords can only accept "
                             +:+ "files."))
                        else lstat_size source
                    end
                end = Ok sz).
  { destruct size as [sz|]; [exists sz; auto|].
    destruct source as [src|]; [|discriminate].
    destruct (isdir_not_link src); [discriminate|].
    destruct (lstat_size src) as [sz|e] eqn:E; [|discriminate].
    exists sz. split; [right; eauto|reflexivity]. }
  destruct Hsz as (sz & Hcase & Hsz). rewrite Hsz in H. cbn [obind] in H.
  fold (prepared destination module self) in H.
  destruct (ODict.get _ _) as [m|] eqn:Hm; [|discriminate].
  injection H as <-. exists sz, m. cbv zeta. auto.
Qed.

Lemma prepared_fresh (destination module : string) (self : records) :
  fileRecordsDict self !! normpath destination = None ->
  let st := prepared destination module self in
  targetSizeFile st = targetSizeFile self
  /\ fileRecordsDict st = fileRecordsDict self
  /\ totalFSSize (fileSizeDict st) = totalFSSize (fileSizeDict self)
  /\ totalNumberOfFiles (fileSizeDict st)
     = totalNumberOfFiles (fileSizeDict self)
  /\ ODict.get (lower module) (modules (fileSizeDict st))
     = Some (match ODict.get (lower module) (modules (fileSizeDict self))
             with
             | Some m => m
             | None => new_file_module
             end).
Proof.
  intros Hfresh. unfold Ledger.prepared, ODict.mem.
  destruct (ODict.get (lower module) (modules (fileSizeDict self)))
    as [m|] eqn:Hm; cbn [set_dict fileRecordsDict]; rewrite Hfresh; cbv zeta.
  - auto.
  - cbn. rewrite odict_get_set_eq. auto.
Qed.





(** C4 (the code departs from it): [addFile] hands the normalised
    destination to [removeFile], which normalises it again. For a
    destination on which [CopyTarget.normpath] is not stable, the key that
    [removeFile] looks up is not the one recorded: nothing is removed, and
    recording the destination again adds its size and counts it a second
    time, while the module holds one entry for it. The sizes may be given
    or read with [os.lstat]. *)
Theorem addFile_readd_accumulates_on_unstable_path (source : option string)
    (destination module : string) (size1 size2 : option Z)
    (self self1 self2 : records) (file : string) :
  targetSizeFile self = Some file ->
  lower (lower module) = lower module ->
  normpath (normpath destination) <> normpath destination ->
  fileRecordsDict self !! normpath destination = None ->
  (forall m, ODict.get (lower module) (modules (fileSizeDict self)) = Some m ->
             files m !! normpath (normpath destination) = None) ->
  addFile source destination module size1 self = Ok self1 ->
  addFile source destination module size2 self1 = Ok self2 ->
  let m0 := match ODict.get (lower module) (modules (fileSizeDict self))
            with
            | Some m => m
            | None => new_file_module
            end in
  exists s1 s2 m,
    (size1 = Some s1
     \/ size1 = None
        /\ exists src, source = Some src /\ lstat_size src = Ok s1)
    /\ (size2 = Some s2
        \/ size2 = None
           /\ exists src, source = Some src /\ lstat_size src = Ok s2)
    /\ totalFSSize (fileSizeDict self2)
       = totalFSSize (fileSizeDict self) + s1 + s2
    /\ totalNumberOfFiles (fileSizeDict self2)
       = totalNumberOfFiles (fileSizeDict self) + 2
    /\ ODict.get (lower module) (modules (fileSizeDict self2)) = Some m
    /\ moduleSize m = moduleSize m0 + s1 + s2
    /\ numberOfFiles m = numberOfFiles m0 + 2
    /\ files m = <[normpath destination := s2]> (files m0)
    /\ fileRecordsDict self2
       = <[normpath destination := File_record (lower module) s2]>
           (fileRecordsDict self).
Proof.
  intros Hfile Hlow Hnorm Hfresh Hfiles Hadd1 Hadd2.
  destruct (addFile_returns _ _ _ _ _ _ Hadd1)
    as [[Hf _]|(s1 & m1 & Hs1 & Hm1 & ->)]; [congruence|].
  destruct (prepared_fresh destination module self Hfresh)
    as (Hst & Hrec & Htot & Hnum & Hget).
  rewrite Hm1 in Hget. injection Hget as Hm0.
  assert (Hm1files : files m1 !! normpath (normpath destination) = None).
  { rewrite Hm0.
    destruct (ODict.get (lower module) (modules (fileSizeDict self)))
      as [m|] eqn:E; [apply (Hfiles m eq_refl)|apply lookup_empty]. }
  set (self1 := Records _ _ _) in *.
  assert (Hprep : prepared destination module self1 = self1).
  { unfold Ledger.prepared.
    assert (Hmem : ODict.mem (lower module) (modules (fileSizeDict self1))
                   = true).
    { unfold self1. cbn [fileSizeDict modules].
      rewrite odict_mem_set, String.eqb_refl. reflexivity. }
    rewrite Hmem.
    assert (Hr : fileRecordsDict self1 !! normpath destination
                 = Some (File_record (lower module) s1)).
    { unfold self1. cbn [fileRecordsDict]. apply lookup_insert_eq. }
    rewrite Hr. cbn [rec_module].
    unfold Ledger.removeFile. cbv zeta.
    assert (Hf1 : targetSizeFile self1 = Some file).
    { unfold self1. cbn [targetSizeFile]. rewrite Hst. exact Hfile. }
    rewrite Hf1, Hlow.
    assert (Hg : ODict.get (lower module) (modules (fileSizeDict self1))
                 = Some (Module_entry (moduleSize m1 + s1)
                           (moduleSizeLimit m1) (numberOfFiles m1 + 1)
                           (numberOfDebians m1) (debians m1)
                           (<[normpath destination := s1]> (files m1)))).
    { unfold self1. cbn [fileSizeDict modules]. apply odict_get_set_eq. }
    rewrite Hg. cbn [files].
    rewrite lookup_insert_ne by (intros E; apply Hnorm; symmetry; exact E).
    rewrite Hm1files. reflexivity. }
  destruct (addFile_returns _ _ _ _ _ _ Hadd2)
    as [[Hf _]|(s2 & m2 & Hs2 & Hm2 & ->)].
  { unfold self1 in Hf. cbn [targetSizeFile] in Hf. congruence. }
  rewrite Hprep in Hm2 |- *.
  assert (m2 = Module_entry (moduleSize m1 + s1) (moduleSizeLimit m1)
                 (numberOfFiles m1 + 1) (numberOfDebians m1) (debians m1)
                 (<[normpath destination := s1]> (files m1))) as ->.
  { unfold self1 in Hm2. cbn [fileSizeDict modules] in Hm2.
    rewrite odict_get_set_eq in Hm2. congruence. }
  cbv zeta. rewrite <- Hm0.
  exists s1, s2. eexists.
  split; [exact Hs1|]. split; [exact Hs2|].
  unfold self1.
  cbn [targetSizeFile fileSizeDict fileRecordsDict modules totalFSSize
       totalFSSizeLimit totalNumberOfFiles totalNumberOfDebians].
  rewrite Htot, Hnum, Hrec.
  split; [lia|]. split; [lia|].
  split; [apply odict_get_set_eq|].
  cbn [moduleSize numberOfFiles files].
  split; [lia|]. split; [lia|].
  split; [apply insert_insert_eq|apply insert_insert_eq].
Qed.

End LedgerFacts.


Lemma addFile_readd_accumulates_on_unstable_path_witness :
  let add := Ledger.addFile Ledger.ascii_lower CopyTarget.normpath
               (fun _ => false) (fun _ => Ok 0) None "$X///../f" "modX" in
  let self1 := got (Ledger.fresh "ledger.yaml")
                 (add (Some 100) (Ledger.fresh "ledger.yaml")) in
  let self2 := got (Ledger.fresh "ledger.yaml") (add (Some 150) self1) in
  CopyTarget.normpath "$X///../f" = "$X//../f"
  /\ CopyTarget.normpath "$X//../f" = "$X/../f"
  /\ Ledger.totalFSSize (Ledger.fileSizeDict self2) = 250
  /\ Ledger.totalNumberOfFiles (Ledger.fileSizeDict self2) = 2
  /\ exists m,
       ODict.get "modx" (Ledger.modules (Ledger.fileSizeDict self2)) = Some m
       /\ Ledger.moduleSize m = 250
       /\ Ledger.numberOfFiles m = 2
       /\ Ledger.files m = {[ "$X//../f" := 150 ]}.
Proof.
  intros add self1 self2.
  assert (H1 : add (Some 100) (Ledger.fresh "ledger.yaml") = Ok self1)
    by (apply got_ok; vm_compute; reflexivity).
  assert (H2 : add (Some 150) self1 = Ok self2)
    by (apply got_ok; vm_compute; reflexivity).
  split; [vm_compute; reflexivity|]. split; [vm_compute; reflexivity|].
  destruct (addFile_readd_accumulates_on_unstable_path Ledger.ascii_lower
              CopyTarget.normpath (fun _ => false) (fun _ => Ok 0) None
              "$X///../f" "modX" (Some 100) (Some 150)
              (Ledger.fresh "ledger.yaml") self1 self2 "ledger.yaml"
              eq_refl eq_refl)
    as (s1 & s2 & m & Hs1 & Hs2 & Ht & Hn & Hm & Hms & Hmn & Hmf & _);
    [vm_compute; discriminate|reflexivity|discriminate|exact H1|exact H2|].
  destruct Hs1 as [[= <-]|[[=] _]]. destruct Hs2 as [[= <-]|[[=] _]].
  split; [exact Ht|]. split; [exact Hn|].
  exists m. split; [exact Hm|]. split; [exact Hms|]. split; [exact Hmn|].
  rewrite Hmf. vm_compute. reflexivity.
Defined.

(** *** Recording packages *)

Section DebianFacts.
Import Ledger.

Variable normpath : string -> string.
Variable lstat_size : string -> outcome Z.
Variable isfile : string -> bool.
Variable work_dir : string.

Local Abbreviation addDebianPackage :=
  (addDebianPackage normpath lstat_size isfile false work_dir).

(** One call with the Installed-Size known, files not itemised. *)
Lemma addDebianPackage_sized (debian module : string) (size : Z)
    (fileList : list string) (self self' : records) :
  addDebianPackage debian module (Some size) fileList self = Ok self' ->
  exists m debs,
    m = match ODict.get module (modules (fileSizeDict self)) with
        | Some m0 => m0
        | None => new_debian_module
        end
    /\ debians m = Some debs
    /\ fileSizeDict self'
       = Size_dict (totalFSSize (fileSizeDict self) + size * 1024)
           (totalFSSizeLimit (fileSizeDict self))
           (totalNumberOfFiles (fileSizeDict self))
           (Some (match totalNumberOfDebians (fileSizeDict self) with
                  | Some n => n
                  | None => 0
                  end + 1))
           (ODict.set module
              (Module_entry (moduleSize m + size * 1024) (moduleSizeLimit m)
                 (numberOfFiles m)
                 (Some (match numberOfDebians m with
                        | Some n => n
                        | None => 0
                        end + 1))
                 (Some (<[debian := size * 1024]> debs)) (files m))
              (modules (fileSizeDict self))).
Proof.
  unfold Ledger.addDebianPackage. cbn [obind].
  unfold ODict.mem.
  destruct (ODict.get module (modules (fileSizeDict self))) as [m0|] eqn:Hm.
  - rewrite Hm. destruct (debians m0) as [debs|] eqn:Hd; [|discriminate].
    intros [= <-]. exists m0, debs. auto.
  - cbn [set_dict set_modules fileSizeDict modules totalFSSize
         totalFSSizeLimit totalNumberOfFiles totalNumberOfDebians].
    rewrite odict_get_set_eq. cbn [debians new_debian_module].
    intros [= <-]. exists new_debian_module, ∅. split; [reflexivity|].
    split; [reflexivity|]. cbn [fileSizeDict].
    rewrite odict_set_set. reflexivity.
Qed.

(** C2 (the code departs from it): recording a package that is already
    recorded adds its size and counts it a second time. After two calls of
    [addDebianPackage] for the same package and module the totals and the
    module have grown by twice the size and by two packages, while the
    module's [debians] holds one entry for the package, with the size once.
    ([addFile] removes the earlier entry first; [addDebianPackage] does
    not.) *)
Theorem addDebianPackage_rerecord_accumulates (debian module : string)
    (size : Z) (fileList : list string) (self self1 self2 : records) :
  addDebianPackage debian module (Some size) fileList self = Ok self1 ->
  addDebianPackage debian module (Some size) fileList self1 = Ok self2 ->
  let before :=
    match ODict.get module (modules (fileSizeDict self)) with
    | Some m0 => m0
    | None => new_debian_module
    end in
  totalFSSize (fileSizeDict self2)
  = totalFSSize (fileSizeDict self) + 2 * (size * 1024)
  /\ totalNumberOfDebians (fileSizeDict self2)
     = Some (match totalNumberOfDebians (fileSizeDict self) with
             | Some n => n
             | None => 0
             end + 2)
  /\ exists m debs,
       ODict.get module (modules (fileSizeDict self2)) = Some m
       /\ moduleSize m = moduleSize before + 2 * (size * 1024)
       /\ numberOfDebians m
          = Some (match numberOfDebians before with
                  | Some n => n
                  | None => 0
                  end + 2)
       /\ debians m = Some debs
       /\ debs !! debian = Some (size * 1024).
Proof.
  intros H1 H2 before.
  apply addDebianPackage_sized in H1 as (m & debs & Hm & Hdebs & E1).
  apply addDebianPackage_sized in H2 as (m' & debs' & Hm' & Hdebs' & E2).
  fold before in Hm. subst m.
  rewrite E1 in Hm', E2.
  cbn [modules totalFSSize totalFSSizeLimit totalNumberOfFiles
       totalNumberOfDebians] in Hm', E2.
  rewrite odict_get_set_eq in Hm'. subst m'.
  cbn [debians] in Hdebs'. injection Hdebs' as <-.
  rewrite E2.
  cbn [totalFSSize totalNumberOfDebians modules moduleSize numberOfDebians].
  split; [lia|]. split; [f_equal; lia|].
  eexists _, _. rewrite odict_get_set_eq. split; [reflexivity|].
  cbn [moduleSize numberOfDebians debians].
  split; [lia|]. split; [f_equal; lia|]. split; [reflexivity|].
  apply lookup_insert_eq.
Qed.

End DebianFacts.

Lemma addDebianPackage_rerecord_accumulates_witness :
  let add := Ledger.addDebianPackage (fun p => p) (fun _ => Ok 0)
               (fun _ => true) false "/work" "pkgA" "modx" (Some 100) [] in
  let self1 := got (Ledger.fresh "ledger.yaml")
                 (add (Ledger.fresh "ledger.yaml")) in
  let self2 := got (Ledger.fresh "ledger.yaml") (add self1) in
  Ledger.totalFSSize (Ledger.fileSizeDict self2) = 0 + 2 * (100 * 1024)
  /\ Ledger.totalNumberOfDebians (Ledger.fileSizeDict self2) = Some (0 + 2)
  /\ exists m debs,
       ODict.get "modx" (Ledger.modules (Ledger.fileSizeDict self2)) = Some m
       /\ Ledger.moduleSize m = 0 + 2 * (100 * 1024)
       /\ Ledger.numberOfDebians m = Some (0 + 2)
       /\ Ledger.debians m = Some debs
       /\ debs !! "pkgA" = Some (100 * 1024).
Proof.
  intros add self1 self2.
  assert (H1 : add (Ledger.fresh "ledger.yaml") = Ok self1).
  { apply got_ok. vm_compute. reflexivity. }
  assert (H2 : add self1 = Ok self2).
  { apply got_ok. vm_compute. reflexivity. }
  exact (addDebianPackage_rerecord_accumulates (fun p => p) (fun _ => Ok 0)
           (fun _ => true) "/work" "pkgA" "modx" 100 []
           (Ledger.fresh "ledger.yaml") self1 self2 H1 H2).
Defined.

(** ** Enforcement of the limits *)

Section EnforceFacts.
Import Ledger Enforce.

Variable error_on_limits : option string.
Variable size_limits_file : string.
Variable uses_base : bool.
Variable base_file : string.

Local Abbreviation raise_issue := (raise_issue error_on_limits).
Local Abbreviation issue_and_return := (issue_and_return error_on_limits).
Local Abbreviation check_modules :=
  (check_modules error_on_limits size_limits_file uses_base base_file).
Local Abbreviation check_target_size_manifest :=
  (check_target_size_manifest error_on_limits size_limits_file uses_base
     base_file).
Local Abbreviation downgraded := (downgraded error_on_limits).
Local Abbreviation limit_from_policy :=
  (limit_from_policy size_limits_file).
Local Abbreviation module_passes :=
  (module_passes error_on_limits size_limits_file uses_base).

Lemma raise_issue_cases (issue : string) (log : list string) :
  raise_issue issue log
  = if downgraded then (log ++ [issue], Ok tt)
    else (log, Raise (SystemExit issue)).
Proof.
  unfold Enforce.raise_issue, Enforce.downgraded, raise_error_and_exit.
  destruct error_on_limits as [v|]; [|reflexivity].
  destruct (String.eqb v "false"); reflexivity.
Qed.

Lemma issue_and_return_cases (issue : string) (log : list string) :
  issue_and_return issue log
  = if downgraded then (log ++ [issue], Ok None)
    else (log, Raise (SystemExit issue)).
Proof.
  unfold Enforce.issue_and_return. rewrite raise_issue_cases.
  destruct downgraded; reflexivity.
Qed.

Lemma issue_and_return_not_written (issue : string) (log log' : list string)
    (d : size_dict) :
  issue_and_return issue log <> (log', Ok (Some d)).
Proof.
  rewrite issue_and_return_cases. destruct downgraded; intros [= _ H].
Qed.

Lemma set_module_limit_limited (k k' : string) (n : Z) (d : size_dict) :
  limited k' d -> limited k' (set_module_limit k n d).
Proof.
  intros (m & n' & Hm & Hl). unfold set_module_limit, limited.
  destruct (ODict.get k (modules d)) as [mk|] eqn:Hk; [|eauto].
  cbn [set_modules modules].
  destruct (String.eqb_spec k k') as [->|Hne].
  - rewrite odict_get_set_eq. eauto.
  - rewrite odict_get_set_ne by assumption. eauto.
Qed.

Lemma set_module_limit_sets (k : string) (n : Z) (d : size_dict)
    (m : module_entry) :
  ODict.get k (modules d) = Some m -> limited k (set_module_limit k n d).
Proof.
  intros Hm. unfold set_module_limit, limited. rewrite Hm.
  cbn [set_modules modules]. rewrite odict_get_set_eq. eauto.
Qed.

Lemma set_module_limit_frame (k : string) (n : Z) (d : size_dict) :
  totalFSSize (set_module_limit k n d) = totalFSSize d
  /\ totalFSSizeLimit (set_module_limit k n d) = totalFSSizeLimit d
  /\ ODict.keys (modules (set_module_limit k n d)) = ODict.keys (modules d).
Proof.
  unfold set_module_limit.
  destruct (ODict.get k (modules d)) as [m|] eqn:Hm; [|auto].
  cbn [set_modules totalFSSize totalFSSizeLimit modules].
  repeat split. apply odict_keys_set_mem.
  apply odict_mem_get. eauto.
Qed.

Lemma check_modules_written (filesystem : string)
    (limits : list (string * limit_entry)) (names : list string)
    (d d' : size_dict) (log log' : list string) :
  check_modules filesystem limits names d log = (log', Ok (Some d')) ->
  (forall k, In k names -> limited k d')
  /\ (forall k, limited k d -> limited k d')
  /\ totalFSSize d' = totalFSSize d
  /\ totalFSSizeLimit d' = totalFSSizeLimit d
  /\ ODict.keys (modules d') = ODict.keys (modules d).
Proof.
  revert d log. induction names as [|module rest IH]; intros d log.
  - simpl. intros [= _ <-]. repeat split; auto. intros k [].
  - cbn [Enforce.check_modules].
    destruct (ODict.get module (modules d)) as [m|] eqn:Hm; [|discriminate].
    destruct (ODict.get module limits) as [entry|];
      [|intros H; destruct (issue_and_return_not_written _ _ _ _ H)].
    destruct (match entry with
              | Scalar v => Some v
              | PerLayer by_layer => _
              end) as [value|];
      [|intros H; destruct (issue_and_return_not_written _ _ _ _ H)].
    destruct (uses_base && negb (PyStr.startswith "+" value));
      [intros H; destruct (issue_and_return_not_written _ _ _ _ H)|].
    destruct (getIntValue size_limits_file value) as [n|]; [|discriminate].
    pose proof (set_module_limit_sets module n d m Hm) as Hset.
    pose proof (set_module_limit_frame module n d) as (F1 & F2 & F3).
    assert (Hstep : forall log0,
      check_modules filesystem limits rest (set_module_limit module n d) log0
      = (log', Ok (Some d')) ->
      (forall k, In k (module :: rest) -> limited k d')
      /\ (forall k, limited k d -> limited k d')
      /\ totalFSSize d' = totalFSSize d
      /\ totalFSSizeLimit d' = totalFSSizeLimit d
      /\ ODict.keys (modules d') = ODict.keys (modules d)).
    { intros log0 H. apply IH in H as (A & B & C1 & C2 & C3).
      split; [|split; [|split; [|split]]].
      - intros k [<-|Hin]; [apply B; exact Hset | apply A; exact Hin].
      - intros k Hk. apply B. apply set_module_limit_limited. exact Hk.
      - congruence.
      - congruence.
      - congruence. }
    destruct (moduleSize m >? n).
    + rewrite raise_issue_cases. destruct downgraded; [|discriminate].
      apply Hstep.
    + apply Hstep.
Qed.


Lemma set_module_limit_passes (filesystem : string)
    (limits : list (string * limit_entry)) (k k' : string) (n : Z)
    (d : size_dict) :
  module_passes filesystem limits k' d ->
  module_passes filesystem limits k' (set_module_limit k n d).
Proof.
  intros (m & entry & v & n' & Hm & He & Hv & Hb & Hn & Hsize).
  unfold set_module_limit.
  destruct (ODict.get k (modules d)) as [mk|] eqn:Hk;
    [|exists m, entry, v, n'; auto 10].
  destruct (String.eqb_spec k k') as [->|Hne].
  - rewrite Hm in Hk. injection Hk as <-.
    eexists _, entry, v, n'. cbn [set_modules modules].
    rewrite odict_get_set_eq. split; [reflexivity|]. auto 10.
  - exists m, entry, v, n'. cbn [set_modules modules].
    rewrite odict_get_set_ne by assumption. auto 10.
Qed.

Lemma check_modules_completes (filesystem : string)
    (limits : list (string * limit_entry)) (names : list string)
    (d : size_dict) (log : list string) :
  (forall k, In k names -> module_passes filesystem limits k d) ->
  exists log' d',
    check_modules filesystem limits names d log = (log', Ok (Some d')).
Proof.
  revert d log. induction names as [|module rest IH]; intros d log Hall.
  - simpl. eauto.
  - destruct (Hall module (or_introl eq_refl))
      as (m & entry & v & n & Hm & He & Hv & Hb & Hn & Hsize).
    cbn [Enforce.check_modules]. rewrite Hm, He.
    change (match entry with
            | Scalar v0 => Some v0
            | PerLayer by_layer =>
                match ODict.get filesystem by_layer with
                | Some v0 => Some v0
                | None => ODict.get "others" by_layer
                end
            end) with (resolve filesystem entry).
    rewrite Hv, Hb, Hn.
    assert (Hrest : forall k, In k rest ->
              module_passes filesystem limits k (set_module_limit module n d)).
    { intros k Hk. apply set_module_limit_passes. apply Hall. right.
      exact Hk. }
    destruct (Z.gtb_spec (moduleSize m) n) as [Hgt|Hle].
    + rewrite raise_issue_cases.
      destruct Hsize as [->|Hsize]; [|lia].
      apply IH. exact Hrest.
    + apply IH. exact Hrest.
Qed.


Lemma same_sizes_refl (m : module_entry) : same_sizes m m.
Proof. repeat split. Qed.

Lemma set_module_limit_sizes (k k' : string) (n : Z) (d : size_dict)
    (m : module_entry) :
  ODict.get k' (modules d) = Some m ->
  exists m',
    ODict.get k' (modules (set_module_limit k n d)) = Some m'
    /\ same_sizes m m'.
Proof.
  intros Hm. unfold set_module_limit.
  destruct (ODict.get k (modules d)) as [mk|] eqn:Hk;
    [|exists m; split; [exact Hm|apply same_sizes_refl]].
  cbn [set_modules modules].
  destruct (String.eqb_spec k k') as [->|Hne].
  - rewrite odict_get_set_eq. eexists. split; [reflexivity|].
    assert (mk = m) as -> by congruence. repeat split.
  - rewrite odict_get_set_ne by exact Hne. exists m.
    split; [exact Hm|apply same_sizes_refl].
Qed.

Lemma check_modules_sizes (filesystem : string)
    (limits : list (string * limit_entry)) (names : list string) :
  forall (d d' : size_dict) (log log' : list string),
    check_modules filesystem limits names d log = (log', Ok (Some d')) ->
    totalFSSize d' = totalFSSize d
    /\ totalNumberOfFiles d' = totalNumberOfFiles d
    /\ totalNumberOfDebians d' = totalNumberOfDebians d
    /\ forall k m,
         ODict.get k (modules d) = Some m ->
         exists m', ODict.get k (modules d') = Some m' /\ same_sizes m m'.
Proof.
  induction names as [|module rest IH]; intros d d' log log'.
  - simpl. intros [= _ <-]. repeat split.
    intros k m Hm. exists m. split; [exact Hm|apply same_sizes_refl].
  - cbn [Enforce.check_modules].
    destruct (ODict.get module (modules d)) as [m|] eqn:Hm; [|discriminate].
    destruct (ODict.get module limits) as [entry|];
      [|intros H; destruct (issue_and_return_not_written _ _ _ _ H)].
    destruct (match entry with
              | Scalar v => Some v
              | PerLayer by_layer => _
              end) as [value|];
      [|intros H; destruct (issue_and_return_not_written _ _ _ _ H)].
    destruct (uses_base && negb (PyStr.startswith "+" value));
      [intros H; destruct (issue_and_return_not_written _ _ _ _ H)|].
    destruct (getIntValue size_limits_file value) as [n|]; [|discriminate].
    assert (Hstep : forall log0,
      check_modules filesystem limits rest (set_module_limit module n d) log0
      = (log', Ok (Some d')) ->
      totalFSSize d' = totalFSSize d
      /\ totalNumberOfFiles d' = totalNumberOfFiles d
      /\ totalNumberOfDebians d' = totalNumberOfDebians d
      /\ forall k m,
           ODict.get k (modules d) = Some m ->
           exists m', ODict.get k (modules d') = Some m' /\ same_sizes m m').
    { intros log0 H. apply IH in H as (T & A & B & C).
      assert (F : totalFSSize (set_module_limit module n d) = totalFSSize d
                  /\ totalNumberOfFiles (set_module_limit module n d)
                     = totalNumberOfFiles d
                  /\ totalNumberOfDebians (set_module_limit module n d)
                     = totalNumberOfDebians d).
      { unfold set_module_limit. destruct (ODict.get module (modules d));
          auto. }
      destruct F as (F0 & F1 & F2).
      split; [congruence|]. split; [congruence|]. split; [congruence|].
      intros k m0 Hk.
      destruct (set_module_limit_sizes module k n d m0 Hk)
        as (m1 & Hm1 & S1).
      destruct (C k m1 Hm1) as (m2 & Hm2 & S2).
      exists m2. split; [exact Hm2|].
      unfold same_sizes in *. intuition congruence. }
    destruct (moduleSize m >? n).
    + rewrite raise_issue_cases.
      destruct downgraded; [|discriminate].
      apply Hstep.
    + apply Hstep.
Qed.

Lemma set_module_limit_get (k k' : string) (n : Z) (d : size_dict)
    (m : module_entry) :
  ODict.get k (modules d) = Some m ->
  ODict.get k' (modules (set_module_limit k n d))
  = if String.eqb k k' then
      Some (Module_entry (moduleSize m) (LimitValue n) (numberOfFiles m)
              (numberOfDebians m) (debians m) (files m))
    else ODict.get k' (modules d).
Proof.
  intros Hm. unfold set_module_limit. rewrite Hm.
  cbn [set_modules modules].
  destruct (String.eqb_spec k k') as [->|Hne].
  - apply odict_get_set_eq.
  - apply odict_get_set_ne, Hne.
Qed.

(** What the loop over the modules leaves in the ledger it writes. *)
Lemma check_modules_policy (filesystem : string)
    (limits : list (string * limit_entry)) (names : list string) :
  forall (d d' : size_dict) (log log' : list string),
    check_modules filesystem limits names d log = (log', Ok (Some d')) ->
    forall k m,
      ODict.get k (modules d) = Some m ->
      exists m',
        ODict.get k (modules d') = Some m'
        /\ same_sizes m m'
        /\ (In k names \/ limit_from_policy filesystem limits k m ->
            limit_from_policy filesystem limits k m').
Proof.
  induction names as [|module rest IH]; intros d d' log log'.
  - simpl. intros [= _ <-] k m Hm. exists m.
    split; [exact Hm|]. split; [apply same_sizes_refl|].
    intros [[]|H]. exact H.
  - cbn [Enforce.check_modules].
    destruct (ODict.get module (modules d)) as [m0|] eqn:Hm0;
      [|discriminate].
    destruct (ODict.get module limits) as [entry|] eqn:Hentry;
      [|intros H; destruct (issue_and_return_not_written _ _ _ _ H)].
    change (match entry with
            | Scalar v0 => Some v0
            | PerLayer by_layer =>
                match ODict.get filesystem by_layer with
                | Some v0 => Some v0
                | None => ODict.get "others" by_layer
                end
            end) with (resolve filesystem entry).
    destruct (resolve filesystem entry) as [value|] eqn:Hvalue;
      [|intros H; destruct (issue_and_return_not_written _ _ _ _ H)].
    destruct (uses_base && negb (PyStr.startswith "+" value));
      [intros H; destruct (issue_and_return_not_written _ _ _ _ H)|].
    destruct (getIntValue size_limits_file value) as [n|] eqn:Hn;
      [|discriminate].
    assert (Hstep : forall log0,
      check_modules filesystem limits rest (set_module_limit module n d) log0
      = (log', Ok (Some d')) ->
      forall k m,
        ODict.get k (modules d) = Some m ->
        exists m',
          ODict.get k (modules d') = Some m'
          /\ same_sizes m m'
          /\ (In k (module :: rest)
              \/ limit_from_policy filesystem limits k m ->
              limit_from_policy filesystem limits k m')).
    { intros log0 H k m Hk.
      pose proof (set_module_limit_get module k n d m0 Hm0) as Hget.
      destruct (String.eqb_spec module k) as [<-|Hne].
      - assert (m = m0) as -> by congruence.
        destruct (IH _ _ _ _ H module _ Hget) as (m' & Hm' & Hs & Hp).
        exists m'. split; [exact Hm'|]. split.
        + unfold same_sizes in *. cbn in Hs. exact Hs.
        + intros _. apply Hp. right.
          exists entry, value, n. auto.
      - rewrite Hk in Hget.
        destruct (IH _ _ _ _ H k m Hget) as (m' & Hm' & Hs & Hp).
        exists m'. split; [exact Hm'|]. split; [exact Hs|].
        intros [[Heq|Hin]|Hpol]; [congruence|apply Hp; left; exact Hin|].
        apply Hp. right. exact Hpol. }
    destruct (moduleSize m0 >? n).
    + rewrite raise_issue_cases. destruct downgraded; [|discriminate].
      apply Hstep.
    + apply Hstep.
Qed.

(** C5 (amended): an enforcement run writes the ledger back when it runs
    to its end. The ledger written has the measured total, the counts, and
    the sizes and files of every module as they were read; its
    [totalFSSizeLimit] is the number read from the limit that the limits
    file gives for the layer, and the [moduleSizeLimit] of every module the
    number read from the limit given for that module. The run reaches its
    end whenever the limits file is complete and well formed and every limit
    is satisfied or issues are downgraded to warnings. A run in which the
    total exceeds its limit while issues are fatal ends in [sys.exit] and
    writes nothing. *)
Theorem ledger_written_when_run_completes (limits : size_limits)
    (on_disk : size_dict) (du : option Z) (filesystem : string) :
  (forall log d,
     check_target_size_manifest limits on_disk du filesystem
     = (log, Ok (Some d)) ->
     exists entry v n ml,
       maxFSSize limits = Some entry
       /\ resolve filesystem entry = Some v
       /\ getIntValue size_limits_file v = Ok n
       /\ modules_limits limits = Some ml
       /\ totalFSSizeLimit d = LimitValue n
       /\ totalFSSize d = measured_total on_disk du
       /\ totalNumberOfFiles d = totalNumberOfFiles on_disk
       /\ totalNumberOfDebians d = totalNumberOfDebians on_disk
       /\ ODict.keys (modules d) = ODict.keys (modules on_disk)
       /\ forall k m,
            ODict.get k (modules on_disk) = Some m ->
            exists m',
              ODict.get k (modules d) = Some m'
              /\ same_sizes m m'
              /\ limit_from_policy filesystem ml k m')
  /\ (forall entry v n ml,
        maxFSSize limits = Some entry ->
        resolve filesystem entry = Some v ->
        getIntValue size_limits_file v = Ok n ->
        downgraded = true \/ measured_total on_disk du <= n ->
        modules_limits limits = Some ml ->
        (forall k, In k (ODict.keys (modules on_disk)) ->
                   module_passes filesystem ml k on_disk) ->
        exists log d,
          check_target_size_manifest limits on_disk du filesystem
          = (log, Ok (Some d)))
  /\ (forall entry v n,
        downgraded = false ->
        maxFSSize limits = Some entry ->
        resolve filesystem entry = Some v ->
        getIntValue size_limits_file v = Ok n ->
        n < measured_total on_disk du ->
        exists message,
          check_target_size_manifest limits on_disk du filesystem
          = ([], Raise (SystemExit message))).
Proof.
  unfold Enforce.check_target_size_manifest.
  set (d0 := match du with
             | Some measured => _
             | None => on_disk
             end).
  assert (Hmods : modules d0 = modules on_disk)
    by (unfold d0; destruct du; reflexivity).
  assert (Htot : totalFSSize d0 = measured_total on_disk du)
    by (unfold d0, measured_total; destruct du; reflexivity).
  split; [|split].
  - intros log d.
    destruct (maxFSSize limits) as [entry|];
      [|intros H; destruct (issue_and_return_not_written _ _ _ _ H)].
    change (match entry with
            | Scalar v0 => Some v0
            | PerLayer by_layer =>
                match ODict.get filesystem by_layer with
                | Some v0 => Some v0
                | None => ODict.get "others" by_layer
                end
            end) with (resolve filesystem entry).
    destruct (resolve filesystem entry) as [v|] eqn:Hv;
      [|intros H; destruct (issue_and_return_not_written _ _ _ _ H)].
    destruct (getIntValue size_limits_file v) as [n|] eqn:Hn;
      [|discriminate].
    cbn [totalFSSize modules].
    destruct (if totalFSSize d0 >? n then _ else _) as [log0 [[]|e]];
      [|discriminate].
    destruct (modules_limits limits) as [ml|];
      [|intros H; destruct (issue_and_return_not_written _ _ _ _ H)].
    intros H.
    pose proof (check_modules_written _ _ _ _ _ _ _ H)
      as (_ & _ & T & C & K).
    pose proof (check_modules_sizes _ _ _ _ _ _ _ H) as (_ & N & D & _).
    pose proof (check_modules_policy _ _ _ _ _ _ _ H) as P.
    cbn [totalFSSize totalFSSizeLimit totalNumberOfFiles
         totalNumberOfDebians modules] in T, C, K, N, D, P.
    rewrite Hmods in K, P.
    exists entry, v, n, ml.
    split; [reflexivity|]. split; [exact Hv|]. split; [exact Hn|].
    split; [reflexivity|]. split; [exact C|].
    split; [rewrite T; exact Htot|].
    split; [rewrite N; unfold d0; destruct du; reflexivity|].
    split; [rewrite D; unfold d0; destruct du; reflexivity|].
    split; [exact K|].
    intros k m Hk. destruct (P k m Hk) as (m' & Hm' & Hs & Hp).
    exists m'. split; [exact Hm'|]. split; [exact Hs|].
    apply Hp. left. rewrite <- K. eapply odict_get_in_keys, Hm'.
  - intros entry v n ml He Hv Hn Htotal Hml Hall.
    rewrite He.
    change (match entry with
            | Scalar v0 => Some v0
            | PerLayer by_layer =>
                match ODict.get filesystem by_layer with
                | Some v0 => Some v0
                | None => ODict.get "others" by_layer
                end
            end) with (resolve filesystem entry).
    rewrite Hv, Hn, Hml. cbn [totalFSSize modules].
    rewrite Htot, Hmods.
    assert (Hpass : forall k, In k (ODict.keys (modules on_disk)) ->
              module_passes filesystem ml k
                (Size_dict (measured_total on_disk du) (LimitValue n)
                   (totalNumberOfFiles d0) (totalNumberOfDebians d0)
                   (modules on_disk))).
    { intros k Hk. exact (Hall k Hk). }
    destruct (Z.gtb_spec (measured_total on_disk du) n) as [Hgt|Hle].
    + rewrite raise_issue_cases.
      destruct Htotal as [->|Htotal]; [|lia].
      apply check_modules_completes. exact Hpass.
    + apply check_modules_completes. exact Hpass.
  - intros entry v n Hfatal He Hv Hn Hgt.
    rewrite He.
    change (match entry with
            | Scalar v0 => Some v0
            | PerLayer by_layer =>
                match ODict.get filesystem by_layer with
                | Some v0 => Some v0
                | None => ODict.get "others" by_layer
                end
            end) with (resolve filesystem entry).
    rewrite Hv, Hn. cbn [totalFSSize]. rewrite Htot.
    destruct (Z.gtb_spec (measured_total on_disk du) n) as [_|Hle]; [|lia].
    rewrite raise_issue_cases, Hfatal. eauto.
Qed.


(** C6 (amended): a budget-policy error is raised through [raise_issue],
    like an exceeded limit: it ends the process unless
    NV_ERROR_ON_FS_SIZE_LIMITS is ['false'], and is then a logged warning
    after which the run returns at once, without writing the ledger. This
    holds for a missing [maxFSSize], a missing entry for the layer, a missing
    [modules] section, a module without entry or without entry for the
    layer, and an absolute module limit on a layer that extends a base. (A
    limit value without byte unit is no such error: it ends the process
    whatever the environment says.) *)
Theorem policy_errors_follow_severity (limits : size_limits)
    (on_disk : size_dict) (du : option Z) (filesystem : string) :
  (maxFSSize limits = None
   \/ (exists entry, maxFSSize limits = Some entry
                     /\ resolve filesystem entry = None) ->
   exists message,
     check_target_size_manifest limits on_disk du filesystem
     = if downgraded then ([message], Ok None)
       else ([], Raise (SystemExit message)))
  /\ (forall entry v n,
        maxFSSize limits = Some entry ->
        resolve filesystem entry = Some v ->
        getIntValue size_limits_file v = Ok n ->
        measured_total on_disk du <= n ->
        modules_limits limits = None ->
        exists message,
          check_target_size_manifest limits on_disk du filesystem
          = if downgraded then ([message], Ok None)
            else ([], Raise (SystemExit message)))
  /\ (forall ml module rest d log m,
        ODict.get module (modules d) = Some m ->
        ODict.get module ml = None
        \/ (exists entry, ODict.get module ml = Some entry
                          /\ resolve filesystem entry = None)
        \/ (exists entry v, ODict.get module ml = Some entry
                            /\ resolve filesystem entry = Some v
                            /\ uses_base = true
                            /\ PyStr.startswith "+" v = false) ->
        exists message,
          check_modules filesystem ml (module :: rest) d log
          = if downgraded then (log ++ [message], Ok None)
            else (log, Raise (SystemExit message)))
  /\ (forall entry v,
        maxFSSize limits = Some entry ->
        resolve filesystem entry = Some v ->
        has_unit v = false ->
        exists message,
          check_target_size_manifest limits on_disk du filesystem
          = ([], Raise (SystemExit message))).
Proof.
  split; [|split; [|split]].
  - unfold Enforce.check_target_size_manifest.
    intros [Hnone|(entry & He & Hv)].
    + rewrite Hnone, issue_and_return_cases. eexists. reflexivity.
    + rewrite He.
      change (match entry with
              | Scalar v0 => Some v0
              | PerLayer by_layer =>
                  match ODict.get filesystem by_layer with
                  | Some v0 => Some v0
                  | None => ODict.get "others" by_layer
                  end
              end) with (resolve filesystem entry).
      rewrite Hv, issue_and_return_cases. eexists. reflexivity.
  - unfold Enforce.check_target_size_manifest.
    intros entry v n He Hv Hn Hle Hml. rewrite He.
    change (match entry with
            | Scalar v0 => Some v0
            | PerLayer by_layer =>
                match ODict.get filesystem by_layer with
                | Some v0 => Some v0
                | None => ODict.get "others" by_layer
                end
            end) with (resolve filesystem entry).
    rewrite Hv, Hn, Hml. cbn [totalFSSize].
    replace (totalFSSize match du with
                         | Some measured => _
                         | None => on_disk
                         end) with (measured_total on_disk du)
      by (unfold measured_total; destruct du; reflexivity).
    destruct (Z.gtb_spec (measured_total on_disk du) n) as [Hgt|_]; [lia|].
    rewrite issue_and_return_cases. eexists. reflexivity.
  - intros ml module rest d log m Hm Hcase.
    cbn [Enforce.check_modules]. rewrite Hm.
    destruct Hcase as [Hnone|[(entry & He & Hv)|(entry & v & He & Hv & Hb & Hp)]].
    + rewrite Hnone, issue_and_return_cases. eexists. reflexivity.
    + rewrite He.
      change (match entry with
              | Scalar v0 => Some v0
              | PerLayer by_layer =>
                  match ODict.get filesystem by_layer with
                  | Some v0 => Some v0
                  | None => ODict.get "others" by_layer
                  end
              end) with (resolve filesystem entry).
      rewrite Hv, issue_and_return_cases. eexists. reflexivity.
    + rewrite He.
      change (match entry with
              | Scalar v0 => Some v0
              | PerLayer by_layer =>
                  match ODict.get filesystem by_layer with
                  | Some v0 => Some v0
                  | None => ODict.get "others" by_layer
                  end
              end) with (resolve filesystem entry).
      rewrite Hv, Hb, Hp. cbn [andb negb].
      rewrite issue_and_return_cases. eexists. reflexivity.
  - unfold Enforce.check_target_size_manifest.
    intros entry v He Hv Hunit. rewrite He.
    change (match entry with
            | Scalar v0 => Some v0
            | PerLayer by_layer =>
                match ODict.get filesystem by_layer with
                | Some v0 => Some v0
                | None => ODict.get "others" by_layer
                end
            end) with (resolve filesystem entry).
    rewrite Hv. unfold getIntValue. fold (has_unit v). rewrite Hunit.
    eexists. reflexivity.
Qed.

End EnforceFacts.

(** C5 (as stated, refuted): with the default severity, a ledger whose total
    of 1000 bytes exceeds the limit of 500 bytes ends the run in [sys.exit];
    nothing is written. *)
Lemma ledger_not_written_on_fatal_exit :
  exists message,
    Enforce.check_target_size_manifest None "limits.yaml" false ""
      (Enforce.Size_limits (Some (Enforce.Scalar "500 bytes"))
         (Some [("modx", Enforce.Scalar "1000 bytes")]))
      (Ledger.Size_dict 1000 Ledger.LimitUnknown 2 None
         [("modx", Ledger.Module_entry 600 Ledger.LimitUnknown 2 None None ∅)])
      None "rootfs"
    = ([], Raise (SystemExit message)).
Proof. eexists. vm_compute. reflexivity. Qed.

Lemma ledger_written_when_run_completes_witness :
  let limits :=
    Enforce.Size_limits (Some (Enforce.Scalar "500 bytes"))
      (Some [("modx", Enforce.Scalar "1000 bytes")]) in
  let on_disk :=
    Ledger.Size_dict 1000 Ledger.LimitUnknown 2 None
      [("modx", Ledger.Module_entry 600 Ledger.LimitUnknown 2 None None ∅)] in
  (exists log d m,
     Enforce.check_target_size_manifest (Some "false") "limits.yaml" false ""
       limits on_disk None "rootfs" = (log, Ok (Some d))
     /\ Ledger.totalFSSizeLimit d = Ledger.LimitValue 500
     /\ Ledger.totalFSSize d = 1000
     /\ Ledger.totalNumberOfFiles d = 2
     /\ ODict.get "modx" (Ledger.modules d) = Some m
     /\ Ledger.moduleSizeLimit m = Ledger.LimitValue 1000
     /\ Ledger.moduleSize m = 600)
  /\ (exists message,
        Enforce.check_target_size_manifest None "limits.yaml" false ""
          limits on_disk None "rootfs" = ([], Raise (SystemExit message))).
Proof.
  intros limits on_disk. split.
  - assert (Hrun : exists log d,
               Enforce.check_target_size_manifest (Some "false")
                 "limits.yaml" false "" limits on_disk None "rootfs"
               = (log, Ok (Some d))).
    { apply (proj1 (proj2 (ledger_written_when_run_completes (Some "false")
                             "limits.yaml" false "" limits on_disk None
                             "rootfs"))
               (Enforce.Scalar "500 bytes") "500 bytes" 500
               [("modx", Enforce.Scalar "1000 bytes")]).
      + reflexivity.
      + reflexivity.
      + vm_compute. reflexivity.
      + left. reflexivity.
      + reflexivity.
      + intros k [<-|[]].
        exists (Ledger.Module_entry 600 Ledger.LimitUnknown 2 None None ∅),
          (Enforce.Scalar "1000 bytes"), "1000 bytes", 1000.
        repeat split; try (vm_compute; reflexivity).
        left. reflexivity. }
    destruct Hrun as (log & d & Hrun).
    destruct (proj1 (ledger_written_when_run_completes (Some "false")
                       "limits.yaml" false "" limits on_disk None "rootfs")
                log d Hrun)
      as (entry & v & n & ml & He & Hv & Hn & Hml & Hlim & Htot & Hfiles
          & _ & _ & Hmods).
    injection He as <-. injection Hv as <-. injection Hml as <-.
    assert (n = 500) as -> by (vm_compute in Hn; congruence).
    destruct (Hmods "modx" _ eq_refl)
      as (m & Hget & (Hsize & _) & (entry & v & n & He & Hv & Hn' & Hm)).
    injection He as <-. injection Hv as <-.
    assert (n = 1000) as -> by (vm_compute in Hn'; congruence).
    exists log, d, m. split; [exact Hrun|]. split; [exact Hlim|].
    split; [exact Htot|]. split; [exact Hfiles|]. split; [exact Hget|].
    split; [exact Hm|exact Hsize].
  - apply (proj2 (proj2 (ledger_written_when_run_completes None
                           "limits.yaml" false "" limits on_disk None
                           "rootfs"))
             (Enforce.Scalar "500 bytes") "500 bytes" 500).
    + reflexivity.
    + reflexivity.
    + reflexivity.
    + vm_compute. reflexivity.
    + vm_compute. reflexivity.
Defined.

(** C6 (as stated, refuted): with NV_ERROR_ON_FS_SIZE_LIMITS set to
    ['false'], a limits file without [maxFSSize] (a missing policy entry)
    gives a warning and the run returns: the error is not fatal. *)
Lemma policy_error_downgraded_to_warning :
  Enforce.check_target_size_manifest (Some "false") "limits.yaml" false ""
    (Enforce.Size_limits None None)
    (Ledger.Size_dict 1000 Ledger.LimitUnknown 2 None []) None "rootfs"
  = (["The max size of filesystems has not been defined in limits.yaml. "
      +:+ "Please define this using the 'maxFSSize' key and try again."],
     Ok None).
Proof. vm_compute. reflexivity. Qed.

Lemma policy_errors_follow_severity_witness :
  (exists message,
     Enforce.check_target_size_manifest (Some "false") "limits.yaml" false ""
       (Enforce.Size_limits None None)
       (Ledger.Size_dict 1000 Ledger.LimitUnknown 2 None []) None "rootfs"
     = ([message], Ok None))
  /\ (exists message,
        Enforce.check_target_size_manifest (Some "false") "limits.yaml" false
          "" (Enforce.Size_limits (Some (Enforce.Scalar "500")) None)
          (Ledger.Size_dict 1000 Ledger.LimitUnknown 2 None []) None "rootfs"
        = ([], Raise (SystemExit message))).
Proof.
  split.
  - apply (proj1 (policy_errors_follow_severity (Some "false") "limits.yaml"
                    false "" (Enforce.Size_limits None None)
                    (Ledger.Size_dict 1000 Ledger.LimitUnknown 2 None [])
                    None "rootfs")).
    left. reflexivity.
  - apply (proj2 (proj2 (proj2
             (policy_errors_follow_severity (Some "false") "limits.yaml"
                false "" (Enforce.Size_limits (Some (Enforce.Scalar "500"))
                            None)
                (Ledger.Size_dict 1000 Ledger.LimitUnknown 2 None [])
                None "rootfs")))
             (Enforce.Scalar "500") "500").
    + reflexivity.
    + reflexivity.
    + vm_compute. reflexivity.
Defined.

(** ** The recursive update of mappings *)

Section DeepUpdate.
Import Manifest.

Lemma deep_dict_update_unfold (d1 d2 : json) (list_action : string) :
  deep_dict_update d1 d2 list_action
  = match d2 with
    | JDict fields2 =>
        match d1 with
        | JDict fields1 =>
            update_items (fun old v => deep_dict_update old v "replace")
              list_action fields2 fields1
        | _ => Ok d2
        end
    | _ => raise_error_and_exit "deep_dict_update: Non dict update value."
    end.
Proof. destruct d2; reflexivity. Qed.




End DeepUpdate.

(** ** The Manifest Merger *)

Section ManifestFacts.
Import Manifest.

Variable get_full_mirrors : json -> outcome json.
Variable get_full_cpt : json -> outcome json.
Variable full_debian_manifest : json.

Local Abbreviation merge_with_parent :=
  (merge_with_parent get_full_mirrors get_full_cpt full_debian_manifest).
Local Abbreviation convert_to_manifest :=
  (convert_to_manifest get_full_mirrors get_full_cpt full_debian_manifest).

Lemma get_ok (field : string) (data : list (string * json)) (v : json) :
  get field data = Ok v <-> ODict.get field data = Some v.
Proof.
  unfold get. destruct (ODict.get field data); split; congruence.
Qed.

Ltac step_obind :=
  match goal with
  | |- obind ?o _ = Ok _ -> _ =>
      let E := fresh "E" in
      destruct o eqn:E; cbn [obind]; [|discriminate]
  end.

Lemma merge_with_parent_base (old own manifest result : list (string * json)) :
  merge_with_parent old own manifest = Ok result ->
  ODict.get "Base" result = ODict.get "Base" old
  /\ ODict.get "OS" result = ODict.get "OS" old.
Proof.
  unfold Manifest.merge_with_parent.
  destruct (get "OS" old) as [os|] eqn:Eos; cbn [obind]; [|discriminate].
  destruct (get "Base" old) as [base|] eqn:Ebase; cbn [obind];
    [|discriminate].
  repeat step_obind. intros [= <-].
  apply get_ok in Eos, Ebase. rewrite Eos, Ebase.
  split.
  - repeat (rewrite odict_get_set_ne by discriminate).
    apply odict_get_set_eq.
  - repeat (rewrite odict_get_set_ne by discriminate).
    apply odict_get_set_eq.
Qed.


(** C7 (amended): when a manifest to start from exists (the parent layer's
    frozen manifest for a layer whose base is a layer config), the [Base] and
    the [OS] of the manifest written are those recorded in that manifest:
    the [Base] of the parent's manifest, not the path of that manifest and
    not the base that the layer itself declares. The same holds for the QNX
    manifests. *)
Theorem manifest_base_is_parent_manifest_base (files files' : store)
    (own old : list (string * json)) (old_mf json_manifest_file : string) :
  old_mf <> "" ->
  (parse files old_mf = Ok old ->
   convert_to_manifest files own (Some old_mf) json_manifest_file = Ok files' ->
   exists manifest,
     files' !! json_manifest_file = Some (JDict manifest)
     /\ ODict.get "Base" manifest = ODict.get "Base" old
     /\ ODict.get "OS" manifest = ODict.get "OS" old)
  /\ (qnx_parse files old_mf = Ok old ->
      qnx_convert_to_manifest files own (Some old_mf) json_manifest_file
      = Ok files' ->
      exists manifest,
        files' !! json_manifest_file = Some (JDict manifest)
        /\ ODict.get "Base" manifest = ODict.get "Base" old).
Proof.
  intros Hne. apply String.eqb_neq in Hne. split.
  - intros Hparse. unfold Manifest.convert_to_manifest.
    do 4 step_obind. rewrite Hne, Hparse. cbn [obind].
    destruct (merge_with_parent old own _) as [manifest|] eqn:Hm;
      cbn [obind]; [|discriminate].
    intros [= <-]. exists manifest. rewrite lookup_insert_eq.
    split; [reflexivity|].
    exact (merge_with_parent_base _ _ _ _ Hm).
  - intros Hparse. unfold qnx_convert_to_manifest.
    rewrite Hne, Hparse. unfold obind.
    destruct (get "CopyTargets" old) as [l1|]; [|discriminate].
    destruct (get "CopyTargets" own) as [l2|]; [|discriminate].
    destruct (concat l1 l2) as [l|]; [|discriminate].
    destruct (get "Base" old) as [base|] eqn:Ebase; [|discriminate].
    intros [= <-]. eexists. rewrite lookup_insert_eq.
    split; [reflexivity|].
    apply get_ok in Ebase. rewrite Ebase. apply odict_get_set_eq.
Qed.

End ManifestFacts.

(** C7 (as stated, refuted): a layer [app] whose base is the layer config
    of [base], itself built on an archive. The manifest of [base] is
    [out/base.MANIFEST.json]; the [Base] written to the manifest of [app] is
    the archive recorded there, not that path. *)
Lemma manifest_base_counterexample :
  let files : Manifest.store :=
    {[ "out/base.MANIFEST.json" :=
         Manifest.JDict [("Output", Manifest.JStr "base");
                         ("OS", Manifest.JStr "linux");
                         ("Base", Manifest.JStr "/sdk/base.tar.bz2")] ]} in
  let own :=
    Manifest.init_default
      [("Output", Manifest.JStr "app"); ("OS", Manifest.JStr "linux");
       ("Base", Manifest.JStr "base.CONFIG.json")] in
  let written :=
    got ∅ (Manifest.convert_to_manifest (fun m => Ok m) (fun c => Ok c)
             (Manifest.JList []) files own (Some "out/base.MANIFEST.json")
             "out/app.MANIFEST.json") in
  let base :=
    match written !! "out/app.MANIFEST.json" with
    | Some (Manifest.JDict manifest) => ODict.get "Base" manifest
    | _ => None
    end in
  base = Some (Manifest.JStr "/sdk/base.tar.bz2")
  /\ base <> Some (Manifest.JStr "out/base.MANIFEST.json").
Proof. vm_compute. split; [reflexivity | discriminate]. Qed.

Lemma manifest_base_is_parent_manifest_base_witness :
  let files : Manifest.store :=
    {[ "out/base.MANIFEST.json" :=
         Manifest.JDict [("Output", Manifest.JStr "base");
                         ("OS", Manifest.JStr "linux");
                         ("Base", Manifest.JStr "/sdk/base.tar.bz2")] ]} in
  let own :=
    Manifest.init_default
      [("Output", Manifest.JStr "app"); ("OS", Manifest.JStr "linux");
       ("Base", Manifest.JStr "base.CONFIG.json")] in
  let old := got [] (Manifest.parse files "out/base.MANIFEST.json") in
  let written :=
    got ∅ (Manifest.convert_to_manifest (fun m => Ok m) (fun c => Ok c)
             (Manifest.JList []) files own (Some "out/base.MANIFEST.json")
             "out/app.MANIFEST.json") in
  exists manifest,
    written !! "out/app.MANIFEST.json" = Some (Manifest.JDict manifest)
    /\ ODict.get "Base" manifest = ODict.get "Base" old
    /\ ODict.get "OS" manifest = ODict.get "OS" old.
Proof.
  intros files own old written.
  apply (proj1 (manifest_base_is_parent_manifest_base (fun m => Ok m)
                  (fun c => Ok c) (Manifest.JList []) files written own old
                  "out/base.MANIFEST.json" "out/app.MANIFEST.json"
                  ltac:(discriminate))).
  - apply got_ok. vm_compute. reflexivity.
  - apply got_ok. vm_compute. reflexivity.
Defined.

(** *** Merge laws *)

Section MergeLaws.
Import Manifest.

Lemma set_of_strings (l : list string) :
  forall acc : gmap (option (Z + string)) json,
    (forall k v, acc !! k = Some v ->
                 exists s, k = Some (inr s) /\ v = JStr s) ->
    exists elements,
      set_of (map JStr l) acc = Some elements
      /\ (forall k v, elements !! k = Some v ->
                      exists s, k = Some (inr s) /\ v = JStr s)
      /\ forall s, is_Some (elements !! Some (inr s))
                   <-> is_Some (acc !! Some (inr s)) \/ s ∈ l.
Proof.
  induction l as [|s0 l IH]; intros acc Hacc; cbn [map set_of hash_key].
  - exists acc. split; [reflexivity|]. split; [exact Hacc|].
    intros s. rewrite elem_of_nil. tauto.
  - set (acc' := match acc !! Some (inr s0) with
                 | Some _ => acc
                 | None => <[Some (inr s0) := JStr s0]> acc
                 end).
    assert (Hacc' : forall k v, acc' !! k = Some v ->
                                exists s, k = Some (inr s) /\ v = JStr s).
    { intros k v. unfold acc'.
      destruct (acc !! Some (inr s0)); [apply Hacc|].
      intros H. apply lookup_insert_Some in H as [[<- <-]|[_ H]];
        [eauto|apply Hacc, H]. }
    destruct (IH acc' Hacc') as (elements & Hrun & Hinv & Hmem).
    exists elements. split; [exact Hrun|]. split; [exact Hinv|].
    intros s. rewrite Hmem, elem_of_cons. unfold acc'.
    destruct (acc !! Some (inr s0)) as [v0|] eqn:E0.
    + split; [tauto|]. intros [H|[->|H]]; auto.
    + destruct (decide (s = s0)) as [->|Hne].
      * rewrite lookup_insert_eq. split; [auto|]. intros _. left. eauto.
      * rewrite lookup_insert_ne by congruence. split; [tauto|].
        intros [H|[H|H]]; [auto|congruence|auto].
Qed.

(** The union of two lists of paths. *)
Lemma merge_paths_strings (parent child : list string) :
  exists merged,
    merge_paths (JList (map JStr parent)) (JList (map JStr child))
    = Ok (JList (map JStr merged))
    /\ NoDup merged
    /\ forall x, x ∈ merged <-> x ∈ parent \/ x ∈ child.
Proof.
  unfold merge_paths. cbn [concat obind iterate].
  rewrite <- map_app.
  destruct (set_of_strings (parent ++ child) ∅) as (elements & Hrun & Hinv & Hmem).
  { intros k v H. rewrite lookup_empty in H. discriminate. }
  rewrite Hrun.
  set (name := fun kv : option (Z + string) * json =>
                 match kv.1 with
                 | Some (inr s) => s
                 | _ => EmptyString
                 end).
  exists (map name (map_to_list elements)).
  assert (Hentry : forall kv, kv ∈ map_to_list elements ->
                              kv = (Some (inr (name kv)), JStr (name kv))).
  { intros [k v] Hin. apply elem_of_map_to_list in Hin.
    destruct (Hinv k v Hin) as (s & -> & ->). reflexivity. }
  split; [|split].
  - f_equal. f_equal. rewrite map_map. apply map_ext_in.
    intros kv Hin. apply list_elem_of_In in Hin.
    rewrite (Hentry kv Hin) at 1. reflexivity.
  - apply NoDup_fmap_2_strong; [|apply NoDup_map_to_list].
    intros kv1 kv2 H1 H2 Heq.
    rewrite (Hentry kv1 H1), (Hentry kv2 H2), Heq. reflexivity.
  - intros x. rewrite <- elem_of_app.
    assert (Hx : x ∈ parent ++ child
                 <-> is_Some (elements !! Some (inr x))).
    { rewrite Hmem, lookup_empty. split; [auto|].
      intros [[v Hv]|H]; [discriminate|exact H]. }
    rewrite Hx. split.
    + intros Hin. apply list_elem_of_fmap in Hin as (kv & -> & Hin).
      pose proof (Hentry kv Hin) as Hkv. rewrite Hkv in Hin.
      apply elem_of_map_to_list in Hin. eauto.
    + intros [v Hv].
      destruct (Hinv _ _ Hv) as (s & [= <-] & ->).
      apply list_elem_of_fmap. exists (Some (inr x), JStr x).
      split; [reflexivity|]. apply elem_of_map_to_list. exact Hv.
Qed.

Lemma membership_fields_get (user : string)
    (m : list (string * list string)) :
  ODict.get user (membership_fields m)
  = match ODict.get user m with
    | Some groups => Some (JList (map JStr groups))
    | None => None
    end.
Proof.
  induction m as [|[u gs] m IH]; [reflexivity|].
  cbn [membership_fields map ODict.get fst snd].
  destruct (String.eqb u user); [reflexivity|exact IH].
Qed.

Lemma membership_fields_set (user : string) (groups : list string)
    (m : list (string * list string)) :
  ODict.set user (JList (map JStr groups)) (membership_fields m)
  = membership_fields (ODict.set user groups m).
Proof.
  induction m as [|[u gs] m IH]; [reflexivity|].
  cbn [membership_fields map ODict.set fst snd].
  destruct (String.eqb u user); [reflexivity|].
  cbn [map fst snd]. f_equal. exact IH.
Qed.

(** The groups of a user after the merge. *)
Lemma update_items_memberships (rec : json -> json -> outcome json)
    (child : list (string * list string)) :
  forall parent,
    update_items rec "append" (membership_fields child)
      (membership_fields parent)
    = Ok (memberships
            (fold_left
               (fun acc entry =>
                  ODict.set (fst entry)
                    (match ODict.get (fst entry) acc with
                     | Some groups => groups ++ snd entry
                     | None => snd entry
                     end) acc)
               child parent)).
Proof.
  induction child as [|[user groups2] rest IH]; intros parent;
    [reflexivity|].
  cbn [membership_fields map fst snd update_items fold_left].
  rewrite membership_fields_get.
  destruct (ODict.get user parent) as [groups1|].
  - cbn [String.eqb Ascii.eqb Bool.eqb]. rewrite <- map_app.
    rewrite membership_fields_set. apply IH.
  - rewrite membership_fields_set. apply IH.
Qed.

Lemma odict_get_none {V} (k : string) (d : list (string * V)) :
  ~ In k (map fst d) -> ODict.get k d = None.
Proof.
  intros H. destruct (ODict.get k d) as [v|] eqn:E; [|reflexivity].
  exfalso. apply H. eapply odict_get_in_keys, E.
Qed.

Lemma merged_groups (child : list (string * list string)) :
  forall parent,
    NoDup (map fst child) ->
    let merged :=
      fold_left
        (fun acc entry =>
           ODict.set (fst entry)
             (match ODict.get (fst entry) acc with
              | Some groups => groups ++ snd entry
              | None => snd entry
              end) acc)
        child parent in
    (forall user groups2,
       ODict.get user child = Some groups2 ->
       ODict.get user merged
       = Some (match ODict.get user parent with
               | Some groups1 => groups1 ++ groups2
               | None => groups2
               end))
    /\ (forall user, ODict.get user child = None ->
                     ODict.get user merged = ODict.get user parent).
Proof.
  induction child as [|[user0 groups0] rest IH]; intros parent Hnd;
    cbn [fold_left fst snd].
  - cbv zeta. split; [discriminate|reflexivity].
  - cbn [map fst] in Hnd. apply NoDup_cons in Hnd as [Hnotin Hnd].
    rewrite list_elem_of_In in Hnotin.
    destruct (IH (ODict.set user0
                    (match ODict.get user0 parent with
                     | Some groups => groups ++ groups0
                     | None => groups0
                     end) parent) Hnd) as [Hin Hout].
    cbv zeta in *. split.
    + intros user groups2. cbn [ODict.get].
      destruct (String.eqb_spec user0 user) as [<-|Hne].
      * intros [= <-]. rewrite Hout by (apply odict_get_none, Hnotin).
        apply odict_get_set_eq.
      * intros H. rewrite (Hin user groups2 H).
        rewrite odict_get_set_ne by exact Hne. reflexivity.
    + intros user. cbn [ODict.get].
      destruct (String.eqb_spec user0 user) as [<-|Hne]; [discriminate|].
      intros H. rewrite (Hout user H). apply odict_get_set_ne, Hne.
Qed.

(** C9: the merged [FilesystemCleanup] lists every path of the parent or
    of the child once; and the memberships of parent and child, merged
    under the policy ["append"], are again memberships, in which a user of
    the child has the groups of the parent followed by those of the child,
    and every other user the groups of the parent. The lists of a membership
    mapping are the values of its users: there is no deeper level at which
    a list could stand. *)
Theorem merge_laws_for_cleanup_and_memberships :
  (forall parent child,
     exists merged,
       merge_paths (JList (map JStr parent)) (JList (map JStr child))
       = Ok (JList (map JStr merged))
       /\ NoDup merged
       /\ forall x, x ∈ merged <-> x ∈ parent \/ x ∈ child)
  /\ (forall parent child : list (string * list string),
        NoDup (map fst child) ->
        exists merged,
          deep_dict_update (memberships parent) (memberships child) "append"
          = Ok (memberships merged)
          /\ (forall user groups2,
                ODict.get user child = Some groups2 ->
                ODict.get user merged
                = Some (match ODict.get user parent with
                        | Some groups1 => groups1 ++ groups2
                        | None => groups2
                        end))
          /\ (forall user, ODict.get user child = None ->
                           ODict.get user merged = ODict.get user parent)).
Proof.
  split; [intros parent child; apply merge_paths_strings|].
  intros parent child Hnd. eexists. split.
  - unfold memberships at 1 2. rewrite deep_dict_update_unfold.
    apply update_items_memberships.
  - exact (merged_groups child parent Hnd).
Qed.


(** The examples of the specification: the cleanup paths as a set, and the
    memberships of one user. *)
Lemma merge_laws_examples :
  (exists merged,
     merge_paths (JList [JStr "/a"; JStr "/b"]) (JList [JStr "/b"; JStr "/c"])
     = Ok (JList (map JStr merged))
     /\ (list_to_set merged : gset string) = {[ "/a"; "/b"; "/c" ]})
  /\ deep_dict_update (JDict [("u", JList [JStr "g1"])])
       (JDict [("u", JList [JStr "g2"])]) "append"
     = Ok (JDict [("u", JList [JStr "g1"; JStr "g2"])]).
Proof.
  split; [|vm_compute; reflexivity].
  destruct (merge_paths_strings ["/a"; "/b"] ["/b"; "/c"])
    as (merged & Hrun & _ & Hmem).
  exists merged. split; [exact Hrun|].
  apply set_eq. intros x. rewrite elem_of_list_to_set, Hmem.
  rewrite !elem_of_cons, !elem_of_nil, !elem_of_union, !elem_of_singleton.
  tauto.
Qed.

End MergeLaws.

Lemma merge_laws_for_cleanup_and_memberships_witness :
  exists merged,
    Manifest.deep_dict_update
      (Manifest.memberships [("u", ["g1"]); ("w", ["g0"])])
      (Manifest.memberships [("u", ["g2"])]) "append"
    = Ok (Manifest.memberships merged)
    /\ ODict.get "u" merged = Some ["g1"; "g2"]
    /\ ODict.get "w" merged = Some ["g0"].
Proof.
  destruct (proj2 merge_laws_for_cleanup_and_memberships
              [("u", ["g1"]); ("w", ["g0"])] [("u", ["g2"])]
              (NoDup_cons_2 _ _ (not_elem_of_nil _) (NoDup_nil_2)))
    as (merged & Hrun & Hin & Hout).
  exists merged. split; [exact Hrun|]. split.
  - exact (Hin "u" ["g2"] eq_refl).
  - exact (Hout "w" eq_refl).
Defined.

(** *** Attribution of packages to modules *)

Section PendingFacts.
Import Attributor.

Lemma dependencies_universe (installed : list (string * package_info)) k d :
  d ∈ dependencies installed k -> d ∈ universe installed.
Proof.
  unfold dependencies, universe.
  induction installed as [|[k' info] l IH]; simpl.
  - intros H. inversion H.
  - destruct (String.eqb k' k).
    + intros H. apply elem_of_app. left. exact H.
    + intros H. apply elem_of_app. right. apply IH, H.
Qed.

Lemma mem_keys {V} k (d : list (string * V)) :
  ODict.mem k d = true <-> k ∈ (list_to_set (ODict.keys d) : gset string).
Proof.
  rewrite elem_of_list_to_set, list_elem_of_In. split.
  - intros H. apply odict_mem_get in H as [v H].
    eapply odict_get_in_keys, H.
  - intros H. apply odict_mem_get, odict_in_keys_get, H.
Qed.

Lemma mem_false_keys {V} k (d : list (string * V)) :
  ODict.mem k d = false -> k ∉ (list_to_set (ODict.keys d) : gset string).
Proof. intros H Hin. apply mem_keys in Hin. congruence. Qed.

Lemma keys_set_new k (v : string) (d : list (string * string)) :
  ODict.mem k d = false ->
  (list_to_set (ODict.keys (ODict.set k v d)) : gset string)
  = {[ k ]} ∪ list_to_set (ODict.keys d).
Proof.
  intros H. rewrite (odict_keys_set_new _ _ _ H).
  rewrite list_to_set_app_L. simpl. set_solver.
Qed.

Lemma pending_set_new (installed : list (string * package_info)) d m
    (debian_module : list (string * string)) :
  d ∈ universe installed ->
  ODict.mem d debian_module = false ->
  (pending installed (ODict.set d m debian_module)
   < pending installed debian_module)%nat.
Proof.
  intros Hu Hm. unfold pending. rewrite (keys_set_new _ m _ Hm).
  apply subset_size. apply mem_false_keys in Hm.
  assert (Hd : d ∈ (list_to_set (universe installed) : gset string))
    by (apply elem_of_list_to_set, Hu).
  set_solver.
Qed.

Lemma grows_mem (installed : list (string * package_info))
    (d1 d2 : list (string * string)) k :
  grows installed d1 d2 -> ODict.mem k d1 = true -> ODict.mem k d2 = true.
Proof.
  intros Hg Hm. apply odict_mem_get in Hm as [v Hv].
  apply odict_mem_get. destruct (Hg _ _ Hv) as [H|[_ H]]; eauto.
Qed.

Lemma pending_grows (installed : list (string * package_info))
    (d1 d2 : list (string * string)) :
  grows installed d1 d2 ->
  (pending installed d2 <= pending installed d1)%nat.
Proof.
  intros Hg. unfold pending. apply subseteq_size.
  assert (H : (list_to_set (ODict.keys d1) : gset string)
              ⊆ list_to_set (ODict.keys d2)).
  { intros k Hk. apply mem_keys. apply mem_keys in Hk.
    eapply grows_mem; eauto. }
  set_solver.
Qed.

Lemma size_list_to_set_le (l : list string) :
  (base.size (list_to_set l : gset string) <= length l)%nat.
Proof.
  induction l as [|x l IH].
  - rewrite list_to_set_nil, size_empty. simpl. lia.
  - rewrite list_to_set_cons, size_union_alt, size_singleton. simpl.
    assert (base.size ((list_to_set l : gset string) ∖ {[x]})
            <= base.size (list_to_set l : gset string))%nat
      by (apply subseteq_size; set_solver).
    lia.
Qed.

Lemma pending_le (installed : list (string * package_info))
    (debian_module : list (string * string)) :
  (pending installed debian_module <= length (universe installed))%nat.
Proof.
  unfold pending.
  etransitivity; [|apply size_list_to_set_le].
  apply subseteq_size. set_solver.
Qed.

End PendingFacts.

Section AttributionFacts.
Import Attributor.

Variable installed : list (string * package_info).
(** The owners given on entry. *)
Variable seeds : list (string * string).

Local Abbreviation dm := (list (string * string)).
Local Abbreviation owners_from_seeds :=
  (owners_from_seeds installed seeds).
Local Abbreviation unknown_or_seed := (unknown_or_seed installed seeds).
Local Abbreviation closed_except := (closed_except installed).

Lemma updateDependsModule_S fuel debian (debian_module : dm) :
  updateDependsModule (S fuel) installed debian debian_module
  = match ODict.get debian installed with
    | None => Some (Ok (ODict.set debian "unknown" debian_module))
    | Some info =>
        match depends info with
        | None => Some (Ok debian_module)
        | Some depends =>
            each_dependent (updateDependsModule fuel installed) debian
              (parse_depends depends) debian_module
        end
    end.
Proof. reflexivity. Qed.

Lemma grows_refl (d : dm) : grows installed d d.
Proof. intros k m H. left. exact H. Qed.

Lemma grows_trans (d1 d2 d3 : dm) :
  grows installed d1 d2 -> grows installed d2 d3 -> grows installed d1 d3.
Proof.
  intros H12 H23 k m H. destruct (H12 _ _ H) as [H2|[Hn H2]].
  - apply H23, H2.
  - right. split; [exact Hn|].
    destruct (H23 _ _ H2) as [H3|[_ H3]]; exact H3.
Qed.

Lemma grows_set_new k v (d : dm) :
  ODict.mem k d = false -> grows installed d (ODict.set k v d).
Proof.
  intros Hm k' m H. left.
  destruct (String.eqb_spec k k') as [->|Hne].
  - unfold ODict.mem in Hm. rewrite H in Hm. discriminate.
  - rewrite odict_get_set_ne by exact Hne. exact H.
Qed.

Lemma closed_grows (d1 d2 : dm) k :
  grows installed d1 d2 -> closed installed d1 k -> closed installed d2 k.
Proof. intros Hg Hc d Hd. eapply grows_mem; eauto. Qed.

Lemma updateDependsModule_spec (fuel : nat) :
  forall (debian : string) (d : dm) (todo : string -> Prop),
    (pending installed d < fuel)%nat ->
    ODict.mem debian d = true ->
    owners_from_seeds d ->
    unknown_or_seed (Some debian) d ->
    closed_except (fun k => todo k \/ k = debian) d ->
    exists d',
      updateDependsModule fuel installed debian d = Some (Ok d')
      /\ grows installed d d'
      /\ (ODict.mem debian installed = false ->
          ODict.get debian d' = Some "unknown")
      /\ owners_from_seeds d'
      /\ unknown_or_seed None d'
      /\ closed_except todo d'.
Proof.
  induction fuel as [|fuel IH]; intros debian d todo Hfuel Hmem Hown Hunk Hcl;
    [lia|].
  rewrite updateDependsModule_S.
  destruct (ODict.get debian installed) as [info|] eqn:Hinst.
  - assert (Hi : ODict.mem debian installed = true)
      by (unfold ODict.mem; rewrite Hinst; reflexivity).
    assert (Hunk' : unknown_or_seed None d).
    { intros k m _ Hk Hn. apply (Hunk k m); [|exact Hk|exact Hn].
      intros [= ->]. congruence. }
    destruct (depends info) as [deps|] eqn:Hdeps.
    + assert (Hnames : dependencies installed debian = parse_depends deps)
        by (unfold dependencies; rewrite Hinst, Hdeps; reflexivity).
      assert (Hloop : forall names d1,
                 (forall x, x ∈ names -> x ∈ dependencies installed debian) ->
                 (pending installed d1 <= fuel)%nat ->
                 ODict.mem debian d1 = true ->
                 owners_from_seeds d1 ->
                 unknown_or_seed None d1 ->
                 closed_except (fun k => todo k \/ k = debian) d1 ->
                 exists d',
                   each_dependent (updateDependsModule fuel installed) debian
                     names d1 = Some (Ok d')
                   /\ grows installed d1 d'
                   /\ owners_from_seeds d'
                   /\ unknown_or_seed None d'
                   /\ closed_except (fun k => todo k \/ k = debian) d'
                   /\ forall x, x ∈ names -> ODict.mem x d' = true).
      { clear d Hfuel Hmem Hown Hunk Hcl Hunk'.
        induction names as [|dependent rest IHn];
          intros d1 Hin Hfuel Hmem Hown Hunk Hcl.
        - exists d1. split; [reflexivity|]. split; [apply grows_refl|].
          repeat split; try assumption. intros x Hx. inversion Hx.
        - cbn [each_dependent].
          destruct (ODict.mem dependent d1) eqn:Hdm.
          + destruct (IHn d1) as (d' & Hrun & Hg & Ho & Hu & Hc & Hall);
              try assumption.
            { intros x Hx. apply Hin. right. exact Hx. }
            exists d'. repeat split; try assumption.
            intros x Hx. apply elem_of_cons in Hx as [->|Hx].
            * eapply grows_mem; eauto.
            * apply Hall, Hx.
          + destruct (ODict.get debian d1) as [module|] eqn:Hget;
              [|unfold ODict.mem in Hmem; rewrite Hget in Hmem;
                discriminate].
            assert (Hdep : dependent ∈ dependencies installed debian)
              by (apply Hin; left).
            set (d2 := ODict.set dependent module d1).
            assert (Hg12 : grows installed d1 d2)
              by (apply grows_set_new, Hdm).
            destruct (IH dependent d2 (fun k => todo k \/ k = debian))
              as (d3 & Hrun3 & Hg3 & _ & Ho3 & Hu3 & Hc3).
            { pose proof (pending_set_new installed dependent module d1
                            (dependencies_universe _ _ _ Hdep) Hdm).
              fold d2 in H. lia. }
            { unfold d2. rewrite odict_mem_set, String.eqb_refl.
              reflexivity. }
            { intros k m Hk Hki. unfold d2 in Hk.
              destruct (String.eqb_spec dependent k) as [<-|Hne].
              - rewrite odict_get_set_eq in Hk. injection Hk as <-.
                eapply owned_dependency; [|exact Hdep|exact Hki].
                apply Hown; assumption.
              - rewrite odict_get_set_ne in Hk by exact Hne.
                apply Hown; assumption. }
            { intros k m Hne Hk Hn. unfold d2 in Hk.
              rewrite odict_get_set_ne in Hk by congruence.
              apply (Hunk k m); [discriminate|exact Hk|exact Hn]. }
            { intros k Hk Hnot. eapply closed_grows; [exact Hg12|].
              apply Hcl.
              - unfold d2 in Hk. rewrite odict_mem_set in Hk.
                destruct (String.eqb_spec dependent k) as [Heq|Hne];
                  [exfalso; apply Hnot; right; symmetry; exact Heq|exact Hk].
              - intros Ht. apply Hnot. left. exact Ht. }
            rewrite Hrun3.
            destruct (IHn d3) as (d' & Hrun & Hg & Ho & Hu & Hc & Hall);
              try assumption.
            { intros x Hx. apply Hin. right. exact Hx. }
            { pose proof (pending_grows _ _ _ Hg3).
              pose proof (pending_grows _ _ _ Hg12). lia. }
            { eapply grows_mem; [exact Hg3|].
              eapply grows_mem; [exact Hg12|exact Hmem]. }
            exists d'. split; [exact Hrun|]. split.
            { eapply grows_trans; [exact Hg12|].
              eapply grows_trans; [exact Hg3|exact Hg]. }
            repeat split; try assumption.
            intros x Hx. apply elem_of_cons in Hx as [->|Hx].
            * eapply grows_mem; [exact Hg|].
              eapply grows_mem; [exact Hg3|]. unfold d2.
              rewrite odict_mem_set, String.eqb_refl. reflexivity.
            * apply Hall, Hx. }
      destruct (Hloop (parse_depends deps) d)
        as (d' & Hrun & Hg & Ho & Hu & Hc & Hall); try assumption.
      { intros x Hx. rewrite Hnames. exact Hx. }
      { lia. }
      exists d'. split; [exact Hrun|]. split; [exact Hg|].
      split; [congruence|]. split; [exact Ho|]. split; [exact Hu|].
      intros k Hk Hnot. destruct (String.eqb_spec k debian) as [->|Hne].
      * intros x Hx. apply Hall. rewrite <- Hnames. exact Hx.
      * apply Hc; [exact Hk|]. intros [Ht|He]; [apply Hnot, Ht|apply Hne, He].
    + exists d. split; [reflexivity|]. split; [apply grows_refl|].
      split; [congruence|]. split; [exact Hown|]. split; [exact Hunk'|].
      intros k Hk Hnot. destruct (String.eqb_spec k debian) as [->|Hne].
      * intros x Hx. unfold dependencies in Hx.
        rewrite Hinst, Hdeps in Hx. inversion Hx.
      * apply Hcl; [exact Hk|].
        intros [Ht|He]; [apply Hnot, Ht|apply Hne, He].
  - assert (Hi : ODict.mem debian installed = false)
      by (unfold ODict.mem; rewrite Hinst; reflexivity).
    assert (Hg : grows installed d (ODict.set debian "unknown" d)).
    { intros k m Hk. destruct (String.eqb_spec debian k) as [<-|Hne].
      - right. split; [exact Hi|apply odict_get_set_eq].
      - left. rewrite odict_get_set_ne by exact Hne. exact Hk. }
    exists (ODict.set debian "unknown" d). split; [reflexivity|].
    split; [exact Hg|]. split; [intros _; apply odict_get_set_eq|].
    split; [|split].
    + intros k m Hk Hki. destruct (String.eqb_spec debian k) as [<-|Hne];
        [congruence|].
      rewrite odict_get_set_ne in Hk by exact Hne. apply Hown; assumption.
    + intros k m _ Hk Hn. destruct (String.eqb_spec debian k) as [<-|Hne].
      * rewrite odict_get_set_eq in Hk. injection Hk as <-. left.
        reflexivity.
      * rewrite odict_get_set_ne in Hk by exact Hne.
        apply (Hunk k m); [congruence|exact Hk|exact Hn].
    + intros k Hk Hnot. destruct (String.eqb_spec debian k) as [<-|Hne].
      * intros x Hx. unfold dependencies in Hx. rewrite Hinst in Hx.
        inversion Hx.
      * eapply closed_grows; [exact Hg|]. apply Hcl.
        -- rewrite odict_mem_set in Hk.
           destruct (String.eqb_spec debian k); [contradiction|exact Hk].
        -- intros [Ht|He]; [apply Hnot, Ht|apply Hne; symmetry; exact He].
Qed.

Lemma resolve_owners_spec (fuel : nat) :
  forall (names : list string) (d : dm),
    (pending installed d < fuel)%nat ->
    (forall s, s ∈ names -> ODict.mem s d = true) ->
    owners_from_seeds d ->
    unknown_or_seed None d ->
    closed_except (fun k => k ∈ names) d ->
    exists d',
      resolve_owners fuel installed names d = Some (Ok d')
      /\ grows installed d d'
      /\ (forall s, s ∈ names -> ODict.mem s installed = false ->
          ODict.get s d' = Some "unknown")
      /\ owners_from_seeds d'
      /\ unknown_or_seed None d'
      /\ forall k, ODict.mem k d' = true -> closed installed d' k.
Proof.
  induction names as [|s rest IH]; intros d Hfuel Hmem Hown Hunk Hcl.
  - exists d. split; [reflexivity|]. split; [apply grows_refl|].
    split; [intros s Hs; inversion Hs|]. split; [exact Hown|].
    split; [exact Hunk|]. intros k Hk. apply Hcl; [exact Hk|].
    intros Hin. inversion Hin.
  - cbn [resolve_owners].
    destruct (updateDependsModule_spec fuel s d (fun k => k ∈ rest))
      as (d1 & Hrun1 & Hg1 & Hs1 & Ho1 & Hu1 & Hc1); try assumption.
    { apply Hmem. left. }
    { intros k m _. apply Hunk. discriminate. }
    { intros k Hk Hnot. apply Hcl; [exact Hk|].
      intros Hin. apply Hnot. apply elem_of_cons in Hin as [->|Hin];
        [right; reflexivity|left; exact Hin]. }
    rewrite Hrun1.
    destruct (IH d1) as (d' & Hrun & Hg & Hs & Ho & Hu & Hc);
      try assumption.
    { pose proof (pending_grows _ _ _ Hg1). lia. }
    { intros x Hx. eapply grows_mem; [exact Hg1|]. apply Hmem. right.
      exact Hx. }
    exists d'. split; [exact Hrun|].
    split; [eapply grows_trans; eassumption|].
    split; [|auto].
    intros x Hx Hn. apply elem_of_cons in Hx as [->|Hx]; [|auto].
    destruct (Hg _ _ (Hs1 Hn)) as [H|[_ H]]; exact H.
Qed.

(** The first loop of [processDebianPackageManifest] ends, for every table
    of packages and every choice of seeds, with owners that extend the
    seeds. *)
Lemma resolve_owners_total (fuel : nat) :
  (length (universe installed) < fuel)%nat ->
  exists owners,
    resolve_owners fuel installed (ODict.keys seeds) seeds = Some (Ok owners)
    /\ (forall k m,
          ODict.get k seeds = Some m ->
          ODict.get k owners
          = Some (if ODict.mem k installed then m else "unknown"))
    /\ (forall k m,
          ODict.get k owners = Some m ->
          if ODict.mem k installed then owned installed seeds k m
          else m = "unknown")
    /\ (forall k d,
          ODict.mem k owners = true -> d ∈ dependencies installed k ->
          ODict.mem d owners = true).
Proof.
  intros Hfuel.
  destruct (resolve_owners_spec fuel (ODict.keys seeds) seeds)
    as (owners & Hrun & Hg & Hs & Ho & Hu & Hc).
  - pose proof (pending_le installed seeds). lia.
  - intros s Hs. apply odict_mem_get, odict_in_keys_get.
    apply list_elem_of_In, Hs.
  - intros k m Hk Hi. apply owned_seed; assumption.
  - intros k m _ Hk _. right. exact Hk.
  - intros k Hk Hnot. exfalso. apply Hnot.
    apply odict_mem_get in Hk as [v Hv].
    apply list_elem_of_In. eapply odict_get_in_keys, Hv.
  - assert (Hseed : forall k m,
               ODict.get k seeds = Some m ->
               ODict.get k owners
               = Some (if ODict.mem k installed then m else "unknown")).
    { intros k m Hk. destruct (ODict.mem k installed) eqn:Hi.
      - destruct (Hg _ _ Hk) as [H|[Hn _]]; [exact H|congruence].
      - apply Hs; [|exact Hi]. apply list_elem_of_In.
        eapply odict_get_in_keys, Hk. }
    exists owners. split; [exact Hrun|]. split; [exact Hseed|].
    split; [|intros k d Hk Hd; exact (Hc k Hk d Hd)].
    intros k m Hk. destruct (ODict.mem k installed) eqn:Hi.
    + apply Ho; assumption.
    + destruct (Hu k m) as [H|H]; try assumption; [discriminate|].
      pose proof (Hseed _ _ H) as Hk'. rewrite Hi, Hk in Hk'.
      congruence.
Qed.

End AttributionFacts.

Section RecordingFacts.
Import Attributor.

Variable normpath : string -> string.
Variable lstat_size : string -> outcome Z.
Variable isfile : string -> bool.
Variable include_debian_files : bool.
Variable work_dir : string.
Variable uses_base : bool.

Local Abbreviation record_packages :=
  (record_packages normpath lstat_size isfile include_debian_files work_dir
     uses_base).
Local Abbreviation processDebianPackageManifest :=
  (processDebianPackageManifest normpath lstat_size isfile
     include_debian_files work_dir uses_base).

Local Abbreviation in_base := (in_base uses_base).

Lemma record_packages_owners (base : list string) :
  forall packages owners self final self',
    record_packages base packages owners self = Ok (final, self') ->
    (forall k m, ODict.get k owners = Some m -> ODict.get k final = Some m)
    /\ forall p,
         ODict.mem p packages = true -> in_base base p = false ->
         ODict.get p final
         = Some (match ODict.get p owners with
                 | Some m => m
                 | None => "unknown"
                 end).
Proof.
  induction packages as [|[package info] rest IH];
    intros owners self final self' Hrun.
  - injection Hrun as <- <-. split; [auto|]. intros p Hp. discriminate.
  - cbn [Attributor.record_packages] in Hrun.
    fold (in_base base package) in Hrun.
    destruct (in_base base package) eqn:Hb.
    + destruct (IH _ _ _ _ Hrun) as [Hkeep Hall]. split; [exact Hkeep|].
      intros p Hp Hnb. apply Hall; [|exact Hnb].
      unfold ODict.mem in Hp |- *. cbn [ODict.get] in Hp.
      destruct (String.eqb_spec package p) as [->|Hne]; [congruence|].
      exact Hp.
    + set (owners1 := if ODict.mem package owners then owners
                      else ODict.set package "unknown" owners) in Hrun.
      assert (Hkeep1 : forall k m, ODict.get k owners = Some m ->
                                   ODict.get k owners1 = Some m).
      { intros k m Hk. unfold owners1.
        destruct (ODict.mem package owners) eqn:Hm; [exact Hk|].
        destruct (String.eqb_spec package k) as [->|Hne].
        - unfold ODict.mem in Hm. rewrite Hk in Hm. discriminate.
        - rewrite odict_get_set_ne by exact Hne. exact Hk. }
      assert (Hp1 : ODict.get package owners1
                    = Some (match ODict.get package owners with
                            | Some m => m
                            | None => "unknown"
                            end)).
      { unfold owners1, ODict.mem.
        destruct (ODict.get package owners) as [m|] eqn:Hg;
          [exact Hg|apply odict_get_set_eq]. }
      rewrite Hp1 in Hrun. unfold obind in Hrun.
      destruct (Ledger.addDebianPackage _ _ _ _ _ _ _ _ _ _)
        as [self1|e]; [|discriminate].
      destruct (IH _ _ _ _ Hrun) as [Hkeep Hall]. split; [auto|].
      intros p Hp Hnb. destruct (String.eqb_spec package p) as [<-|Hne].
      * apply Hkeep, Hp1.
      * rewrite Hall; [|unfold ODict.mem in Hp |- *; cbn [ODict.get] in Hp;
                        destruct (String.eqb_spec package p);
                        [contradiction|exact Hp]|exact Hnb].
        unfold owners1. destruct (ODict.mem package owners); [reflexivity|].
        rewrite odict_get_set_ne by exact Hne. reflexivity.
Qed.

(** C3, as the code has it: the traversal ends on every table of packages,
    cyclic ones included (a depth of recursion above the number of names in
    the [depends] fields is never reached). The owner of an installed
    package is never replaced, but a package that is not installed gets the
    owner ["unknown"], even when it was given one on entry or is a
    dependency of a seed. Every owner of an installed package is a seed's
    module that reached it through the [depends] of installed packages, and
    every dependency of a package with an owner has an owner. The second
    loop keeps the owners and gives ["unknown"] to every installed package
    without one, the packages of the base left aside. *)
Theorem attribution_closure_over_installed_packages
    (manifest : package_manifest) (seeds : list (string * string))
    (self : Ledger.records) (fuel : nat) :
  (length (universe (installed_packages manifest)) < fuel)%nat ->
  let installed := installed_packages manifest in
  exists owners,
    resolve_owners fuel installed (ODict.keys seeds) seeds = Some (Ok owners)
    /\ (forall k m,
          ODict.get k seeds = Some m ->
          ODict.get k owners
          = Some (if ODict.mem k installed then m else "unknown"))
    /\ (forall k m,
          ODict.get k owners = Some m ->
          if ODict.mem k installed then owned installed seeds k m
          else m = "unknown")
    /\ (forall k d,
          ODict.mem k owners = true -> d ∈ dependencies installed k ->
          ODict.mem d owners = true)
    /\ exists recorded,
         processDebianPackageManifest fuel manifest seeds self
         = Some recorded
         /\ forall final self',
              recorded = Ok (final, self') ->
              (forall k m,
                 ODict.get k owners = Some m -> ODict.get k final = Some m)
              /\ forall p,
                   ODict.mem p installed = true ->
                   in_base (base_packages manifest) p = false ->
                   ODict.get p final
                   = Some (match ODict.get p owners with
                           | Some m => m
                           | None => "unknown"
                           end).
Proof.
  intros Hfuel installed.
  destruct (resolve_owners_total installed seeds fuel Hfuel)
    as (owners & Hrun & Hseed & Hown & Hclosed).
  exists owners. split; [exact Hrun|]. split; [exact Hseed|].
  split; [exact Hown|]. split; [exact Hclosed|].
  unfold Attributor.processDebianPackageManifest.
  fold installed. rewrite Hrun.
  eexists. split; [reflexivity|].
  intros final self' Hrec.
  exact (record_packages_owners _ _ _ _ _ _ Hrec).
Qed.

End RecordingFacts.

(** The example of the specification, with D as it stands there (no entry
    of its own): D resolves to ["unknown"], not to ["core"]. And a seed that
    is not installed loses the module it was given. *)
Lemma attribution_counterexample :
  Attributor.resolve_owners 5 Attributor.example_without_d ["A"] [("A", "core")]
  = Some (Ok [("A", "core"); ("B", "core"); ("C", "core");
              ("D", "unknown")])
  /\ Attributor.resolve_owners 5 Attributor.example_without_d ["X"; "A"]
       [("X", "tools"); ("A", "core")]
     = Some (Ok [("X", "unknown"); ("A", "core"); ("B", "core");
                 ("C", "core"); ("D", "unknown")]).
Proof. split; vm_compute; reflexivity. Qed.

(** With D installed the example resolves as the specification has it, and
    a cycle of two packages ends. *)
Lemma attribution_examples :
  Attributor.resolve_owners 5 Attributor.example_with_d ["A"] [("A", "core")]
  = Some (Ok [("A", "core"); ("B", "core"); ("C", "core"); ("D", "core");
              ("E", "unknown")])
  /\ Attributor.resolve_owners 3 Attributor.example_cycle ["A"] [("A", "core")]
     = Some (Ok [("A", "core"); ("B", "core")]).
Proof. split; vm_compute; reflexivity. Qed.

Lemma attribution_closure_over_installed_packages_witness :
  (length (Attributor.universe Attributor.example_with_d) < 5)%nat
  /\ exists owners,
       Attributor.resolve_owners 5 Attributor.example_with_d ["A"] [("A", "core")]
       = Some (Ok owners)
       /\ ODict.get "A" owners = Some "core"
       /\ forall d,
            d ∈ Attributor.dependencies Attributor.example_with_d "A" ->
            ODict.mem d owners = true.
Proof.
  assert (Hfuel : (length (Attributor.universe Attributor.example_with_d) < 5)%nat)
    by (vm_compute; lia).
  split; [exact Hfuel|].
  destruct (attribution_closure_over_installed_packages
              (fun p => p) (fun _ => Ok 0) (fun _ => false) false "/" false
              (Attributor.Package_manifest Attributor.example_with_d [])
              [("A", "core")] (Ledger.fresh "size.yaml") 5 Hfuel)
    as (owners & Hrun & Hseed & _ & Hclosed & _).
  exists owners. split; [exact Hrun|].
  split; [exact (Hseed "A" "core" eq_refl)|].
  intros d Hd. apply (Hclosed "A" d); [|exact Hd].
  apply odict_mem_get. exists "core". exact (Hseed "A" "core" eq_refl).
Defined.

(** ** Further properties of the Size Budget Ledger *)

Section LedgerExtras.
Import Ledger.

Variable lower : string -> string.
Variable normpath : string -> string.
Variable isdir_not_link : string -> bool.
Variable lstat_size : string -> outcome Z.
Variable isfile : string -> bool.

Local Abbreviation removeFile := (removeFile lower normpath).
Local Abbreviation addFile :=
  (addFile lower normpath isdir_not_link lstat_size).
Local Abbreviation prepared := (prepared lower normpath).
Local Abbreviation add_debian_files :=
  (add_debian_files normpath lstat_size isfile).
Local Abbreviation addDebianPackage :=
  (addDebianPackage normpath lstat_size isfile).












End LedgerExtras.





(** ** Further properties of the recording of packages *)

Section DebianExtras.
Import Ledger Attributor.

Variable lower : string -> string.
Variable normpath : string -> string.
Variable isdir_not_link : string -> bool.
Variable lstat_size : string -> outcome Z.
Variable isfile : string -> bool.
Variable work_dir : string.

Local Abbreviation removeFile := (removeFile lower normpath).
Local Abbreviation addFile :=
  (addFile lower normpath isdir_not_link lstat_size).
Local Abbreviation prepared := (prepared lower normpath).
Local Abbreviation add_debian_files :=
  (add_debian_files normpath lstat_size isfile).
Local Abbreviation addDebianPackage :=
  (addDebianPackage normpath lstat_size isfile).






End DebianExtras.

Section RecordingExtras.
Import Ledger Attributor.

Variable normpath : string -> string.
Variable lstat_size : string -> outcome Z.
Variable isfile : string -> bool.
Variable work_dir : string.
Variable uses_base : bool.

Local Abbreviation record_packages :=
  (record_packages normpath lstat_size isfile false work_dir uses_base).
Local Abbreviation recorded := (recorded uses_base).

Local Abbreviation count_of o := (match o with Some n => n | None => 0 end).


End RecordingExtras.



(** ** Further properties of the enforcement of limits *)

Section LimitValues.
Import Enforce.

Variable size_limits_file : string.







Lemma first_digits_digits (s digits : string) :
  PyStr.first_digits s = Some digits ->
  PyStr.all_chars PyStr.is_digit digits = true /\ digits <> EmptyString.
Proof.
  induction s as [|c s IH]; cbn [PyStr.first_digits]; [discriminate|].
  destruct (PyStr.is_digit c) eqn:Hc; [|exact IH].
  intros [= <-]. split; [|discriminate].
  cbn [PyStr.all_chars]. rewrite Hc. cbn [andb].
  clear. induction s as [|c s IH]; cbn [PyStr.take_digits];
    [reflexivity|].
  destruct (PyStr.is_digit c) eqn:Hc; cbn [PyStr.all_chars];
    [|reflexivity].
  rewrite Hc. exact IH.
Qed.


End LimitValues.


(** ** Further properties of the Capacity Planner *)

Section CapacityExtras.
Import PyFloat ExtImage.
Local Open Scope py_scope.







End CapacityExtras.



(** ** Further properties of the Manifest Merger *)

Section DeepUpdateLaws.
Import Manifest.


End DeepUpdateLaws.



Section ParserFacts.
Import Manifest.









End ParserFacts.



Section ConversionFacts.
Import Manifest.

Variable get_full_mirrors : json -> outcome json.
Variable get_full_cpt : json -> outcome json.
Variable full_debian_manifest : json.

Local Abbreviation merge_with_parent :=
  (merge_with_parent get_full_mirrors get_full_cpt full_debian_manifest).
Local Abbreviation convert_to_manifest :=
  (convert_to_manifest get_full_mirrors get_full_cpt full_debian_manifest).






End ConversionFacts.

